(** * gupdeps: commit-history analysis of Go dependency updates

    A shallow embedding of the analysis core of [moeryomenko/gupdeps]
    (package [internal/dependencies] and [internal/models]):

    - [GoStrings], [GoFmt], [GoRegexp]: the fragments of Go's [strings],
      [fmt] and [regexp] packages that the package calls;
    - [Models]: the structs of [internal/models/types.go];
    - [Analyzer]: [CommitAnalyzer] ([AnalyzeCommits] and its formatters);
    - [GitOps]: [GitOperations] on top of the go-git library, whose repository
      operations are an interface ([git.Backend]), with a small in-memory
      instance ([InMemory]) to run them on.

    Strings are Go strings: sequences of bytes, here [string] (a list of
    [ascii], one per byte).  Go's [int] is a 64-bit two's-complement
    integer, here [Z] with the wrap-around written out ([GoFmt.wrap]). *)

From Stdlib Require Import ZArith String Ascii List Lia DecimalString.
From stdpp Require Import base gmap strings list.

Local Open Scope string_scope.

(* ===================================================================== *)
(** ** Go's [strings] package *)
(* ===================================================================== *)

Module GoStrings.

(** [stripPrefix p s] is [Some rest] when [s = p ++ rest]. *)
Fixpoint stripPrefix (p s : string) : option string :=
  match p with
  | EmptyString => Some s
  | String a p' =>
      match s with
      | EmptyString => None
      | String b s' => if Ascii.eqb a b then stripPrefix p' s' else None
      end
  end.

(** [strings.HasPrefix(s, prefix)]. *)
Definition HasPrefix (s p : string) : bool :=
  match stripPrefix p s with Some _ => true | None => false end.

(** [strings.Contains(s, substr)]: [substr] occurs at some byte offset. *)
Fixpoint Contains (s substr : string) : bool :=
  HasPrefix s substr ||
  match s with
  | EmptyString => false
  | String _ s' => Contains s' substr
  end.

(** The scan behind [strings.Split(s, sep)] for a non-empty [sep] (both
    call sites pass a one-byte separator).  [cur] is the field being
    read and [skip] counts the bytes of a separator still to be jumped
    over. *)
Fixpoint splitFrom (sep s cur : string) (skip : nat) : list string :=
  match s with
  | EmptyString => [cur]
  | String c s' =>
      match skip with
      | S k => splitFrom sep s' cur k
      | O =>
          if HasPrefix s sep
          then cur :: splitFrom sep s' EmptyString (String.length sep - 1)
          else splitFrom sep s' (cur +:+ String c EmptyString) 0
      end
  end.

Definition Split (s sep : string) : list string :=
  splitFrom sep s EmptyString 0.

(** [strings.Join(elems, sep)]. *)
Fixpoint Join (elems : list string) (sep : string) : string :=
  match elems with
  | [] => EmptyString
  | [x] => x
  | x :: rest => x +:+ sep +:+ Join rest sep
  end.

End GoStrings.

(* ===================================================================== *)
(** ** Go's [int] and the [%d] verb of [fmt] *)
(* ===================================================================== *)

Module GoFmt.

Local Open Scope Z_scope.

Definition maxInt : Z := 2 ^ 63 - 1.
Definition minInt : Z := - 2 ^ 63.

(** Two's-complement wrap-around of a 64-bit [int]. *)
Definition wrap (z : Z) : Z := (z + 2 ^ 63) mod 2 ^ 64 - 2 ^ 63.

(** [i++] on an [int]. *)
Definition incr (i : Z) : Z := wrap (i + 1).

(** [fmt.Sprintf("%d", i)]: decimal digits, a leading minus sign for
    negative numbers. *)
Definition Sprintf_d (i : Z) : string := NilZero.string_of_int (Z.to_int i).

End GoFmt.

(* ===================================================================== *)
(** ** Go's [regexp], for patterns of the form [(?i)(w1|w2|...|wn)] *)
(* ===================================================================== *)

Module GoRegexp.

(** The parse of the four patterns of [AnalyzeCommits]: an alternation
    of literal words under the case-folding flag [(?i)]. *)
Record Regexp : Type := MkRegexp
  { foldCase : bool;
    alternatives : list string }.

Definition isUpper (c : ascii) : bool :=
  (65 <=? nat_of_ascii c)%nat && (nat_of_ascii c <=? 90)%nat.
Definition isLower (c : ascii) : bool :=
  (97 <=? nat_of_ascii c)%nat && (nat_of_ascii c <=? 122)%nat.

Definition toLower (c : ascii) : ascii :=
  if isUpper c then ascii_of_nat (nat_of_ascii c + 32) else c.
Definition toUpper (c : ascii) : ascii :=
  if isLower c then ascii_of_nat (nat_of_ascii c - 32) else c.

(** UTF-8 encodings of the two non-ASCII runes that Go's simple case
    folding puts in the orbit of an ASCII letter: U+212A KELVIN SIGN
    (with [k], [K]) and U+017F LATIN SMALL LETTER LONG S (with [s],
    [S]). *)
Definition kelvinSign : string :=
  String (ascii_of_nat 226) (String (ascii_of_nat 132)
    (String (ascii_of_nat 170) EmptyString)).
Definition longS : string :=
  String (ascii_of_nat 197) (String (ascii_of_nat 191) EmptyString).

Definition single (c : ascii) : string := String c EmptyString.

(** The byte sequences that a pattern byte [c] accepts.  Under [(?i)] a
    letter accepts every rune of its [unicode.SimpleFold] orbit. *)
Definition accepted (fold : bool) (c : ascii) : list string :=
  if fold && (isLower c || isUpper c) then
    single (toLower c) :: single (toUpper c) ::
      (if Ascii.eqb (toLower c) "k" then [kelvinSign]
       else if Ascii.eqb (toLower c) "s" then [longS]
       else [])
  else [single c].

(** The literal [word] matches a prefix of [s]. *)
Fixpoint matchHere (fold : bool) (word s : string) : bool :=
  match word with
  | EmptyString => true
  | String c word' =>
      existsb
        (fun enc =>
           match GoStrings.stripPrefix enc s with
           | Some s' => matchHere fold word' s'
           | None => false
           end)
        (accepted fold c)
  end.

(** The literal [word] matches at some offset of [s].  The engine
    advances rune by rune; every byte sequence in [accepted] starts with
    a byte that is never a UTF-8 continuation byte, so the offsets at
    which a match can start are rune boundaries in any case. *)
Fixpoint matchAnywhere (fold : bool) (word s : string) : bool :=
  matchHere fold word s ||
  match s with
  | EmptyString => false
  | String _ s' => matchAnywhere fold word s'
  end.

(** [re.MatchString(s)]: unanchored, some alternative matches. *)
Definition MatchString (re : Regexp) (s : string) : bool :=
  existsb (fun w => matchAnywhere (foldCase re) w s) (alternatives re).

End GoRegexp.

(* ===================================================================== *)
(** ** [internal/models/types.go] *)
(* ===================================================================== *)

Module Models.

(** [time.Time], only ever stored: seconds since the epoch. *)
Definition Time : Type := Z.

Record Dependency : Type := MkDependency
  { Name : string;
    CurrentVersion : string;
    LatestVersion : string;
    UpdateNeeded : bool }.

Record CommitInfo : Type := MkCommitInfo
  { Hash : string;
    Message : string;
    Date : Time }.

Record UpdateAnalysis : Type := MkUpdateAnalysis
  { Dependency_ : Dependency;
    Commits : list CommitInfo;
    ShouldUpdate : bool;
    UpdateReason : string;
    RejectionReason : string }.

End Models.

(* ===================================================================== *)
(** ** [CommitAnalyzer] *)
(* ===================================================================== *)

Module Analyzer.

Import GoRegexp Models.

(** [patterns] of [AnalyzeCommits], a [map[string]*regexp.Regexp]. *)
Definition fixRe : Regexp :=
  MkRegexp true ["fix"; "bug"; "patch"; "resolve"; "correct"].
Definition perfRe : Regexp :=
  MkRegexp true ["perf"; "optimize"; "performance"; "speed"; "faster"].
Definition breakRe : Regexp :=
  MkRegexp true ["breaking"; "break"; "remove"; "deprecate"; "BREAKING"].
Definition featureRe : Regexp :=
  MkRegexp true ["feat"; "feature"; "add"; "new"].

Definition patterns : gmap string Regexp :=
  <["fix" := fixRe]> (<["perf" := perfRe]> (<["break" := breakRe]>
    (<["feature" := featureRe]> ∅))).

(** [counts], a [map[string]int]; a missing key reads as [0]. *)
Definition initialCounts : gmap string Z :=
  <["fix" := 0%Z]> (<["perf" := 0%Z]> (<["break" := 0%Z]>
    (<["feature" := 0%Z]> ∅))).

Definition get (counts : gmap string Z) (category : string) : Z :=
  default 0%Z (counts !! category).

(** Body of the inner loop: [if pattern.MatchString(msg) { counts[category]++ }]. *)
Definition tally (msg : string) (counts : gmap string Z)
    (entry : string * Regexp) : gmap string Z :=
  if MatchString entry.2 msg
  then <[entry.1 := GoFmt.incr (get counts entry.1)]> counts
  else counts.

(** [for category, pattern := range patterns], visiting the entries in
    the order [order] (Go leaves the order of a map range unspecified). *)
Definition rangePatterns (order : list (string * Regexp)) (msg : string)
    (counts : gmap string Z) : gmap string Z :=
  fold_left (tally msg) order counts.

(** [for _, commit := range commits]. *)
Definition countCommits (order : list (string * Regexp))
    (commits : list CommitInfo) (counts : gmap string Z) : gmap string Z :=
  fold_left (fun counts commit => rangePatterns order (Message commit) counts)
    commits counts.

Definition formatRejectionReason (breakingChanges : Z) : string :=
  "Contains " +:+ GoFmt.Sprintf_d breakingChanges +:+ " breaking changes".

Definition formatApprovalReason (counts : gmap string Z) : string :=
  let reasons : list string := [] in
  let reasons :=
    if (get counts "fix" >? 0)%Z
    then app reasons [GoFmt.Sprintf_d (get counts "fix") +:+ " fixes"]
    else reasons in
  let reasons :=
    if (get counts "perf" >? 0)%Z
    then app reasons [GoFmt.Sprintf_d (get counts "perf") +:+ " optimizations"]
    else reasons in
  GoStrings.Join reasons ", ".

Definition formatFeatureReason (featureCount : Z) : string :=
  GoFmt.Sprintf_d featureCount +:+ " new features".

(** The decision logic, on the final [counts]. *)
Definition decide_ (counts : gmap string Z) : bool * string * string :=
  if (get counts "break" >? 0)%Z then
    (false, "", formatRejectionReason (get counts "break"))
  else if (get counts "fix" >? 0)%Z || (get counts "perf" >? 0)%Z then
    (true, formatApprovalReason counts, "")
  else if (get counts "feature" >? 0)%Z then
    (true, formatFeatureReason (get counts "feature"), "")
  else (false, "", "No significant improvements found").

(** [AnalyzeCommits], for a given visiting order of [patterns]; the
    result is [(shouldUpdate, reason, riskLevel)]. *)
Definition AnalyzeCommitsIn (order : list (string * Regexp))
    (commits : list CommitInfo) : bool * string * string :=
  decide_ (countCommits order commits initialCounts).

Definition AnalyzeCommits (commits : list CommitInfo) : bool * string * string :=
  AnalyzeCommitsIn (map_to_list patterns) commits.

(** [AnalyzeUpdate]. *)
Definition AnalyzeUpdate (dep : Dependency) (commits : list CommitInfo)
    : UpdateAnalysis :=
  let '(shouldUpdate, reason, rejection) := AnalyzeCommits commits in
  {| Dependency_ := dep;
     Commits := commits;
     ShouldUpdate := shouldUpdate;
     UpdateReason := reason;
     RejectionReason := rejection |}.

(** A slice of [n] elements exists only when [n] is an [int]. *)
Definition sliceLen {A} (l : list A) : Prop :=
  (Z.of_nat (length l) <= GoFmt.maxInt)%Z.

(** The number of records whose message matches [re]: what the spec
    calls the count of a category. *)
Definition matching (re : Regexp) (commits : list CommitInfo) : Z :=
  Z.of_nat (length (List.filter (fun c => MatchString re (Message c)) commits)).

(** [counts] holds, for each category, the number of matching records. *)
Record Tallied (counts : gmap string Z) (commits : list CommitInfo) : Prop :=
  { tallied_fix : get counts "fix" = matching fixRe commits;
    tallied_perf : get counts "perf" = matching perfRe commits;
    tallied_break : get counts "break" = matching breakRe commits;
    tallied_feature : get counts "feature" = matching featureRe commits }.

End Analyzer.

(* ===================================================================== *)
(** ** [internal/utils/logger.go] *)
(* ===================================================================== *)

Module Utils.

Inductive Level : Type := INFO | WARN | ERROR | SUCCESS.

(** A line written to the process output: the logger it went through
    and the formatted message (the [log.LstdFlags] time stamp is left
    out). *)
Definition Line : Type := (Level * string)%type.

Record Logger : Type := NewLogger { verbose : bool }.

(** [Info] prints only when [verbose] is set, [Warn] always. *)
Definition Info (l : Logger) (msg : string) (out : list Line) : list Line :=
  if verbose l then app out [(INFO, msg)] else out.

Definition Warn (l : Logger) (msg : string) (out : list Line) : list Line :=
  app out [(WARN, msg)].

End Utils.

(* ===================================================================== *)
(** ** Go errors and [(T, error)] results *)
(* ===================================================================== *)

Module GoError.

(** An [error] value: the two sentinels of go-git that the code or the
    library compares by identity, or any other error, known by its
    message. *)
Inductive error : Type :=
| NoErrAlreadyUpToDate
| ErrStop
| errorString (msg : string).

(** [err.Error()]. *)
Definition Error (e : error) : string :=
  match e with
  | NoErrAlreadyUpToDate => "already up-to-date"
  | ErrStop => "stop iter"
  | errorString msg => msg
  end.

(** [err == storer.ErrStop] and [err == git.NoErrAlreadyUpToDate]. *)
Definition isErrStop (e : error) : bool :=
  match e with ErrStop => true | _ => false end.
Definition isNoErrAlreadyUpToDate (e : error) : bool :=
  match e with NoErrAlreadyUpToDate => true | _ => false end.

(** [fmt.Errorf(format)] and [fmt.Errorf(prefix + "%w", err)]. *)
Definition Errorf (msg : string) : error := errorString msg.
Definition Errorf_w (prefix : string) (err : error) : error :=
  errorString (prefix +:+ Error err).

(** The [%v] verb on an [error] that may be [nil]. *)
Definition Sprintf_v (err : option error) : string :=
  match err with
  | None => "<nil>"
  | Some e => Error e
  end.

(** A Go result pair [(T, error)] with exactly one side set. *)
Inductive result (A : Type) : Type :=
| Ok (a : A)
| Fail (e : error).
Arguments Ok {A} a.
Arguments Fail {A} e.

Definition errOf {A} (r : result A) : option error :=
  match r with Ok _ => None | Fail e => Some e end.

End GoError.

(* ===================================================================== *)
(** ** go-git: the types and operations that [GitOperations] uses *)
(* ===================================================================== *)

Module plumbing.

(** [plumbing.Hash], a [[20]byte] compared with [==]: its bytes. *)
Definition Hash : Type := string.

Definition hexDigit (n : N) : ascii :=
  ascii_of_N (if (n <? 10)%N then 48 + n else 87 + n)%N.

(** [h.String()]: two lower-case hexadecimal digits per byte. *)
Fixpoint String_ (h : Hash) : string :=
  match h with
  | EmptyString => EmptyString
  | String b h' =>
      String (hexDigit (N_of_ascii b / 16)) (String (hexDigit (N_of_ascii b mod 16))
        (String_ h'))
  end.

End plumbing.

Module object.

(** [object.Signature] and [object.Commit], the fields that are read. *)
Record Signature : Type := MkSignature { When : Models.Time }.

Record Commit : Type := MkCommit
  { Hash : plumbing.Hash;
    Author : Signature;
    Message : string }.

(** A commit iterator ([object.CommitIter]) by what [Next] yields: the
    commits in walk order, then [io.EOF] ([None]) or an error. *)
Record CommitIter : Type := MkCommitIter
  { yields : list Commit;
    ending : option GoError.error }.

(** [iter.ForEach(cb)]: call [cb] on each commit [Next] yields; stop
    with [nil] at [io.EOF] or when [cb] returns [storer.ErrStop], stop
    with the error when [Next] or [cb] returns any other one.  [S] is
    the state of the variables that the closure [cb] captures. *)
Fixpoint forEach {S : Type} (cb : Commit -> S -> option GoError.error * S)
    (commits : list Commit) (ending : option GoError.error) (s : S)
    : option GoError.error * S :=
  match commits with
  | [] => (ending, s)
  | c :: rest =>
      match cb c s with
      | (Some e, s') =>
          if GoError.isErrStop e then (None, s') else (Some e, s')
      | (None, s') => forEach cb rest ending s'
      end
  end.

Definition ForEach {S : Type} (iter : CommitIter)
    (cb : Commit -> S -> option GoError.error * S) (s : S)
    : option GoError.error * S :=
  forEach cb (yields iter) (ending iter) s.

End object.

Module git.

Import GoError.

(** [git.SubmoduleRescursivity]. *)
Definition NoRecurseSubmodules : Z := 0.

(** [git.CloneOptions], [git.FetchOptions] and [git.LogOptions], the
    fields that the code sets ([Progress] is set to [nil]). *)
Record CloneOptions : Type := MkCloneOptions
  { URL : string;
    Depth : Z;
    SingleBranch : bool;
    NoCheckout : bool;
    RecurseSubmodules : Z }.

Record FetchOptions : Type := MkFetchOptions
  { RefSpecs : list string;
    Force : bool }.

Record LogOptions : Type := MkLogOptions { From : plumbing.Hash }.

(** The operations of the Go runtime ([os]) and of go-git that
    [GitOperations] calls.  [World] is everything outside the process:
    the file system with the clones on it, and the remote.
    [Repository] is a [*git.Repository] handle into it.  Creating and
    removing directories, cloning and fetching change the world; the
    other operations read it. *)
Class Backend : Type := MkBackend
  { World : Type;
    Repository : Type;
    MkdirTemp : string -> string -> World -> result string * World;
    RemoveAll : string -> World -> World;
    PlainClone : string -> bool -> CloneOptions -> World -> result Repository * World;
    Fetch : Repository -> FetchOptions -> World -> option error * World;
    ResolveRevision : Repository -> string -> World -> result plumbing.Hash;
    CommitObject : Repository -> plumbing.Hash -> World -> result object.Commit;
    Log : Repository -> LogOptions -> World -> result object.CommitIter;
    (** [repo.Head()] followed by [headRef.Hash()]. *)
    Head : Repository -> World -> result plumbing.Hash }.

End git.

(* ===================================================================== *)
(** ** [GitOperations] *)
(* ===================================================================== *)

Module GitOps.

Import GoError Models.

Section WithBackend.

Context `{B : git.Backend}.

(** What a method can change: the world and the lines printed. *)
Record State : Type := MkState
  { world : git.World;
    output : list Utils.Line }.

Definition M (A : Type) : Type := State -> A * State.

Definition ret {A} (a : A) : M A := fun st => (a, st).
Definition bind {A C} (m : M A) (k : A -> M C) : M C :=
  fun st => let (a, st') := m st in k a st'.

(** Lift a change of the world, a read of the world, a logger call. *)
Definition act {A} (f : git.World -> A * git.World) : M A :=
  fun st => let (a, w) := f (world st) in (a, MkState w (output st)).
Definition act_ (f : git.World -> git.World) : M unit :=
  fun st => (tt, MkState (f (world st)) (output st)).
Definition read {A} (f : git.World -> A) : M A :=
  fun st => (f (world st), st).
Definition say (f : list Utils.Line -> list Utils.Line) : M unit :=
  fun st => (tt, MkState (world st) (f (output st))).

Notation "x <- m ;; k" := (bind m (fun x => k))
  (at level 100, m at next level, right associativity).
Notation "m ;; k" := (bind m (fun _ => k))
  (at level 100, right associativity).

Record GitOperations : Type := NewGitOperations { logger : Utils.Logger }.

(** The last two statements of [determineRepositoryURL]. *)
Definition bestGuess (g : GitOperations) (modulePath : string) : M string :=
  say (Utils.Warn (logger g)
         ("Unknown repository host for " +:+ modulePath +:+ ", using best guess")) ;;
  ret ("https://" +:+ modulePath +:+ ".git").

(** [determineRepositoryURL], the same function in the variant of the
    package that drives the git command line.  [parts[1]], [parts[2]]
    and [pkgParts[0]] are read where the length tests before them put
    the index in range. *)
Definition determineRepositoryURL (g : GitOperations) (modulePath : string)
    : M string :=
  if GoStrings.HasPrefix modulePath "github.com/"
     || GoStrings.HasPrefix modulePath "gitlab.com/"
     || GoStrings.HasPrefix modulePath "bitbucket.org/"
  then ret ("https://" +:+ modulePath +:+ ".git")
  else if GoStrings.HasPrefix modulePath "gopkg.in/" then
    let parts := GoStrings.Split modulePath "/" in
    if (2 <=? length parts)%nat then
      if (length parts =? 2)%nat then
        let pkgParts := GoStrings.Split (nth 1 parts "") "." in
        if (2 <=? length pkgParts)%nat
        then ret ("https://github.com/go-" +:+ nth 0 pkgParts "" +:+ "/"
                    +:+ nth 0 pkgParts "" +:+ ".git")
        else bestGuess g modulePath
      else
        let pkgParts := GoStrings.Split (nth 2 parts "") "." in
        if (2 <=? length pkgParts)%nat
        then ret ("https://github.com/" +:+ nth 1 parts "" +:+ "/"
                    +:+ nth 0 pkgParts "" +:+ ".git")
        else bestGuess g modulePath
    else bestGuess g modulePath
  else bestGuess g modulePath.

(** [cloneRepository]. *)
Definition cloneRepository (g : GitOperations) (repoURL destDir : string)
    : M (result git.Repository) :=
  r <- act (git.PlainClone destDir false
              {| git.URL := repoURL;
                 git.Depth := 1;
                 git.SingleBranch := true;
                 git.NoCheckout := false;
                 git.RecurseSubmodules := git.NoRecurseSubmodules |}) ;;
  match r with
  | Fail err =>
      ret (Fail (Errorf_w ("failed to clone repository " +:+ repoURL +:+ ": ") err))
  | Ok repo => ret (Ok repo)
  end.

(** [fetchTags]. *)
Definition fetchTags (g : GitOperations) (repo : git.Repository)
    (dep : Dependency) : M (option error) :=
  err <- act (git.Fetch repo
                {| git.RefSpecs := ["refs/tags/*:refs/tags/*"];
                   git.Force := true |}) ;;
  match err with
  | Some e =>
      if negb (isNoErrAlreadyUpToDate e) then
        say (Utils.Warn (logger g)
               ("Failed to fetch tags for " +:+ Name dep +:+ ": " +:+ Error e)) ;;
        ret (Some e)
      else ret None
  | None => ret None
  end.

(** The statement
    [if err := g.fetchTags(repo, dep); err != nil { g.logger.Warn(...) }],
    which [GetCommitsBetweenVersions] and [getCommitLog] both start
    their work on the clone with. *)
Definition fetchTagsOrWarn (g : GitOperations) (repo : git.Repository)
    (dep : Dependency) : M unit :=
  err <- fetchTags g repo dep ;;
  match err with
  | Some e =>
      say (Utils.Warn (logger g)
             ("Failed to fetch tags for " +:+ Name dep +:+ ": " +:+ Error e))
  | None => ret tt
  end.

(** [versionRefs] of [resolveVersionRef]. *)
Definition versionRefs (versionStr : string) : list string :=
  [ "refs/tags/" +:+ versionStr;
    "refs/tags/v" +:+ versionStr;
    versionStr;
    "v" +:+ versionStr ].

(** The loop of [resolveVersionRef]: the hash of the first reference
    that [ResolveRevision] resolves. *)
Fixpoint firstResolved (repo : git.Repository) (refs : list string)
    (w : git.World) : option plumbing.Hash :=
  match refs with
  | [] => None
  | ref :: rest =>
      match git.ResolveRevision repo ref w with
      | Ok hash => Some hash
      | Fail _ => firstResolved repo rest w
      end
  end.

Definition resolveVersionRef (g : GitOperations) (repo : git.Repository)
    (versionStr : string) : M (result plumbing.Hash) :=
  read (fun w =>
          match firstResolved repo (versionRefs versionStr) w with
          | Some hash => Ok hash
          | None =>
              Fail (Errorf ("could not resolve version reference for "
                              +:+ versionStr))
          end).

(** The record appended for a commit by both walks. *)
Definition commitInfo (c : object.Commit) : CommitInfo :=
  {| Hash := plumbing.String_ (object.Hash c);
     Message := object.Message c;
     Date := object.When (object.Author c) |}.

(** The variables captured by the closures passed to [ForEach]:
    [commits] and [processedCommits]. *)
Definition Walk : Type := (list CommitInfo * Z)%type.

Definition limitReached (limit : Z) : error :=
  Errorf ("reached maximum commit limit (" +:+ GoFmt.Sprintf_d limit +:+ ")").

(** The closure of [getCommitsBetweenHashes]. *)
Definition betweenStep (fromCommit : object.Commit) (maxCommits : Z)
    (c : object.Commit) (s : Walk) : option error * Walk :=
  let '(commits, processedCommits) := s in
  if String.eqb (object.Hash c) (object.Hash fromCommit) then
    (Some (Errorf "reached boundary commit"), s)
  else if (processedCommits >=? maxCommits)%Z then
    (Some (limitReached maxCommits), s)
  else (None, (app commits [commitInfo c], GoFmt.incr processedCommits)).

(** [getCommitsBetweenHashes]. *)
Definition getCommitsBetweenHashes (g : GitOperations) (repo : git.Repository)
    (from to : plumbing.Hash) : M (result (list CommitInfo)) :=
  r <- read (git.CommitObject repo from) ;;
  match r with
  | Fail err => ret (Fail (Errorf_w "failed to get 'from' commit: " err))
  | Ok fromCommit =>
  r <- read (git.CommitObject repo to) ;;
  match r with
  | Fail err => ret (Fail (Errorf_w "failed to get 'to' commit: " err))
  | Ok toCommit =>
  r <- read (git.Log repo {| git.From := object.Hash toCommit |}) ;;
  match r with
  | Fail err => ret (Fail (Errorf_w "failed to get commit log: " err))
  | Ok commitIter =>
  let maxCommits := 200%Z in
  let '(err, (commits, _)) :=
    object.ForEach commitIter (betweenStep fromCommit maxCommits) ([], 0%Z) in
  match err with
  | Some e =>
      if negb (String.eqb (Error e) "reached boundary commit")
         && negb (GoStrings.Contains (Error e) "reached maximum commit limit")
      then ret (Fail (Errorf_w "error iterating commits: " e))
      else ret (Ok commits)
  | None => ret (Ok commits)
  end end end end.

(** The closure of [getRecentCommits]. *)
Definition recentStep (limit : Z) (c : object.Commit) (s : Walk)
    : option error * Walk :=
  let '(commits, processedCommits) := s in
  if (processedCommits >=? limit)%Z then (Some (limitReached limit), s)
  else (None, (app commits [commitInfo c], GoFmt.incr processedCommits)).

(** [getRecentCommits]. *)
Definition getRecentCommits (g : GitOperations) (repo : git.Repository)
    (limit : Z) : M (result (list CommitInfo)) :=
  r <- read (git.Head repo) ;;
  match r with
  | Fail err => ret (Fail (Errorf_w "failed to get HEAD reference: " err))
  | Ok headHash =>
  r <- read (git.Log repo {| git.From := headHash |}) ;;
  match r with
  | Fail err => ret (Fail (Errorf_w "failed to get commit log: " err))
  | Ok commitIter =>
  let '(err, (commits, _)) :=
    object.ForEach commitIter (recentStep limit) ([], 0%Z) in
  match err with
  | Some e =>
      if negb (GoStrings.Contains (Error e) "reached maximum commit limit")
      then ret (Fail (Errorf_w "error iterating commits: " e))
      else ret (Ok commits)
  | None => ret (Ok commits)
  end end end.

(** [getCommitLog]. *)
Definition getCommitLog (g : GitOperations) (repo : git.Repository)
    (dep : Dependency) : M (result (list CommitInfo)) :=
  fetchTagsOrWarn g repo dep ;;
  current <- resolveVersionRef g repo (CurrentVersion dep) ;;
  latest <- resolveVersionRef g repo (LatestVersion dep) ;;
  match current, latest with
  | Ok currentHash, Ok latestHash =>
      r <- getCommitsBetweenHashes g repo currentHash latestHash ;;
      match r with
      | Fail err =>
          say (Utils.Warn (logger g)
                 ("Failed to get commits between versions: " +:+ Error err)) ;;
          getRecentCommits g repo 300
      | Ok commits =>
          (if (length commits =? 0)%nat then
             say (Utils.Info (logger g)
                    ("No commits found between " +:+ Name dep +:+ " "
                       +:+ CurrentVersion dep +:+ " and " +:+ LatestVersion dep))
           else ret tt) ;;
          ret (Ok commits)
      end
  | _, _ =>
      say (Utils.Warn (logger g)
             ("Could not resolve version references: current="
                +:+ Sprintf_v (errOf current) +:+ ", latest="
                +:+ Sprintf_v (errOf latest))) ;;
      getRecentCommits g repo 300
  end.

(** [GetCommitsBetweenVersions].  The deferred [os.RemoveAll(tempDir)]
    runs on every return that follows a successful [os.MkdirTemp].  The
    command-line variant of the package starts with the same comparison
    of the two versions. *)
Definition GetCommitsBetweenVersions (g : GitOperations) (dep : Dependency)
    : M (result (list CommitInfo)) :=
  if String.eqb (CurrentVersion dep) (LatestVersion dep) then ret (Ok [])
  else
    t <- act (git.MkdirTemp "" "dependency-*") ;;
    match t with
    | Fail err => ret (Fail (Errorf_w "failed to create temp directory: " err))
    | Ok tempDir =>
        res <-
          (repoURL <- determineRepositoryURL g (Name dep) ;;
           r <- cloneRepository g repoURL tempDir ;;
           match r with
           | Fail err => ret (Fail err)
           | Ok repo =>
               fetchTagsOrWarn g repo dep ;;
               r <- getCommitLog g repo dep ;;
               match r with
               | Fail err => ret (Fail err)
               | Ok commits =>
                   say (Utils.Info (logger g)
                          ("Found " +:+ GoFmt.Sprintf_d (Z.of_nat (length commits))
                             +:+ " commits between versions for " +:+ Name dep)) ;;
                   ret (Ok commits)
               end
           end) ;;
        act_ (git.RemoveAll tempDir) ;;
        ret res
    end.

End WithBackend.

End GitOps.

(* ===================================================================== *)
(** ** A small in-memory backend *)
(* ===================================================================== *)

(** An instance of [git.Backend] on which the methods can be run: a
    repository is a list of commits with at most one parent each, a table
    of references and a head.  The walk of [Log] follows the parents. *)
Module InMemory.

Import GoError.

Record Object : Type := MkObject
  { commit : object.Commit;
    parent : option plumbing.Hash }.

Record Repo : Type := MkRepo
  { objects : list Object;
    refs : list (string * plumbing.Hash);
    HEAD : option plumbing.Hash }.

Definition lookupObject (r : Repo) (h : plumbing.Hash) : option Object :=
  find (fun o => String.eqb (object.Hash (commit o)) h) (objects r).

Definition lookupRef (r : Repo) (name : string) : option plumbing.Hash :=
  snd <$> find (fun e => String.eqb (fst e) name) (refs r).

Fixpoint walk (fuel : nat) (r : Repo) (h : plumbing.Hash)
    : list object.Commit * option error :=
  match fuel with
  | O => ([], None)
  | S fuel' =>
      match lookupObject r h with
      | None => ([], Some (errorString "object not found"))
      | Some o =>
          match parent o with
          | None => ([commit o], None)
          | Some p => let (cs, e) := walk fuel' r p in (commit o :: cs, e)
          end
      end
  end.

Definition backend : git.Backend :=
  {| git.World := Repo;
     git.Repository := unit;
     git.MkdirTemp := fun _ _ w => (Ok "/tmp/dependency-1", w);
     git.RemoveAll := fun _ w => w;
     git.PlainClone := fun _ _ _ w => (Ok tt, w);
     git.Fetch := fun _ _ w => (Some NoErrAlreadyUpToDate, w);
     git.ResolveRevision := fun _ name w =>
       match lookupRef w name with
       | Some h => Ok h
       | None => Fail (errorString "reference not found")
       end;
     git.CommitObject := fun _ h w =>
       match lookupObject w h with
       | Some o => Ok (commit o)
       | None => Fail (errorString "object not found")
       end;
     git.Log := fun _ o w =>
       let (cs, e) := walk (length (objects w)) w (git.From o) in
       Ok (object.MkCommitIter cs e);
     git.Head := fun _ w =>
       match HEAD w with
       | Some h => Ok h
       | None => Fail (errorString "reference not found")
       end |}.

(** A commit named by a number, and a chain of [n] of them, the newest
    first: commit [k] has parent [k - 1], commit [1] has none. *)
Definition name (k : nat) : plumbing.Hash :=
  NilZero.string_of_uint (Nat.to_uint k).

Definition numbered (k : nat) : Object :=
  {| commit :=
       {| object.Hash := name k;
          object.Author := {| object.When := Z.of_nat k |};
          object.Message := "change " +:+ name k |};
     parent := match k with 1%nat => None | _ => Some (name (k - 1)) end |}.

Definition chain (n : nat) : list Object :=
  map (fun i => numbered (n - i)) (seq 0 n).

Definition g : GitOps.GitOperations := GitOps.NewGitOperations (Utils.NewLogger false).

Definition start (r : Repo) : GitOps.State (B := backend) :=
  GitOps.MkState (B := backend) r [].

(** 250 commits and no tag at all. *)
Definition untagged : Repo :=
  {| objects := chain 250; refs := []; HEAD := Some (name 250) |}.

(** Four commits, the versions tagged on the oldest and the newest. *)
Definition tagged : Repo :=
  {| objects := chain 4;
     refs := [("refs/tags/v1.0.0", name 1); ("refs/tags/v1.1.0", name 4)];
     HEAD := Some (name 4) |}.

(** The three newest commits of [tagged], without its tags. *)
Definition bare : Repo :=
  {| objects :=
       [numbered 4; numbered 3;
        {| commit := commit (numbered 2); parent := None |}];
     refs := [];
     HEAD := Some (name 4) |}.

(** Two histories with no commit in common: [1 <- 2 <- 3] carries the
    tag of the latest version and [7 <- 8] the head and the tag of the
    current version. *)
Definition divergent : Repo :=
  {| objects :=
       app (chain 3)
         [numbered 8; {| commit := commit (numbered 7); parent := None |}];
     refs := [("refs/tags/v1.0.0", name 8); ("refs/tags/v1.1.0", name 3)];
     HEAD := Some (name 8) |}.

Definition dep : Models.Dependency :=
  {| Models.Name := "example.com/lib";
     Models.CurrentVersion := "1.0.0";
     Models.LatestVersion := "1.1.0";
     Models.UpdateNeeded := true |}.

Definition upToDate : Models.Dependency :=
  {| Models.Name := "example.com/lib";
     Models.CurrentVersion := "1.1.0";
     Models.LatestVersion := "1.1.0";
     Models.UpdateNeeded := false |}.

End InMemory.

(* ===================================================================== *)
(** ** Vocabulary of the specification and sample inputs *)
(* ===================================================================== *)

(** What the spec calls a case-insensitive occurrence of a keyword: some
    substring of the message equals it up to the case of ASCII letters. *)
Module Keyword.

Import GoRegexp.

Fixpoint lowerString (s : string) : string :=
  match s with
  | EmptyString => EmptyString
  | String c s' => String (toLower c) (lowerString s')
  end.

Definition occursIn (kw msg : string) : Prop :=
  exists before after, msg = before +:+ kw +:+ after.

Definition occursFoldedIn (kw msg : string) : Prop :=
  exists before mid after,
    msg = before +:+ mid +:+ after /\ lowerString mid = lowerString kw.

End Keyword.

(** What the spec calls the records up to the boundary: the commits of
    a walk that come before the first one with the hash of [boundary]. *)
Module Range.

Fixpoint beforeBoundary (boundary : object.Commit) (walk : list object.Commit)
    : list object.Commit :=
  match walk with
  | [] => []
  | c :: rest =>
      if String.eqb (object.Hash c) (object.Hash boundary) then []
      else c :: beforeBoundary boundary rest
  end.

End Range.

(* ===================================================================== *)
(** ** More of Go's [strings] package *)
(* ===================================================================== *)

Module GoText.

(** [s[n:]], for [n <= len(s)]. *)
Fixpoint from (n : nat) (s : string) : string :=
  match n, s with
  | S n', String _ s' => from n' s'
  | _, _ => s
  end.

(** [strings.HasSuffix(s, suffix)]:
    [len(s) >= len(suffix) && s[len(s)-len(suffix):] == suffix]. *)
Definition HasSuffix (s suffix : string) : bool :=
  (String.length suffix <=? String.length s)%nat
  && String.eqb (from (String.length s - String.length suffix) s) suffix.

(** The byte [c] occurs in [s]. *)
Fixpoint hasByte (c : ascii) (s : string) : bool :=
  match s with
  | EmptyString => false
  | String x s' => Ascii.eqb c x || hasByte c s'
  end.

(** [s] up to its first byte [c], all of [s] when there is none. *)
Fixpoint upTo (c : ascii) (s : string) : string :=
  match s with
  | EmptyString => EmptyString
  | String x s' => if Ascii.eqb c x then EmptyString else String x (upTo c s')
  end.

(** The UTF-8 encodings of the runes for which [unicode.IsSpace] holds:
    tab, line feed, vertical tab, form feed, carriage return, space,
    U+0085, U+00A0, U+1680, U+2000 to U+200A, U+2028, U+2029, U+202F,
    U+205F and U+3000.  The first byte of each is never a continuation
    byte, so an encoding found at a byte offset is a rune of the text. *)
Definition bytes (codes : list nat) : string :=
  string_of_list_ascii (map ascii_of_nat codes).

Definition spaceRunes : list string :=
  map bytes
    [ [9]; [10]; [11]; [12]; [13]; [32];
      [194; 133]; [194; 160];
      [225; 154; 128];
      [226; 128; 128]; [226; 128; 129]; [226; 128; 130]; [226; 128; 131];
      [226; 128; 132]; [226; 128; 133]; [226; 128; 134]; [226; 128; 135];
      [226; 128; 136]; [226; 128; 137]; [226; 128; 138];
      [226; 128; 168]; [226; 128; 169]; [226; 128; 175];
      [226; 129; 159];
      [227; 128; 128] ].

(** The number of bytes of the white-space rune that [s] starts with,
    [0] when it starts with none. *)
Definition spaceWidth (s : string) : nat :=
  match find (GoStrings.HasPrefix s) spaceRunes with
  | Some enc => String.length enc
  | None => 0
  end.

(** The same for the white-space rune that a text ends with, on the
    text read backwards. *)
Definition spaceWidthBack (reversed : string) : nat :=
  match find (fun enc => GoStrings.HasPrefix reversed (String.rev enc)) spaceRunes with
  | Some enc => String.length enc
  | None => 0
  end.

(** Drop the white-space runes that [s] starts with; [skip] counts the
    bytes still to drop of the rune being dropped. *)
Fixpoint dropSpaces (width : string -> nat) (s : string) (skip : nat) : string :=
  match s with
  | EmptyString => EmptyString
  | String _ s' =>
      match skip with
      | S k => dropSpaces width s' k
      | O =>
          match width s with
          | O => s
          | S w => dropSpaces width s' w
          end
      end
  end.

(** [strings.TrimSpace(s)]. *)
Definition TrimSpace (s : string) : string :=
  String.rev (dropSpaces spaceWidthBack (String.rev (dropSpaces spaceWidth s 0)) 0).

(** The scan behind [strings.Fields(s)]: [cur] is the field being read. *)
Fixpoint fieldsFrom (s cur : string) (skip : nat) : list string :=
  match s with
  | EmptyString => if String.eqb cur EmptyString then [] else [cur]
  | String c s' =>
      match skip with
      | S k => fieldsFrom s' cur k
      | O =>
          match spaceWidth s with
          | O => fieldsFrom s' (cur +:+ String c EmptyString) 0
          | S w =>
              if String.eqb cur EmptyString then fieldsFrom s' EmptyString w
              else cur :: fieldsFrom s' EmptyString w
          end
      end
  end.

Definition Fields (s : string) : list string := fieldsFrom s EmptyString 0.

(** The scan behind [strings.SplitN(s, sep, n)] for a non-empty [sep]
    and [n > 0]: at most [n] fields, the last one the unsplit rest. *)
Fixpoint splitNFrom (sep s cur : string) (skip n : nat) : list string :=
  match s with
  | EmptyString => [cur]
  | String c s' =>
      match skip with
      | S k => splitNFrom sep s' cur k n
      | O =>
          if (1 <? n)%nat && GoStrings.HasPrefix s sep
          then cur :: splitNFrom sep s' EmptyString (String.length sep - 1) (n - 1)
          else splitNFrom sep s' (cur +:+ String c EmptyString) 0 n
      end
  end.

Definition SplitN (s sep : string) (n : nat) : list string :=
  match n with
  | O => []
  | _ => splitNFrom sep s EmptyString 0 n
  end.

End GoText.

(** Messages made of ASCII bytes only. *)
Module Ascii7.

Definition isASCII (c : ascii) : bool := (nat_of_ascii c <? 128)%nat.

Fixpoint allASCII (s : string) : bool :=
  match s with
  | EmptyString => true
  | String c s' => isASCII c && allASCII s'
  end.

End Ascii7.

(** A word of a [go.mod] line: one or more visible ASCII bytes. *)
Module Token.

Definition graphic (c : ascii) : bool :=
  (33 <=? nat_of_ascii c)%nat && (nat_of_ascii c <=? 126)%nat.

Fixpoint allGraphic (s : string) : bool :=
  match s with
  | EmptyString => true
  | String c s' => graphic c && allGraphic s'
  end.

Definition word (s : string) : bool :=
  negb (String.eqb s EmptyString) && allGraphic s.

End Token.

(** The loops of [AnalyzeCommits] when the order of the map range is
    drawn anew each time the loop over [patterns] starts, that is once
    for each commit: [orderOf i] is the order in which [patterns] is
    visited for the commit at index [i]. *)
Module MapOrder.

Import GoRegexp Models Analyzer.

Fixpoint countCommitsFrom (orderOf : nat -> list (string * Regexp)) (i : nat)
    (commits : list CommitInfo) (counts : gmap string Z) : gmap string Z :=
  match commits with
  | [] => counts
  | commit :: rest =>
      countCommitsFrom orderOf (S i) rest
        (rangePatterns (orderOf i) (Message commit) counts)
  end.

Definition AnalyzeCommitsBy (orderOf : nat -> list (string * Regexp))
    (commits : list CommitInfo) : bool * string * string :=
  decide_ (countCommitsFrom orderOf 0 commits initialCounts).

(** Two orders, taken in turn. *)
Definition alternating (i : nat) : list (string * Regexp) :=
  if Nat.even i
  then [("break", breakRe); ("feature", featureRe); ("perf", perfRe); ("fix", fixRe)]
  else [("fix", fixRe); ("perf", perfRe); ("feature", featureRe); ("break", breakRe)].

End MapOrder.

(** The rules by which a module path names its repository:
    [Rule modulePath url] when the path is on one of the three known
    hosts, or is [gopkg.in/<pkg>.<version>], or is
    [gopkg.in/<user>/<pkg>.<rest>].  A path under no rule is on the
    best-guess path. *)
Module Locator.

Import GoText.

Inductive Rule : string -> string -> Prop :=
| KnownHost (host rest : string) :
    In host ["github.com/"; "gitlab.com/"; "bitbucket.org/"] ->
    Rule (host +:+ rest) ("https://" +:+ (host +:+ rest) +:+ ".git")
| GopkgPackage (pkg version : string) :
    hasByte "/" pkg = false -> hasByte "." pkg = false ->
    hasByte "/" version = false ->
    Rule ("gopkg.in/" +:+ pkg +:+ "." +:+ version)
         ("https://github.com/go-" +:+ pkg +:+ "/" +:+ pkg +:+ ".git")
| GopkgUser (user pkg rest : string) :
    hasByte "/" user = false ->
    hasByte "/" pkg = false -> hasByte "." pkg = false ->
    Rule ("gopkg.in/" +:+ user +:+ "/" +:+ pkg +:+ "." +:+ rest)
         ("https://github.com/" +:+ user +:+ "/" +:+ pkg +:+ ".git").

(** What the logger holds after the warning of the best guess. *)
Definition warned (modulePath : string) (output : list Utils.Line) : list Utils.Line :=
  app output
    [(Utils.WARN, "Unknown repository host for " +:+ modulePath +:+ ", using best guess")].

End Locator.

(** Clones on which an extraction returns no record: in [twice] the
    two versions are tags of one commit, in [hollow] the log from the
    head yields no commit. *)
Module NoRecords.

Definition twice : InMemory.Repo :=
  {| InMemory.objects := InMemory.chain 4;
     InMemory.refs :=
       [("refs/tags/v1.0.0", InMemory.name 4); ("refs/tags/v1.1.0", InMemory.name 4)];
     InMemory.HEAD := Some (InMemory.name 4) |}.

Definition hollow : InMemory.Repo :=
  {| InMemory.objects := []; InMemory.refs := [];
     InMemory.HEAD := Some (InMemory.name 1) |}.

End NoRecords.

(** Record sequences on which the classifier is run below. *)
Module Sample.

Import Models.

Definition record (msg : string) : CommitInfo :=
  {| Hash := "0"; Message := msg; Date := 0%Z |}.

Definition fixAndFeature : list CommitInfo :=
  [record "fix: null pointer"; record "feat: add cache"].

Definition breakingAndFix : list CommitInfo :=
  [record "BREAKING: remove legacy API"; record "fix: typo"].

Definition fixPerfFeature : list CommitInfo :=
  [record "fix: null pointer"; record "perf: faster lookup";
   record "feat: add cache"].

Definition removal : list CommitInfo :=
  [record "fix: typo"; record "docs: remove stale links"].

Definition chores : list CommitInfo :=
  [record "chore: bump version"; record "docs: typo in README"].

End Sample.

(* ===================================================================== *)
(** ** An in-memory backend with a file system and failures *)
(* ===================================================================== *)

(** A second instance of [git.Backend]: the repository of [InMemory]
    together with the temporary directories that exist and two switches
    that make [os.MkdirTemp] and [git.PlainClone] fail. *)
Module Disk.

Import GoError.

Record World : Type := MkWorld
  { repo : InMemory.Repo;
    dirs : list string;
    diskFull : bool;
    remoteDown : bool;
    clock : Models.Time }.

Definition backend : git.Backend :=
  {| git.World := World;
     git.Repository := unit;
     git.MkdirTemp := fun _ _ w =>
       if diskFull w then (Fail (errorString "no space left on device"), w)
       else (Ok "/tmp/dependency-1",
             MkWorld (repo w) ("/tmp/dependency-1" :: dirs w) (diskFull w)
               (remoteDown w) (clock w));
     git.RemoveAll := fun path w =>
       MkWorld (repo w) (List.filter (fun d => negb (String.eqb d path)) (dirs w))
         (diskFull w) (remoteDown w) (clock w);
     git.PlainClone := fun _ _ _ w =>
       if remoteDown w then (Fail (errorString "repository not found"), w)
       else (Ok tt, w);
     git.Fetch := fun _ _ w => (Some NoErrAlreadyUpToDate, w);
     git.ResolveRevision := fun r name w =>
       git.ResolveRevision (Backend := InMemory.backend) r name (repo w);
     git.CommitObject := fun r h w =>
       git.CommitObject (Backend := InMemory.backend) r h (repo w);
     git.Log := fun r o w => git.Log (Backend := InMemory.backend) r o (repo w);
     git.Head := fun r w => git.Head (Backend := InMemory.backend) r (repo w) |}.

Definition start (w : World) : GitOps.State (B := backend) :=
  GitOps.MkState (B := backend) w [].

Definition healthy : World :=
  {| repo := InMemory.tagged; dirs := []; diskFull := false; remoteDown := false;
     clock := 0%Z |}.

Definition offline : World :=
  {| repo := InMemory.tagged; dirs := []; diskFull := false; remoteDown := true;
     clock := 0%Z |}.

(** A clone whose head cannot be read. *)
Definition headless : InMemory.Repo :=
  {| InMemory.objects := InMemory.chain 2; InMemory.refs := [];
     InMemory.HEAD := None |}.

End Disk.

(* ===================================================================== *)
(** ** The operating system: commands, files, time *)
(* ===================================================================== *)

Module Host.

Import GoError.

(** What the package asks of the operating system besides go-git, on
    the same [git.World].  A command is [exec.Command(name, args...)]
    with [cmd.Dir] set to a directory ([""] when it is not set); running
    one can change the world.  A file is read through a
    [bufio.Scanner]: the lines that [Scan] yields, then [scanner.Err()].
    [Now] is [time.Now()]: reading the clock moves the world on, so two
    reads need not give the same instant.  [Parse] is [time.Parse]. *)
Class System `{B : git.Backend} : Type := MkSystem
  { Run : string -> list string -> git.World -> option error * git.World;
    Output : string -> list string -> git.World -> result string * git.World;
    CombinedOutput :
      string -> list string -> git.World -> (string * option error) * git.World;
    Open : string -> git.World -> result (list string * option error);
    Now : git.World -> Models.Time * git.World;
    Parse : string -> string -> result Models.Time }.

End Host.

(* ===================================================================== *)
(** ** [DependencyFetcher] *)
(* ===================================================================== *)

Module Fetcher.

Import GoError Models GitOps.

Record DependencyFetcher : Type := NewDependencyFetcher
  { projectPath : string;
    logger : Utils.Logger }.

(** [parseDependencyLine]; [directDeps] is a [map[string]bool]. *)
Definition parseDependencyLine (line : string) (directDeps : gmap string bool)
    : gmap string bool :=
  let parts := GoText.Fields line in
  if (2 <=? length parts)%nat then
    let depName := nth 0 parts "" in
    let depName :=
      if GoStrings.HasPrefix line "require " then nth 1 parts "" else depName in
    if negb (GoStrings.Contains line "// indirect")
    then <[depName := true]> directDeps
    else directDeps
  else directDeps.

(** [processGoModLine]: the map and [*inRequireBlock] after the line. *)
Definition processGoModLine (line : string) (directDeps : gmap string bool)
    (inRequireBlock : bool) : gmap string bool * bool :=
  if String.eqb line "" || GoStrings.HasPrefix line "//" then
    (directDeps, inRequireBlock)
  else if GoStrings.HasPrefix line "require (" then (directDeps, true)
  else if inRequireBlock && String.eqb line ")" then (directDeps, false)
  else if GoStrings.HasPrefix line "require " && negb (GoText.HasSuffix line "(") then
    (parseDependencyLine line directDeps, inRequireBlock)
  else if inRequireBlock then (parseDependencyLine line directDeps, inRequireBlock)
  else (directDeps, inRequireBlock).

(** The loop of [getDirectDependencies] over the lines of the file. *)
Definition scanLines (lines : list string) : gmap string bool * bool :=
  fold_left
    (fun '(directDeps, inRequireBlock) text =>
       processGoModLine (GoText.TrimSpace text) directDeps inRequireBlock)
    lines (∅, false).

Section WithSystem.

Context `{S : Host.System}.

(** [openGoModFile] and [getDirectDependencies]. *)
Definition getDirectDependencies (df : DependencyFetcher)
    : M (result (gmap string bool)) :=
  bind (read (Host.Open (projectPath df +:+ "/go.mod"))) (fun file =>
  match file with
  | Fail err => ret (Fail (Errorf_w "failed to open go.mod: " err))
  | Ok (lines, scanErr) =>
      let directDeps := fst (scanLines lines) in
      match scanErr with
      | Some err => ret (Fail (Errorf_w "error reading go.mod: " err))
      | None => ret (Ok directDeps)
      end
  end).

(** [GetLatestVersion]: the dependency as the call leaves it, and the
    error. *)
Definition GetLatestVersion (df : DependencyFetcher) (dep : Dependency)
    : M (Dependency * option error) :=
  bind (act (Host.Output (projectPath df) ["go"; "list"; "-m"; "-versions"; Name dep]))
    (fun r =>
  match r with
  | Fail err =>
      ret (dep, Some (Errorf_w ("failed to get versions for " +:+ Name dep +:+ ": ") err))
  | Ok output =>
      let versionLine := GoText.TrimSpace output in
      let parts := GoText.Fields versionLine in
      if (length parts <? 2)%nat then
        ret (dep, Some (Errorf ("no versions found for " +:+ Name dep)))
      else
        let versions := skipn 1 parts in
        if (0 <? length versions)%nat then
          let latest := nth (length versions - 1) versions "" in
          ret ({| Name := Name dep;
                  CurrentVersion := CurrentVersion dep;
                  LatestVersion := latest;
                  UpdateNeeded := negb (String.eqb (CurrentVersion dep) latest) |},
               None)
        else ret (dep, None)
  end).

End WithSystem.

End Fetcher.

(* ===================================================================== *)
(** ** [GitOperations], driving the git command line *)
(* ===================================================================== *)

Module GitCli.

Import GoError Models GitOps.

Definition RFC3339 : string := "2006-01-02T15:04:05Z07:00".
Definition RFC1123Z : string := "Mon, 02 Jan 2006 15:04:05 -0700".

Section WithSystem.

Context `{S : Host.System}.

Notation "x <- m ;; k" := (bind m (fun x => k))
  (at level 100, m at next level, right associativity).
Notation "m ;; k" := (bind m (fun _ => k))
  (at level 100, right associativity).

(** [cloneRepository]. *)
Definition cloneRepository (g : GitOperations) (repoURL destDir : string)
    : M (option error) :=
  err <- act (Host.Run ""
                ["git"; "clone"; "--depth=1"; "--no-tags"; "--filter=blob:none";
                 "--single-branch"; repoURL; destDir]) ;;
  match err with
  | Some e =>
      ret (Some (Errorf_w ("failed to clone repository " +:+ repoURL +:+ ": ") e))
  | None => ret None
  end.

(** The loop of [fetchSpecificTags] over [versionRefs]: fetch each
    reference that occurs in the list of remote tags. *)
Fixpoint fetchMatching (repoDir tagsStr : string) (refs : list string)
    (foundMatches : bool) : M bool :=
  match refs with
  | [] => ret foundMatches
  | ref :: rest =>
      if GoStrings.Contains tagsStr ref then
        act (Host.Run repoDir ["git"; "fetch"; "--depth=1"; "origin"; "tag"; ref]) ;;
        fetchMatching repoDir tagsStr rest true
      else fetchMatching repoDir tagsStr rest foundMatches
  end.

(** [fetchSpecificTags]. *)
Definition fetchSpecificTags (g : GitOperations) (repoDir : string)
    (dep : Dependency) : M unit :=
  let versionRefs :=
    [ "v" +:+ CurrentVersion dep; CurrentVersion dep;
      "v" +:+ LatestVersion dep; LatestVersion dep ] in
  tags <- act (Host.Output repoDir ["git"; "ls-remote"; "--tags"; "origin"]) ;;
  match tags with
  | Fail _ =>
      act (Host.Run repoDir ["git"; "fetch"; "--depth=100"; "origin"]) ;;
      ret tt
  | Ok tagsStr =>
      foundMatches <- fetchMatching repoDir tagsStr versionRefs false ;;
      if negb foundMatches then
        act (Host.Run repoDir ["git"; "fetch"; "--depth=100"; "origin"]) ;;
        ret tt
      else ret tt
  end.

(** [fetchTags]. *)
Definition fetchTags (g : GitOperations) (repoDir : string) (dep : Dependency)
    : M unit :=
  err <- act (Host.Run repoDir ["git"; "fetch"; "--tags"; "--quiet"; "origin"]) ;;
  match err with
  | Some _ => fetchSpecificTags g repoDir dep
  | None => ret tt
  end.

(** [runGitLog] and [getAllCommits]. *)
Definition runGitLog (g : GitOperations) (repoDir fromVersion toVersion : string)
    : M (result string) :=
  act (Host.Output repoDir
         ["git"; "log"; "--pretty=format:%H|%s|%aI|%aN|%b";
          fromVersion +:+ ".." +:+ toVersion]).

Definition getAllCommits (g : GitOperations) (repoDir : string) : M (result string) :=
  act (Host.Output repoDir
         ["git"; "log"; "--pretty=format:%H|%s|%aI|%aN|%b"; "-n"; "300"]).

(** [parseCommitDate]: the first of the four layouts that parses. *)
Definition parseCommitDate (g : GitOperations) (dateStr : string) : result Time :=
  match Host.Parse RFC3339 dateStr with
  | Ok date => Ok date
  | Fail _ =>
      match
        find (fun format => match Host.Parse format dateStr with
                            | Ok _ => true
                            | Fail _ => false
                            end)
          ["2006-01-02 15:04:05 -0700"; "Mon Jan 2 15:04:05 2006 -0700"; RFC1123Z]
      with
      | Some format => Host.Parse format dateStr
      | None => Fail (Errorf ("could not parse date: " +:+ dateStr))
      end
  end.

(** The loop of [parseCommitLog] over the lines of the output. *)
Fixpoint parseLines (g : GitOperations) (lines : list string)
    (commits : list CommitInfo) (processedCommits : Z) : M (list CommitInfo) :=
  match lines with
  | [] => ret commits
  | line :: rest =>
      if String.eqb line "" then parseLines g rest commits processedCommits
      else if (processedCommits >=? 200)%Z then
        say (Utils.Info (GitOps.logger g) "Reached maximum commit limit (200)") ;;
        ret commits
      else
        let processedCommits := GoFmt.incr processedCommits in
        let parts := GoText.SplitN line "|" 5 in
        if (length parts <? 4)%nat then parseLines g rest commits processedCommits
        else
          let hash := nth 0 parts "" in
          let message := nth 1 parts "" in
          let dateStr := nth 2 parts "" in
          let fullMessage :=
            if (5 <=? length parts)%nat && negb (String.eqb (nth 4 parts "") "")
            then message +:+ String "010" (String "010" (nth 4 parts ""))
            else message in
          date <- match parseCommitDate g dateStr with
                  | Ok date => ret date
                  | Fail _ => act Host.Now
                  end ;;
          parseLines g rest
            (app commits [{| Hash := hash; Message := fullMessage; Date := date |}])
            processedCommits
  end.

(** [parseCommitLog]. *)
Definition parseCommitLog (g : GitOperations) (output : string) : M (list CommitInfo) :=
  parseLines g (GoStrings.Split output (String "010" "")) [] 0%Z.

(** The loop of [getCommitLog] over [versionFormats]: the records of
    the first range whose log succeeds and prints something. *)
Fixpoint firstRange (g : GitOperations) (repoDir : string) (dep : Dependency)
    (versionFormats : list (string * string)) : M (option (list CommitInfo)) :=
  match versionFormats with
  | [] => ret None
  | (current, latest) :: rest =>
      r <- runGitLog g repoDir current latest ;;
      match r with
      | Ok output =>
          if (0 <? String.length output)%nat then
            say (Utils.Info (GitOps.logger g)
                   ("Found commits between " +:+ CurrentVersion dep +:+ " and "
                      +:+ LatestVersion dep +:+ " using format " +:+ current
                      +:+ ".." +:+ latest)) ;;
            commits <- parseCommitLog g output ;;
            ret (Some commits)
          else firstRange g repoDir dep rest
      | Fail _ => firstRange g repoDir dep rest
      end
  end.

(** [getCommitLog]. *)
Definition getCommitLog (g : GitOperations) (repoDir : string) (dep : Dependency)
    : M (result (list CommitInfo)) :=
  let versionFormats :=
    [ ("v" +:+ CurrentVersion dep, "v" +:+ LatestVersion dep);
      (CurrentVersion dep, LatestVersion dep);
      ("refs/tags/v" +:+ CurrentVersion dep, "refs/tags/v" +:+ LatestVersion dep);
      ("refs/tags/" +:+ CurrentVersion dep, "refs/tags/" +:+ LatestVersion dep);
      (CurrentVersion dep +:+ "^{}", LatestVersion dep +:+ "^{}");
      ("v" +:+ CurrentVersion dep +:+ "^{}", "v" +:+ LatestVersion dep +:+ "^{}") ] in
  found <- firstRange g repoDir dep versionFormats ;;
  match found with
  | Some commits => ret (Ok commits)
  | None =>
      r <- getAllCommits g repoDir ;;
      match r with
      | Fail err => ret (Fail (Errorf_w "failed to get commit history: " err))
      | Ok output =>
          if (String.length output =? 0)%nat then
            say (Utils.Info (GitOps.logger g)
                   ("No commits found between " +:+ Name dep +:+ " "
                      +:+ CurrentVersion dep +:+ " and " +:+ LatestVersion dep)) ;;
            ret (Ok [])
          else
            commits <- parseCommitLog g output ;;
            ret (Ok commits)
      end
  end.

(** [GetCommitsBetweenVersions]. *)
Definition GetCommitsBetweenVersions (g : GitOperations) (dep : Dependency)
    : M (result (list CommitInfo)) :=
  if String.eqb (CurrentVersion dep) (LatestVersion dep) then ret (Ok [])
  else
    t <- act (git.MkdirTemp "" "dependency-*") ;;
    match t with
    | Fail err => ret (Fail (Errorf_w "failed to create temp directory: " err))
    | Ok tempDir =>
        res <-
          (repoURL <- determineRepositoryURL g (Name dep) ;;
           err <- cloneRepository g repoURL tempDir ;;
           match err with
           | Some e => ret (Fail e)
           | None =>
               fetchTags g tempDir dep ;;
               r <- getCommitLog g tempDir dep ;;
               match r with
               | Fail err => ret (Fail err)
               | Ok commits =>
                   say (Utils.Info (GitOps.logger g)
                          ("Found " +:+ GoFmt.Sprintf_d (Z.of_nat (length commits))
                             +:+ " commits between versions for " +:+ Name dep)) ;;
                   ret (Ok commits)
               end
           end) ;;
        act_ (git.RemoveAll tempDir) ;;
        ret res
    end.

End WithSystem.

End GitCli.

(* ===================================================================== *)
(** ** [DependencyUpdater] *)
(* ===================================================================== *)

Module Updater.

Import GoError Models GitOps.

Record DependencyUpdater : Type := MkDependencyUpdater
  { projectPath : string;
    fetcher : Fetcher.DependencyFetcher;
    gitOps : GitOperations;
    logger : Utils.Logger }.

(** [NewDependencyUpdater]; the analyzer has no state of its own but
    the logger. *)
Definition NewDependencyUpdater (projectPath : string) (logger : Utils.Logger)
    : DependencyUpdater :=
  {| projectPath := projectPath;
     fetcher := Fetcher.NewDependencyFetcher projectPath logger;
     gitOps := NewGitOperations logger;
     logger := logger |}.

Section WithSystem.

Context `{S : Host.System}.

(** The method [GetCommitsBetweenVersions]: [git.go] comes in two
    versions, [GitOps.GetCommitsBetweenVersions] over go-git and
    [GitCli.GetCommitsBetweenVersions] over the git command line; the
    updater calls the one the package is built with. *)
Variable GetCommitsBetweenVersions :
  GitOperations -> Dependency -> M (result (list CommitInfo)).

(** [AnalyzeDependency]: the dependency as the call leaves it (it is
    passed by pointer and [GetLatestVersion] writes to it), and the
    analysis or the error. *)
Definition AnalyzeDependency (du : DependencyUpdater) (dep : Dependency)
    : M (Dependency * result UpdateAnalysis) :=
  bind (Fetcher.GetLatestVersion (fetcher du) dep) (fun '(dep, err) =>
  match err with
  | Some e => ret (dep, Fail (Errorf_w "failed to get latest version: " e))
  | None =>
      if negb (UpdateNeeded dep) then
        bind (say (Utils.Info (logger du)
                     ("No update needed for " +:+ Name dep +:+ " (already at "
                        +:+ CurrentVersion dep +:+ ")")))
          (fun _ =>
             ret (dep, Ok {| Dependency_ := dep;
                             Commits := [];
                             ShouldUpdate := false;
                             UpdateReason := "";
                             RejectionReason := "" |}))
      else
        bind (GetCommitsBetweenVersions (gitOps du) dep) (fun r =>
        match r with
        | Fail e => ret (dep, Fail (Errorf_w "failed to get commits: " e))
        | Ok commits => ret (dep, Ok (Analyzer.AnalyzeUpdate dep commits))
        end)
  end).

End WithSystem.

End Updater.

(* ===================================================================== *)
(** ** [cmd/gupdeps/main.go]: the analysis of all dependencies *)
(* ===================================================================== *)

Module MainPkg.

Import GoError Models.

(** What the program shows: the lines of the loggers and the lines
    that [logger.Print] writes without a prefix. *)
Inductive Shown : Type :=
| Logged (line : Utils.Line)
| Printed (text : string).

Section WithSystem.

Context `{S : Host.System}.

Record Session : Type := MkSession
  { world : git.World;
    shown : list Shown }.

(** The version of [GetCommitsBetweenVersions] that the package is
    built with. *)
Variable GetCommitsBetweenVersions :
  GitOps.GitOperations -> Dependency -> GitOps.M (result (list CommitInfo)).

Definition P (A : Type) : Type := Session -> A * Session.

Definition ret {A} (a : A) : P A := fun s => (a, s).
Definition bind {A C} (m : P A) (k : A -> P C) : P C :=
  fun s => let (a, s') := m s in k a s'.

(** Run a method of the package: what it logs comes after what was
    shown before. *)
Definition call {A} (m : GitOps.M A) : P A :=
  fun s =>
    let (a, st) := m (GitOps.MkState (world s) []) in
    (a, MkSession (GitOps.world st) (app (shown s) (map Logged (GitOps.output st)))).

(** [logger.Print(format, v...)], one line. *)
Definition Print (text : string) : P unit :=
  fun s => (tt, MkSession (world s) (app (shown s) [Printed text])).

Notation "x <- m ;; k" := (bind m (fun x => k))
  (at level 100, m at next level, right associativity).
Notation "m ;; k" := (bind m (fun _ => k))
  (at level 100, right associativity).

(** The loop of [analyzeDependencies]; [approvedUpdates] and
    [rejectedUpdates] are the two slices being built.  [deps] holds
    pointers; they are taken to be distinct, as [GetDependencies] makes
    them, so that a dependency is written to in its own iteration only
    and an analysis can hold it by value. *)
Fixpoint analyzeEach (updater : Updater.DependencyUpdater) (logger : Utils.Logger)
    (deps : list Dependency) (approvedUpdates rejectedUpdates : list UpdateAnalysis)
    : P (list UpdateAnalysis * list UpdateAnalysis) :=
  match deps with
  | [] => ret (approvedUpdates, rejectedUpdates)
  | dep :: rest =>
      Print ("🔍 Analyzing " +:+ Name dep +:+ " (" +:+ CurrentVersion dep +:+ ")...") ;;
      r <- call (Updater.AnalyzeDependency GetCommitsBetweenVersions updater dep) ;;
      let '(dep, outcome) := r in
      match outcome with
      | Fail err =>
          call (GitOps.say (Utils.Warn logger
                              ("Could not analyze " +:+ Name dep +:+ ": "
                                 +:+ Error err))) ;;
          analyzeEach updater logger rest approvedUpdates rejectedUpdates
      | Ok analysis =>
          if negb (UpdateNeeded dep) then
            analyzeEach updater logger rest approvedUpdates rejectedUpdates
          else
            Print ("  Current: " +:+ CurrentVersion dep +:+ " → Latest: "
                     +:+ LatestVersion dep) ;;
            if ShouldUpdate analysis then
              Print ("  ✅ Approved: " +:+ UpdateReason analysis) ;;
              analyzeEach updater logger rest (app approvedUpdates [analysis])
                rejectedUpdates
            else
              Print ("  ❌ Rejected: " +:+ RejectionReason analysis) ;;
              analyzeEach updater logger rest approvedUpdates
                (app rejectedUpdates [analysis])
      end
  end.

(** [analyzeDependencies]: the approved list, the rejected list and
    the error. *)
Definition analyzeDependencies (updater : Updater.DependencyUpdater)
    (logger : Utils.Logger) (deps : list Dependency)
    : P (list UpdateAnalysis * list UpdateAnalysis * option error) :=
  Print "📡 Checking for updates..." ;;
  lists <- analyzeEach updater logger deps [] [] ;;
  ret (fst lists, snd lists, None).

End WithSystem.

End MainPkg.

(* ===================================================================== *)
(** ** A scripted operating system *)
(* ===================================================================== *)

(** An instance of [Host.System] over the backend [Disk]: a command
    prints what [commands] says for its arguments and leaves the world
    alone, a file holds the lines that [files] says, the clock of the
    world ticks once at every reading and only a date of digits parses,
    as its number of digits. *)
Module Scripted.

Import GoError.

Fixpoint allDigits (s : string) : bool :=
  match s with
  | EmptyString => true
  | String c s' =>
      (48 <=? nat_of_ascii c)%nat && (nat_of_ascii c <=? 57)%nat && allDigits s'
  end.

(** Reading the clock of the world moves it on by one tick. *)
Definition tick (w : Disk.World) : Models.Time * Disk.World :=
  (Disk.clock w,
   Disk.MkWorld (Disk.repo w) (Disk.dirs w) (Disk.diskFull w) (Disk.remoteDown w)
     (Disk.clock w + 1)%Z).

Definition system (commands : list string -> result string)
    (files : string -> result (list string * option error))
    : Host.System (B := Disk.backend) :=
  @Host.MkSystem Disk.backend
    (fun _ args w => (errOf (commands args), w))
    (fun _ args w => (commands args, w))
    (fun _ args w =>
       (match commands args with
        | Ok out => (out, None)
        | Fail e => ("", Some e)
        end, w))
    (fun path _ => files path)
    tick
    (fun layout value =>
       if String.eqb layout GitCli.RFC3339 && allDigits value
          && negb (String.eqb value "")
       then Ok (Z.of_nat (String.length value))
       else Fail (errorString "cannot parse")).

(** The go tool knows the versions of two modules. *)
Definition goList (args : list string) : result string :=
  match args with
  | ["go"; "list"; "-m"; "-versions"; "example.com/lib"] =>
      Ok ("example.com/lib v1.0.0 v1.0.1 v1.1.0" +:+ String "010" "")
  | ["go"; "list"; "-m"; "-versions"; "example.com/same"] =>
      Ok ("example.com/same v1.0.0 v1.1.0" +:+ String "010" "")
  | ["go"; "list"; "-m"; "-versions"; "example.com/new"] =>
      Ok ("example.com/new" +:+ String "010" "")
  | _ => Fail (errorString "exit status 1")
  end.

Definition noFiles (path : string) : result (list string * option error) :=
  Fail (errorString "no such file or directory").

Definition updater : Updater.DependencyUpdater :=
  Updater.NewDependencyUpdater "." (Utils.NewLogger false).

Definition lib : Models.Dependency := InMemory.dep.

Definition same : Models.Dependency :=
  {| Models.Name := "example.com/same";
     Models.CurrentVersion := "v1.1.0";
     Models.LatestVersion := "";
     Models.UpdateNeeded := false |}.

Definition gone : Models.Dependency :=
  {| Models.Name := "example.com/gone";
     Models.CurrentVersion := "0.1.0";
     Models.LatestVersion := "";
     Models.UpdateNeeded := false |}.

End Scripted.

(** A commit as [git log --pretty=format:%H|%s|%aI|%aN|%b] prints it on
    one line, and the record that is expected back. *)
Module LogLine.

Record Entry : Type := MkEntry
  { hash : string;
    subject : string;
    date : string;
    author : string;
    body : string }.

Definition render (e : Entry) : string :=
  hash e +:+ "|" +:+ subject e +:+ "|" +:+ date e +:+ "|" +:+ author e +:+ "|"
    +:+ body e.

Definition plain (field : string) : bool :=
  negb (GoText.hasByte "|" field) && negb (GoText.hasByte "010" field).

Definition wellFormed (e : Entry) : bool :=
  plain (hash e) && plain (subject e) && plain (date e) && plain (author e)
  && negb (GoText.hasByte "010" (body e)).

(** The message of the record for an entry: the subject, followed by
    an empty line and the body when there is one. *)
Definition message (e : Entry) : string :=
  if String.eqb (body e) "" then subject e
  else subject e +:+ String "010" (String "010" (body e)).

(** The records for the entries, and the world afterwards: the date
    of an entry is its date parsed; for each date that does not parse,
    in the order of the entries, the clock is read once. *)
Fixpoint records `{S : Host.System} (g : GitOps.GitOperations) (es : list Entry)
    (w : git.World) : list Models.CommitInfo * git.World :=
  match es with
  | [] => ([], w)
  | e :: rest =>
      let (t, w1) :=
        match GitCli.parseCommitDate g (date e) with
        | GoError.Ok t => (t, w)
        | GoError.Fail _ => Host.Now w
        end in
      let (rs, w2) := records g rest w1 in
      ({| Models.Hash := hash e; Models.Message := message e; Models.Date := t |} :: rs,
       w2)
  end.

End LogLine.

(** A scripted git: the clone and the fetch of tags succeed, the log
    of [v1.0.0..v1.1.0] prints three commits, the second and the third
    with dates that do not parse, the second with a body. *)
Module Transcript.

Import GoError.

Definition entries : list LogLine.Entry :=
  [ LogLine.MkEntry "a1b2c3" "fix: close the file" "20240102" "Ann" "";
    LogLine.MkEntry "d4e5f6" "feat: add retry" "last week" "Bob" "Retries three times.";
    LogLine.MkEntry "0a1b2c" "docs: say more" "yesterday" "Cy" "" ].

Definition git (args : list string) : result string :=
  match args with
  | "git" :: "clone" :: _ => Ok ""
  | ["git"; "fetch"; "--tags"; "--quiet"; "origin"] => Ok ""
  | ["git"; "log"; _; "v1.0.0..v1.1.0"] =>
      Ok (GoStrings.Join (map LogLine.render entries) (String "010" ""))
  | _ => Scripted.goList args
  end.

(** The module of the log above, at its first version. *)
Definition lib : Models.Dependency :=
  {| Models.Name := "example.com/lib";
     Models.CurrentVersion := "v1.0.0";
     Models.LatestVersion := "";
     Models.UpdateNeeded := false |}.

Definition goMod : list string :=
  [ "module example.com/app";
    "";
    "go 1.22";
    "// the dependencies";
    "require (";
    String "009" "example.com/lib v1.0.0";
    String "009" "example.com/dep v0.1.0 // indirect";
    ")";
    "require example.com/same v1.1.0" ].

Definition files (path : string) : result (list string * option error) :=
  if String.eqb path "./go.mod" then Ok (goMod, None)
  else Scripted.noFiles path.

Definition system : Host.System (B := Disk.backend) :=
  Scripted.system git files.

End Transcript.

(* ===================================================================== *)
(** ** The classifier: counting *)
(* ===================================================================== *)

Section Counting.

Import GoRegexp Models Analyzer.
Local Open Scope Z_scope.

Lemma wrap_small z : GoFmt.minInt <= z <= GoFmt.maxInt -> GoFmt.wrap z = z.
Proof.
  unfold GoFmt.wrap, GoFmt.minInt, GoFmt.maxInt. intros Hz.
  rewrite Z.mod_small; lia.
Qed.

Lemma incr_small z : 0 <= z < GoFmt.maxInt -> GoFmt.incr z = z + 1.
Proof.
  intros Hz. unfold GoFmt.incr. apply wrap_small.
  unfold GoFmt.minInt, GoFmt.maxInt in *. lia.
Qed.

Lemma get_tally_other msg counts entry category :
  category ≠ entry.1 -> get (tally msg counts entry) category = get counts category.
Proof.
  intros Hne. unfold tally, get.
  destruct (MatchString entry.2 msg); [|done].
  by rewrite lookup_insert_ne.
Qed.

Lemma get_tally_same msg counts category re :
  get (tally msg counts (category, re)) category =
  if MatchString re msg then GoFmt.incr (get counts category) else get counts category.
Proof.
  unfold tally, get; simpl.
  destruct (MatchString re msg); [|done].
  by rewrite lookup_insert_eq.
Qed.

Lemma get_rangePatterns_absent order msg counts category :
  category ∉ order.*1 ->
  get (rangePatterns order msg counts) category = get counts category.
Proof.
  unfold rangePatterns. revert counts.
  induction order as [|entry order IH]; intros counts Hnotin; [done|].
  simpl in *. apply not_elem_of_cons in Hnotin as [Hne Hnotin].
  rewrite IH by done. by apply get_tally_other.
Qed.

(** One pass over [patterns] moves the tally of [category] by at most
    one, whatever the visiting order. *)
Lemma get_rangePatterns order msg counts category re :
  NoDup order.*1 -> (category, re) ∈ order ->
  get (rangePatterns order msg counts) category =
  if MatchString re msg then GoFmt.incr (get counts category) else get counts category.
Proof.
  unfold rangePatterns. revert counts.
  induction order as [|entry order IH]; intros counts Hnd Hin.
  - by apply elem_of_nil in Hin.
  - simpl in *. apply NoDup_cons in Hnd as [Hfresh Hnd].
    apply elem_of_cons in Hin as [<-|Hin].
    + fold (rangePatterns order msg (tally msg counts (category, re))).
      rewrite get_rangePatterns_absent by done.
      apply get_tally_same.
    + rewrite IH by done.
      assert (category ≠ entry.1) as Hne.
      { intros ->. apply Hfresh. apply list_elem_of_fmap. by exists (entry.1, re). }
      by rewrite get_tally_other.
Qed.

Lemma matching_cons re c commits :
  matching re (c :: commits) =
  (if MatchString re (Message c) then 1 else 0) + matching re commits.
Proof.
  unfold matching. simpl. destruct (MatchString re (Message c)); simpl length; lia.
Qed.

Lemma matching_bounds re commits :
  0 <= matching re commits <= Z.of_nat (length commits).
Proof.
  induction commits as [|c commits IH]; [unfold matching; simpl; lia|].
  rewrite matching_cons. simpl length. destruct (MatchString re (Message c)); lia.
Qed.

(** The loop over the commits leaves in [counts[category]] the number
    of matching messages, as long as that number is an [int]. *)
Lemma get_countCommits order commits counts category re :
  NoDup order.*1 -> (category, re) ∈ order ->
  0 <= get counts category ->
  get counts category + Z.of_nat (length commits) <= GoFmt.maxInt ->
  get (countCommits order commits counts) category =
  get counts category + matching re commits.
Proof.
  intros Hnd Hin. unfold countCommits. revert counts.
  induction commits as [|c commits IH]; intros counts Hpos Hfit.
  - unfold matching; simpl; lia.
  - simpl fold_left. simpl length in Hfit.
    assert (Hstep := get_rangePatterns order (Message c) counts category re Hnd Hin).
    pose proof (matching_bounds re commits) as Hb.
    rewrite matching_cons.
    rewrite IH; rewrite Hstep;
      destruct (MatchString re (Message c));
      rewrite ?incr_small by lia; lia.
Qed.

Lemma matching_pos re commits :
  (exists c, In c commits /\ MatchString re (Message c) = true) <->
  0 < matching re commits.
Proof.
  induction commits as [|c commits IH].
  - split; [intros (c & [] & _)|unfold matching; simpl; lia].
  - rewrite matching_cons. pose proof (matching_bounds re commits) as Hb.
    split.
    + intros (c' & [->|Hin] & Hm); [rewrite Hm; lia|].
      assert (0 < matching re commits) by (apply IH; eauto).
      destruct (MatchString re (Message c)); lia.
    + destruct (MatchString re (Message c)) eqn:Hm; intros Hpos.
      * exists c. split; [by left|done].
      * destruct IH as [_ IH]. destruct IH as (c' & Hin & Hm'); [lia|].
        exists c'. split; [by right|done].
Qed.

Lemma matching_zero re commits :
  (forall c, In c commits -> MatchString re (Message c) = false) <->
  matching re commits = 0.
Proof.
  pose proof (matching_bounds re commits) as Hb.
  pose proof (matching_pos re commits) as Hp.
  split.
  - intros Hnone. destruct (Z.eq_dec (matching re commits) 0) as [|Hne]; [done|].
    destruct Hp as [_ Hp]. destruct Hp as (c & Hin & Hm); [lia|].
    rewrite Hnone in Hm by done. discriminate.
  - intros Hz c Hin. destruct (MatchString re (Message c)) eqn:Hm; [|done].
    assert (0 < matching re commits) by (apply Hp; eauto). lia.
Qed.

Lemma countCommits_tallied order commits :
  order ≡ₚ map_to_list patterns -> sliceLen commits ->
  Tallied (countCommits order commits initialCounts) commits.
Proof.
  intros Hperm Hlen. unfold sliceLen in Hlen.
  assert (NoDup order.*1) as Hnd.
  { rewrite Hperm. apply NoDup_fst_map_to_list. }
  assert (forall category re, patterns !! category = Some re ->
                         (category, re) ∈ order) as Hin.
  { intros category re Hl. rewrite Hperm. by apply elem_of_map_to_list. }
  split.
  - rewrite (get_countCommits order commits _ "fix" fixRe); try done.
    by apply Hin.
  - rewrite (get_countCommits order commits _ "perf" perfRe); try done.
    by apply Hin.
  - rewrite (get_countCommits order commits _ "break" breakRe); try done.
    by apply Hin.
  - rewrite (get_countCommits order commits _ "feature" featureRe); try done.
    by apply Hin.
Qed.

(** Go may visit [patterns] in any order: the verdict is the same. *)
Lemma AnalyzeCommitsIn_any_order order commits :
  order ≡ₚ map_to_list patterns -> sliceLen commits ->
  AnalyzeCommitsIn order commits = AnalyzeCommits commits.
Proof.
  intros Hperm Hlen.
  destruct (countCommits_tallied order commits Hperm Hlen) as [Hf Hp Hb Hn].
  destruct (countCommits_tallied (map_to_list patterns) commits
              (reflexivity _) Hlen) as [Hf' Hp' Hb' Hn'].
  unfold AnalyzeCommits, AnalyzeCommitsIn, decide_, formatApprovalReason.
  by rewrite Hf, Hp, Hb, Hn, Hf', Hp', Hb', Hn'.
Qed.

End Counting.

(* ===================================================================== *)
(** ** The classifier: case folding *)
(* ===================================================================== *)

Section Folding.

Import GoRegexp Keyword.

Lemma ascii_eq_by_code (a b : ascii) : nat_of_ascii a = nat_of_ascii b -> a = b.
Proof.
  intros H. rewrite <- (ascii_nat_embedding a), <- (ascii_nat_embedding b).
  by rewrite H.
Qed.

Lemma code_toLower c :
  nat_of_ascii (toLower c) =
  if isUpper c then (nat_of_ascii c + 32)%nat else nat_of_ascii c.
Proof.
  unfold toLower. destruct (isUpper c) eqn:Hu; [|done].
  apply nat_ascii_embedding.
  unfold isUpper in Hu. apply andb_prop in Hu as [_ Hu].
  apply Nat.leb_le in Hu. lia.
Qed.

Lemma code_toUpper c :
  nat_of_ascii (toUpper c) =
  if isLower c then (nat_of_ascii c - 32)%nat else nat_of_ascii c.
Proof.
  unfold toUpper. destruct (isLower c) eqn:Hl; [|done].
  apply nat_ascii_embedding.
  pose proof (nat_ascii_bounded c). lia.
Qed.

(** A byte that folds to the same letter as the pattern byte [c] is in
    the set that [c] accepts under [(?i)]. *)
Lemma accepted_fold m c :
  toLower m = toLower c -> In (single m) (accepted true c).
Proof.
  intros Heq. apply (f_equal nat_of_ascii) in Heq.
  rewrite !code_toLower in Heq.
  assert (m = toLower c \/ m = toUpper c \/
          (isLower c || isUpper c = false /\ m = c)) as Hcases.
  { pose proof (code_toLower c) as HL. pose proof (code_toUpper c) as HU.
    unfold isUpper, isLower in *.
    destruct (Nat.leb_spec 65 (nat_of_ascii m)), (Nat.leb_spec (nat_of_ascii m) 90),
      (Nat.leb_spec 65 (nat_of_ascii c)), (Nat.leb_spec (nat_of_ascii c) 90),
      (Nat.leb_spec 97 (nat_of_ascii c)), (Nat.leb_spec (nat_of_ascii c) 122);
      simpl in *;
      first [ left; apply ascii_eq_by_code; lia
            | right; left; apply ascii_eq_by_code; lia
            | right; right; split; [reflexivity | apply ascii_eq_by_code; lia]
            | lia ]. }
  unfold accepted. simpl andb.
  destruct Hcases as [->|[->|[Hnot ->]]].
  - destruct (isLower c || isUpper c) eqn:Hletter.
    + by left.
    + left. unfold toLower. apply orb_false_elim in Hletter as [_ ->]. done.
  - destruct (isLower c || isUpper c) eqn:Hletter.
    + right. by left.
    + left. unfold toUpper. apply orb_false_elim in Hletter as [-> _]. done.
  - rewrite Hnot. by left.
Qed.

Lemma stripPrefix_single m rest :
  GoStrings.stripPrefix (single m) (String m rest) = Some rest.
Proof. simpl. by rewrite Ascii.eqb_refl. Qed.

Lemma matchHere_folded kw : forall mid after,
  lowerString mid = lowerString kw -> matchHere true kw (mid +:+ after) = true.
Proof.
  induction kw as [|c kw IH]; intros mid after Heq; [done|].
  destruct mid as [|m mid]; [discriminate|].
  simpl in Heq. injection Heq as Hc Hrest.
  cbn [matchHere]. apply existsb_exists. exists (single m). split.
  - by apply accepted_fold.
  - cbv beta. change (String m mid +:+ after) with (String m (mid +:+ after)).
    rewrite stripPrefix_single. by apply IH.
Qed.

Lemma matchAnywhere_folded kw before mid after :
  lowerString mid = lowerString kw ->
  matchAnywhere true kw (before +:+ mid +:+ after) = true.
Proof.
  intros Heq. induction before as [|b before IH].
  - change (EmptyString +:+ mid +:+ after) with (mid +:+ after).
    destruct (mid +:+ after) eqn:Hs; cbn [matchAnywhere];
      rewrite <- Hs, matchHere_folded by done; done.
  - change (String b before +:+ mid +:+ after)
      with (String b (before +:+ mid +:+ after)).
    cbn [matchAnywhere]. rewrite IH. apply orb_true_r.
Qed.

Lemma MatchString_folded re kw msg :
  foldCase re = true -> In kw (alternatives re) -> occursFoldedIn kw msg ->
  MatchString re msg = true.
Proof.
  intros Hfold Hin (before & mid & after & -> & Heq).
  unfold MatchString. apply existsb_exists. exists kw. split; [done|].
  rewrite Hfold. by apply matchAnywhere_folded.
Qed.

Lemma occursIn_folded kw msg : occursIn kw msg -> occursFoldedIn kw msg.
Proof.
  intros (before & after & ->). by exists before, kw, after.
Qed.

End Folding.

(* ===================================================================== *)
(** ** The classifier: the decision rule *)
(* ===================================================================== *)

Section Verdicts.

Import GoRegexp Models Analyzer Keyword.
Local Open Scope Z_scope.

Lemma sliceLen_small {A} (l : list A) : (length l <= 1000)%nat -> sliceLen l.
Proof. unfold sliceLen, GoFmt.maxInt. lia. Qed.

(** C1, as the spec words it: the reason of the rejection would start
    with a lower-case letter.  For the records
    ["BREAKING: remove legacy API"; "fix: typo"] the code answers
    ["Contains 1 breaking changes"]. *)
Lemma rejection_reason_is_capitalised :
  sliceLen Sample.breakingAndFix /\
  (exists c, In c Sample.breakingAndFix /\ MatchString breakRe (Message c) = true) /\
  AnalyzeCommits Sample.breakingAndFix = (false, "", "Contains 1 breaking changes") /\
  AnalyzeCommits Sample.breakingAndFix <>
    (false, "",
     "contains " +:+ GoFmt.Sprintf_d (matching breakRe Sample.breakingAndFix)
       +:+ " breaking changes").
Proof.
  split; [apply sliceLen_small; simpl; lia|].
  split; [exists (Sample.record "BREAKING: remove legacy API"); split; [by left|done]|].
  split; [by vm_compute|]. vm_compute. discriminate.
Qed.

(** C1 (amended): when at least one record matches the breaking-change
    pattern, [AnalyzeCommits] rejects (no update, empty approval
    reason) with the risk text ["Contains N breaking changes"], [N]
    being the number of such records, whatever else the records match. *)
Theorem breaking_change_rejects (commits : list CommitInfo) :
  sliceLen commits ->
  (exists c, In c commits /\ MatchString breakRe (Message c) = true) ->
  AnalyzeCommits commits =
    (false, "",
     "Contains " +:+ GoFmt.Sprintf_d (matching breakRe commits) +:+ " breaking changes").
Proof.
  intros Hlen Hbreak. apply matching_pos in Hbreak.
  destruct (countCommits_tallied (map_to_list patterns) commits
              (reflexivity _) Hlen) as [_ _ Hb _].
  unfold AnalyzeCommits, AnalyzeCommitsIn, decide_. rewrite Hb.
  destruct (Z.gtb_spec (matching breakRe commits) 0); [done|lia].
Qed.

Lemma breaking_change_rejects_witness :
  AnalyzeCommits Sample.breakingAndFix =
    (false, "",
     "Contains " +:+ GoFmt.Sprintf_d (matching breakRe Sample.breakingAndFix)
       +:+ " breaking changes").
Proof.
  apply (breaking_change_rejects Sample.breakingAndFix).
  - apply sliceLen_small; simpl; lia.
  - exists (Sample.record "BREAKING: remove legacy API"). split; [by left|reflexivity].
Defined.

(** C8, as the spec words it: the text for the undecided case would
    start with a lower-case letter.  For two records that match no
    pattern, and for no record at all, the code answers
    ["No significant improvements found"]. *)
Lemma undecided_reason_is_capitalised :
  (forall c, In c Sample.chores ->
     MatchString fixRe (Message c) = false /\ MatchString perfRe (Message c) = false /\
     MatchString breakRe (Message c) = false /\
     MatchString featureRe (Message c) = false) /\
  AnalyzeCommits Sample.chores <> (false, "", "no significant improvements found") /\
  AnalyzeCommits [] <> (false, "", "no significant improvements found").
Proof.
  split; [|split; vm_compute; discriminate].
  intros c [<-|[<-|[]]]; by vm_compute.
Qed.

(** C8 (amended): when no record matches any of the four patterns, and
    in particular when there is no record, [AnalyzeCommits] answers no
    update, an empty approval reason and the text
    ["No significant improvements found"]. *)
Theorem no_match_is_undecided (commits : list CommitInfo) :
  sliceLen commits ->
  (forall c, In c commits ->
     MatchString fixRe (Message c) = false /\ MatchString perfRe (Message c) = false /\
     MatchString breakRe (Message c) = false /\
     MatchString featureRe (Message c) = false) ->
  AnalyzeCommits commits = (false, "", "No significant improvements found") /\
  AnalyzeCommits [] = (false, "", "No significant improvements found").
Proof.
  intros Hlen Hnone. split; [|by vm_compute].
  destruct (countCommits_tallied (map_to_list patterns) commits
              (reflexivity _) Hlen) as [Hf Hp Hb Hn].
  unfold AnalyzeCommits, AnalyzeCommitsIn, decide_. rewrite Hf, Hp, Hb, Hn.
  assert (matching fixRe commits = 0) as ->
    by (apply matching_zero; intros c Hc; apply (Hnone c Hc)).
  assert (matching perfRe commits = 0) as ->
    by (apply matching_zero; intros c Hc; apply (Hnone c Hc)).
  assert (matching breakRe commits = 0) as ->
    by (apply matching_zero; intros c Hc; apply (Hnone c Hc)).
  assert (matching featureRe commits = 0) as ->
    by (apply matching_zero; intros c Hc; apply (Hnone c Hc)).
  done.
Qed.

Lemma no_match_is_undecided_witness :
  AnalyzeCommits Sample.chores = (false, "", "No significant improvements found") /\
  AnalyzeCommits [] = (false, "", "No significant improvements found").
Proof.
  apply (no_match_is_undecided Sample.chores).
  - apply sliceLen_small; simpl; lia.
  - intros c [<-|[<-|[]]]; repeat split; reflexivity.
Defined.

(** C9: the records ["fix: null pointer"; "feat: add cache"] count one
    fix, one feature and no breaking change, and are approved with the
    reason ["1 fixes"].  In general, with no breaking change and a fix
    or an optimization, the update is approved and the reason joins
    with [", "] those of ["F fixes"] and ["P optimizations"] whose
    count is positive; the number of features appears nowhere in it. *)
Theorem approval_reason_lists_fixes_and_optimizations :
  (matching fixRe Sample.fixAndFeature = 1 /\
   matching featureRe Sample.fixAndFeature = 1 /\
   matching breakRe Sample.fixAndFeature = 0 /\
   AnalyzeCommits Sample.fixAndFeature = (true, "1 fixes", "")) /\
  (forall commits : list CommitInfo,
     sliceLen commits ->
     matching breakRe commits = 0 ->
     0 < matching fixRe commits \/ 0 < matching perfRe commits ->
     AnalyzeCommits commits =
       (true,
        GoStrings.Join
          (app (if 0 <? matching fixRe commits
                then [GoFmt.Sprintf_d (matching fixRe commits) +:+ " fixes"]
                else [])
               (if 0 <? matching perfRe commits
                then [GoFmt.Sprintf_d (matching perfRe commits) +:+ " optimizations"]
                else []))
          ", ",
        "")).
Proof.
  split; [by vm_compute|].
  intros commits Hlen Hbreak Hsome.
  destruct (countCommits_tallied (map_to_list patterns) commits
              (reflexivity _) Hlen) as [Hf Hp Hb _].
  unfold AnalyzeCommits, AnalyzeCommitsIn, decide_, formatApprovalReason.
  rewrite Hf, Hp, Hb, Hbreak. rewrite !Z.gtb_ltb.
  destruct (Z.ltb_spec 0 (matching fixRe commits)),
    (Z.ltb_spec 0 (matching perfRe commits)); try done.
  lia.
Qed.

Lemma approval_reason_lists_fixes_and_optimizations_witness :
  AnalyzeCommits Sample.fixPerfFeature = (true, "1 fixes, 1 optimizations", "").
Proof.
  apply (proj2 approval_reason_lists_fixes_and_optimizations Sample.fixPerfFeature).
  - apply sliceLen_small; simpl; lia.
  - reflexivity.
  - left. reflexivity.
Defined.

(** C10: a message in which "breaking", "break", "remove" or
    "deprecate" occurs, in any mix of upper and lower case, matches the
    breaking-change pattern; so records one of whose messages contains
    "remove" or "deprecate" are rejected, with a positive count of
    breaking changes in the risk text. *)
Theorem breaking_keywords_reject :
  (forall kw msg,
     In kw ["breaking"; "break"; "remove"; "deprecate"] ->
     occursFoldedIn kw msg -> MatchString breakRe msg = true) /\
  (forall commits : list CommitInfo,
     sliceLen commits ->
     (exists c, In c commits /\
                (occursIn "remove" (Message c) \/ occursIn "deprecate" (Message c))) ->
     exists n, 0 < n /\
               AnalyzeCommits commits = (false, "", formatRejectionReason n)).
Proof.
  assert (forall kw msg,
            In kw ["breaking"; "break"; "remove"; "deprecate"] ->
            occursFoldedIn kw msg -> MatchString breakRe msg = true) as Hkw.
  { intros kw msg Hin Hocc. apply (MatchString_folded breakRe kw msg); [done| |done].
    simpl in *. tauto. }
  split; [exact Hkw|].
  intros commits Hlen (c & Hin & Hocc).
  assert (MatchString breakRe (Message c) = true) as Hm.
  { destruct Hocc as [Hocc|Hocc]; apply occursIn_folded in Hocc;
      (eapply Hkw; [|exact Hocc]); simpl; tauto. }
  assert (0 < matching breakRe commits) as Hpos by (apply matching_pos; eauto).
  exists (matching breakRe commits). split; [done|].
  destruct (countCommits_tallied (map_to_list patterns) commits
              (reflexivity _) Hlen) as [_ _ Hb _].
  unfold AnalyzeCommits, AnalyzeCommitsIn, decide_. rewrite Hb.
  destruct (Z.gtb_spec (matching breakRe commits) 0); [done|lia].
Qed.

Lemma breaking_keywords_reject_witness :
  MatchString breakRe "Deprecate the v1 client" = true /\
  exists n, 0 < n /\
            AnalyzeCommits Sample.removal = (false, "", formatRejectionReason n).
Proof.
  split.
  - apply (proj1 breaking_keywords_reject "deprecate").
    + simpl. tauto.
    + exists "", "Deprecate", " the v1 client". split; reflexivity.
  - apply (proj2 breaking_keywords_reject Sample.removal).
    + apply sliceLen_small; simpl; lia.
    + exists (Sample.record "docs: remove stale links"). split.
      * simpl. tauto.
      * left. exists "docs: ", " stale links". reflexivity.
Defined.

End Verdicts.

(* ===================================================================== *)
(** ** The walks of [getRecentCommits] and [getCommitsBetweenHashes] *)
(* ===================================================================== *)

Section Walks.

Import GoError Models GitOps Range.
Local Open Scope Z_scope.

Lemma limitReached_expected limit :
  GoStrings.Contains (Error (limitReached limit)) "reached maximum commit limit" = true.
Proof. reflexivity. Qed.

Lemma firstn_succ_of_Z {A} (k : Z) (x : A) (l : list A) :
  0 < k -> firstn (Z.to_nat k) (x :: l) = x :: firstn (Z.to_nat (k - 1)) l.
Proof.
  intros Hk. replace (Z.to_nat k) with (S (Z.to_nat (k - 1))) by lia. done.
Qed.

(** The loop of [getRecentCommits] from any point of the iteration:
    it appends the next [limit - processedCommits] records and ends
    with the limit error or with what the iterator ends with. *)
Lemma recent_forEach limit (cs : list object.Commit) ending :
  limit <= GoFmt.maxInt ->
  forall acc n, 0 <= n <= limit ->
  exists err n',
    object.forEach (recentStep limit) cs ending (acc, n) =
      (err, (app acc (firstn (Z.to_nat (limit - n)) (map commitInfo cs)), n')) /\
    (err = Some (limitReached limit) \/ err = ending).
Proof.
  intros Hmax. induction cs as [|c cs IH]; intros acc n Hn.
  - exists ending, n. cbn. rewrite firstn_nil, app_nil_r. auto.
  - cbn [object.forEach recentStep].
    destruct (Z.geb_spec n limit) as [Hge|Hlt].
    + exists (Some (limitReached limit)), n. cbn.
      replace (limit - n) with 0 by lia. cbn. rewrite app_nil_r. auto.
    + rewrite incr_small by lia.
      destruct (IH (app acc [commitInfo c]) (n + 1)) as (err & n' & Hrun & Herr);
        [lia|].
      exists err, n'. split; [|done]. rewrite Hrun.
      cbn [map]. rewrite firstn_succ_of_Z by lia.
      replace (limit - (n + 1)) with (limit - n - 1) by lia.
      by rewrite <- app_assoc.
Qed.

(** The loop of [getCommitsBetweenHashes] from any point of the
    iteration. *)
Lemma between_forEach fromCommit maxCommits (cs : list object.Commit) ending :
  maxCommits <= GoFmt.maxInt ->
  forall acc n, 0 <= n <= maxCommits ->
  exists err n',
    object.forEach (betweenStep fromCommit maxCommits) cs ending (acc, n) =
      (err, (app acc (firstn (Z.to_nat (maxCommits - n))
                        (map commitInfo (beforeBoundary fromCommit cs))), n')) /\
    (err = Some (Errorf "reached boundary commit") \/
     err = Some (limitReached maxCommits) \/
     (err = ending /\ beforeBoundary fromCommit cs = cs)).
Proof.
  intros Hmax. induction cs as [|c cs IH]; intros acc n Hn.
  - exists ending, n. cbn. rewrite firstn_nil, app_nil_r. auto.
  - cbn [object.forEach betweenStep beforeBoundary].
    destruct (String.eqb (object.Hash c) (object.Hash fromCommit)) eqn:Hhash.
    + exists (Some (Errorf "reached boundary commit")), n. cbn.
      rewrite firstn_nil, app_nil_r. auto.
    + destruct (Z.geb_spec n maxCommits) as [Hge|Hlt].
      * exists (Some (limitReached maxCommits)), n. cbn.
        replace (maxCommits - n) with 0 by lia. cbn. rewrite app_nil_r. auto.
      * rewrite incr_small by lia.
        destruct (IH (app acc [commitInfo c]) (n + 1)) as (err & n' & Hrun & Herr);
          [lia|].
        exists err, n'. split.
        -- rewrite Hrun. cbn [map]. rewrite firstn_succ_of_Z by lia.
           replace (maxCommits - (n + 1)) with (maxCommits - n - 1) by lia.
           by rewrite <- app_assoc.
        -- destruct Herr as [->|[->|[-> Hall]]]; auto.
           right. right. split; [done|]. by rewrite Hall.
Qed.

End Walks.

(* ===================================================================== *)
(** ** [GitOperations]: extraction *)
(* ===================================================================== *)

Section Extraction.

Import GoError Models GitOps Range.
Context `{B : git.Backend}.
Variable g : GitOperations.
Variable repo : git.Repository.

Ltac run := unfold bind, read, say, ret, act, act_ in *; cbn [fst snd world output] in *.

(** [getRecentCommits] only reads. *)
Lemma getRecentCommits_state limit st : snd (getRecentCommits g repo limit st) = st.
Proof.
  unfold getRecentCommits. run.
  destruct (git.Head repo (world st)) as [headHash|e]; [|done].
  destruct (git.Log repo _ (world st)) as [iter|e]; [|done].
  destruct (object.ForEach iter (recentStep limit) ([], 0%Z)) as [[e|] [commits n]];
    [|done].
  by destruct (negb _).
Qed.

(** ... and what it reads is the world, not the lines printed so far. *)
Lemma getRecentCommits_world limit st st' :
  world st = world st' ->
  fst (getRecentCommits g repo limit st) = fst (getRecentCommits g repo limit st').
Proof.
  destruct st as [w out], st' as [w' out']. cbn [world]. intros <-.
  unfold getRecentCommits. run.
  destruct (git.Head repo w) as [headHash|e]; [|reflexivity]. cbn.
  destruct (git.Log repo _ w) as [iter|e]; [|reflexivity]. cbn.
  destruct (object.ForEach iter (recentStep limit) ([], 0%Z)) as [[e|] [commits n]];
    [|reflexivity].
  destruct (negb _); reflexivity.
Qed.

(** A successful [getRecentCommits] returns the first [limit] records
    of the walk from the head. *)
Lemma getRecentCommits_ok limit st commits :
  (0 <= limit <= GoFmt.maxInt)%Z ->
  fst (getRecentCommits g repo limit st) = Ok commits ->
  exists headHash iter,
    git.Head repo (world st) = Ok headHash /\
    git.Log repo {| git.From := headHash |} (world st) = Ok iter /\
    commits = firstn (Z.to_nat limit) (map commitInfo (object.yields iter)).
Proof.
  intros Hlimit. unfold getRecentCommits. run.
  destruct (git.Head repo (world st)) as [headHash|e] eqn:Hhead; [|done].
  destruct (git.Log repo _ (world st)) as [iter|e] eqn:Hlog; [|done].
  unfold object.ForEach.
  destruct (recent_forEach limit (object.yields iter) (object.ending iter)
              (proj2 Hlimit) [] 0%Z) as (err & n' & -> & _); [lia|].
  rewrite Z.sub_0_r. cbn [app].
  intros Hok. exists headHash, iter. split; [done|]. split; [done|].
  destruct err as [e|]; [destruct (negb _)|]; cbn in Hok; congruence.
Qed.

(** [getCommitsBetweenHashes] only reads. *)
Lemma getCommitsBetweenHashes_state from to st :
  snd (getCommitsBetweenHashes g repo from to st) = st.
Proof.
  unfold getCommitsBetweenHashes. run.
  destruct (git.CommitObject repo from (world st)) as [fromCommit|e]; [|done].
  destruct (git.CommitObject repo to (world st)) as [toCommit|e]; [|done].
  destruct (git.Log repo _ (world st)) as [iter|e]; [|done].
  cbv zeta.
  destruct (object.ForEach iter (betweenStep fromCommit 200) ([], 0%Z))
    as [[e|] [commits n]]; [|done].
  by destruct (_ && _).
Qed.

(** A successful [getCommitsBetweenHashes] returns the first 200
    records of the walk from [to] that come before [from]. *)
Lemma getCommitsBetweenHashes_ok from to st commits :
  fst (getCommitsBetweenHashes g repo from to st) = Ok commits ->
  exists fromCommit toCommit iter,
    git.CommitObject repo from (world st) = Ok fromCommit /\
    git.CommitObject repo to (world st) = Ok toCommit /\
    git.Log repo {| git.From := object.Hash toCommit |} (world st) = Ok iter /\
    commits = firstn 200 (map commitInfo
                            (beforeBoundary fromCommit (object.yields iter))).
Proof.
  unfold getCommitsBetweenHashes. run.
  destruct (git.CommitObject repo from (world st)) as [fromCommit|e] eqn:Hfrom; [|done].
  destruct (git.CommitObject repo to (world st)) as [toCommit|e] eqn:Hto; [|done].
  destruct (git.Log repo _ (world st)) as [iter|e] eqn:Hlog; [|done].
  unfold object.ForEach.
  destruct (between_forEach fromCommit 200 (object.yields iter) (object.ending iter)
              ltac:(unfold GoFmt.maxInt; lia) [] 0%Z) as (err & n' & -> & _); [lia|].
  cbn [app]. change (Z.to_nat (200 - 0)) with 200%nat.
  intros Hok. exists fromCommit, toCommit, iter.
  repeat (split; [done|]).
  destruct err as [e|]; [destruct (_ && _)|]; cbn [fst] in Hok;
    [discriminate Hok| |]; by injection Hok as <-.
Qed.

(** When the iterator ends without an error of its own, the walk
    succeeds, whether or not it meets [from]. *)
Lemma getCommitsBetweenHashes_unbroken from to st fromCommit toCommit iter :
  git.CommitObject repo from (world st) = Ok fromCommit ->
  git.CommitObject repo to (world st) = Ok toCommit ->
  git.Log repo {| git.From := object.Hash toCommit |} (world st) = Ok iter ->
  object.ending iter = None ->
  fst (getCommitsBetweenHashes g repo from to st) =
    Ok (firstn 200 (map commitInfo (beforeBoundary fromCommit (object.yields iter)))).
Proof.
  intros Hfrom Hto Hlog Hend. unfold getCommitsBetweenHashes. run.
  rewrite Hfrom, Hto, Hlog. unfold object.ForEach.
  destruct (between_forEach fromCommit 200 (object.yields iter) (object.ending iter)
              ltac:(unfold GoFmt.maxInt; lia) [] 0%Z) as (err & n' & -> & Herr); [lia|].
  cbn [app]. change (Z.to_nat (200 - 0)) with 200%nat.
  destruct Herr as [->|[->|[-> _]]]; [done|done|]. by rewrite Hend.
Qed.

End Extraction.

(* ===================================================================== *)
(** ** [GitOperations]: where the records of [getCommitLog] come from *)
(* ===================================================================== *)

Section Provenance.

Import GoError Models GitOps Range.
Context `{B : git.Backend}.
Variable g : GitOperations.
Variable repo : git.Repository.

Ltac run := unfold bind, read, say, ret, act, act_ in *; cbn [fst snd world output] in *.

Lemma beforeBoundary_all fromCommit (cs : list object.Commit) :
  (forall c, In c cs -> object.Hash c <> object.Hash fromCommit) ->
  beforeBoundary fromCommit cs = cs.
Proof.
  induction cs as [|c cs IH]; intros Hnone; [done|].
  cbn [beforeBoundary].
  destruct (String.eqb_spec (object.Hash c) (object.Hash fromCommit)) as [Heq|_].
  - exfalso. apply (Hnone c); [by left|done].
  - rewrite IH; [done|]. intros c' Hin. apply Hnone. by right.
Qed.

Lemma resolveVersionRef_fst versionStr st :
  fst (resolveVersionRef g repo versionStr st) =
  match firstResolved repo (versionRefs versionStr) (world st) with
  | Some hash => Ok hash
  | None => Fail (Errorf ("could not resolve version reference for " +:+ versionStr))
  end.
Proof. reflexivity. Qed.

Lemma resolveVersionRef_state versionStr st :
  snd (resolveVersionRef g repo versionStr st) = st.
Proof. reflexivity. Qed.

(** The value that [getCommitLog] returns: the exact walk when both
    versions resolve and the walk succeeds, the recent commits in every
    other case. *)
Lemma getCommitLog_fst dep st :
  fst (getCommitLog g repo dep st) =
  let st1 := snd (fetchTagsOrWarn g repo dep st) in
  match fst (resolveVersionRef g repo (CurrentVersion dep) st1),
        fst (resolveVersionRef g repo (LatestVersion dep) st1) with
  | Ok currentHash, Ok latestHash =>
      match fst (getCommitsBetweenHashes g repo currentHash latestHash st1) with
      | Ok commits => Ok commits
      | Fail _ => fst (getRecentCommits g repo 300 st1)
      end
  | _, _ => fst (getRecentCommits g repo 300 st1)
  end.
Proof.
  unfold getCommitLog, resolveVersionRef. run.
  destruct (fetchTagsOrWarn g repo dep st) as [[] st1]. cbn [snd].
  destruct (firstResolved repo (versionRefs (CurrentVersion dep)) (world st1))
    as [currentHash|];
    destruct (firstResolved repo (versionRefs (LatestVersion dep)) (world st1))
      as [latestHash|];
    try (cbn [fst snd]; by apply getRecentCommits_world).
  pose proof (getCommitsBetweenHashes_state g repo currentHash latestHash st1) as Hst.
  destruct (getCommitsBetweenHashes g repo currentHash latestHash st1) as [r st2].
  cbn [fst snd] in *. subst st2.
  destruct r as [commits|e].
  - by destruct (length commits =? 0)%nat.
  - by apply getRecentCommits_world.
Qed.

End Provenance.

(* ===================================================================== *)
(** ** [GitOperations]: the size of an extraction *)
(* ===================================================================== *)

Section Bounds.

Import GoError Models GitOps Range.
Context `{B : git.Backend}.
Variable g : GitOperations.

Lemma firstn_bound {A} n (l : list A) : (length (firstn n l) <= n)%nat.
Proof. apply firstn_le_length. Qed.

(** The walk of recent commits as [getCommitLog] calls it. *)
Lemma getRecentCommits_300 repo st commits :
  fst (getRecentCommits g repo 300 st) = Ok commits ->
  exists headHash iter,
    git.Head repo (world st) = Ok headHash /\
    git.Log repo {| git.From := headHash |} (world st) = Ok iter /\
    commits = firstn 300 (map commitInfo (object.yields iter)) /\
    (length commits <= 300)%nat.
Proof.
  intros Hok. apply getRecentCommits_ok in Hok; [|unfold GoFmt.maxInt; lia].
  destruct Hok as (headHash & iter & Hh & Hl & ->).
  exists headHash, iter. repeat (split; [done|]). apply firstn_bound.
Qed.

(** C2 (amended): a successful extraction is either the exact walk,
    which returns the first 200 records of the walk from the latest
    version that come before the current one, or the walk of recent
    commits, which returns the first 300 records of the walk from the
    head.  So an exact range has at most 200 records and a recent
    fallback at most 300, both cut at the far end of the walk. *)
Theorem extraction_is_bounded repo dep st commits :
  fst (getCommitLog g repo dep st) = Ok commits ->
  let w := world (snd (fetchTagsOrWarn g repo dep st)) in
  (exists currentHash latestHash fromCommit toCommit iter,
      firstResolved repo (versionRefs (CurrentVersion dep)) w = Some currentHash /\
      firstResolved repo (versionRefs (LatestVersion dep)) w = Some latestHash /\
      git.CommitObject repo currentHash w = Ok fromCommit /\
      git.CommitObject repo latestHash w = Ok toCommit /\
      git.Log repo {| git.From := object.Hash toCommit |} w = Ok iter /\
      commits = firstn 200 (map commitInfo
                              (beforeBoundary fromCommit (object.yields iter))) /\
      (length commits <= 200)%nat)
  \/
  (exists headHash iter,
      git.Head repo w = Ok headHash /\
      git.Log repo {| git.From := headHash |} w = Ok iter /\
      commits = firstn 300 (map commitInfo (object.yields iter)) /\
      (length commits <= 300)%nat).
Proof.
  rewrite getCommitLog_fst. cbv zeta. rewrite !resolveVersionRef_fst.
  set (st1 := snd (fetchTagsOrWarn g repo dep st)).
  destruct (firstResolved repo (versionRefs (CurrentVersion dep)) (world st1))
    as [currentHash|] eqn:Hcur; [|by right; apply getRecentCommits_300].
  destruct (firstResolved repo (versionRefs (LatestVersion dep)) (world st1))
    as [latestHash|] eqn:Hlat; [|by right; apply getRecentCommits_300].
  destruct (fst (getCommitsBetweenHashes g repo currentHash latestHash st1))
    as [cs|e] eqn:Hbetween; [|by right; apply getRecentCommits_300].
  intros [= ->]. left.
  apply getCommitsBetweenHashes_ok in Hbetween
    as (fromCommit & toCommit & iter & Hfrom & Hto & Hlog & ->).
  exists currentHash, latestHash, fromCommit, toCommit, iter.
  repeat (split; [done|]). apply firstn_bound.
Qed.

(** The entry point [GetCommitsBetweenVersions] inherits the larger of
    the two limits. *)
Lemma getCommitLog_bounded repo dep st commits :
  fst (getCommitLog g repo dep st) = Ok commits -> (length commits <= 300)%nat.
Proof.
  rewrite getCommitLog_fst. cbv zeta.
  set (st1 := snd (fetchTagsOrWarn g repo dep st)).
  assert (fst (getRecentCommits g repo 300 st1) = Ok commits ->
          (length commits <= 300)%nat) as Hrecent.
  { intros Hok. by apply getRecentCommits_300 in Hok as (? & ? & _ & _ & _ & ?). }
  destruct (fst (resolveVersionRef g repo (CurrentVersion dep) st1))
    as [currentHash|]; [|done].
  destruct (fst (resolveVersionRef g repo (LatestVersion dep) st1))
    as [latestHash|]; [|done].
  destruct (fst (getCommitsBetweenHashes g repo currentHash latestHash st1))
    as [cs|e] eqn:Hbetween; [|done].
  intros [= ->].
  apply getCommitsBetweenHashes_ok in Hbetween
    as (fromCommit & toCommit & iter & _ & _ & _ & ->).
  pose proof (firstn_bound 200
                (map commitInfo (beforeBoundary fromCommit (object.yields iter)))).
  lia.
Qed.

(** X18: Whatever happens on the way, a successful
    [GetCommitsBetweenVersions] returns at most 300 records. *)
Lemma GetCommitsBetweenVersions_bounded dep st commits :
  fst (GetCommitsBetweenVersions g dep st) = Ok commits ->
  (length commits <= 300)%nat.
Proof.
  unfold GetCommitsBetweenVersions.
  destruct (String.eqb (CurrentVersion dep) (LatestVersion dep)).
  { intros [= <-]. simpl. lia. }
  unfold bind at 1.
  destruct (act (git.MkdirTemp "" "dependency-*") st) as [[tempDir|e] st1];
    [|discriminate].
  unfold bind at 1. unfold bind at 1.
  destruct (determineRepositoryURL g (Name dep) st1) as [repoURL st2].
  unfold bind at 1.
  destruct (cloneRepository g repoURL tempDir st2) as [[repo|e] st3];
    [|discriminate].
  unfold bind at 1.
  destruct (fetchTagsOrWarn g repo dep st3) as [[] st4].
  unfold bind at 1.
  destruct (getCommitLog g repo dep st4) as [[cs|e] st5] eqn:Hlog;
    [|discriminate].
  unfold bind, say, ret, act_. cbn [fst snd]. intros [= <-].
  apply (getCommitLog_bounded repo dep st4). by rewrite Hlog.
Qed.

End Bounds.

(** C2, as the spec words it: every extraction would have at most 200
    records.  On a repository of 250 commits without tags, the versions
    do not resolve and [getCommitLog] returns all 250 commits: the walk
    of recent commits is called with the limit 300. *)
Lemma recent_fallback_exceeds_200 :
  exists commits,
    fst (GitOps.getCommitLog (B := InMemory.backend) InMemory.g tt InMemory.dep (InMemory.start InMemory.untagged))
      = GoError.Ok commits /\
    length commits = 250%nat /\ ~ (length commits <= 200)%nat.
Proof.
  eexists. split; [vm_compute; reflexivity|]. split; [by vm_compute|].
  vm_compute. lia.
Qed.

Lemma extraction_is_bounded_witness :
  exists commits,
    fst (GitOps.getCommitLog (B := InMemory.backend) InMemory.g tt InMemory.dep (InMemory.start InMemory.tagged))
      = GoError.Ok commits /\
    (length commits <= 300)%nat.
Proof.
  eexists. split; [vm_compute; reflexivity|].
  match goal with |- (length ?cs <= _)%nat =>
    destruct (extraction_is_bounded (B := InMemory.backend) InMemory.g tt InMemory.dep
                (InMemory.start InMemory.tagged) cs eq_refl)
      as [(?&?&?&?&?&_&_&_&_&_&_&Hlen)|(?&?&_&_&_&Hlen)]
  end; lia.
Defined.

(* ===================================================================== *)
(** ** [GitOperations]: when the recent commits are returned *)
(* ===================================================================== *)

Section Fallback.

Import GoError Models GitOps Range.
Context `{B : git.Backend}.
Variable g : GitOperations.
Variable repo : git.Repository.

(** C3 (amended): when the current or the latest version resolves
    under none of the spellings, [getCommitLog] does not return that
    failure: it prints a warning and returns what
    [getRecentCommits(repo, 300)] returns, which is either the error of
    that walk or the first 300 records of the walk from the head.  The
    value returned is the bare list of records. *)
Theorem resolution_miss_falls_back dep st :
  let st1 := snd (fetchTagsOrWarn g repo dep st) in
  let current := fst (resolveVersionRef g repo (CurrentVersion dep) st1) in
  let latest := fst (resolveVersionRef g repo (LatestVersion dep) st1) in
  (exists e, current = Fail e) \/ (exists e, latest = Fail e) ->
  getCommitLog g repo dep st =
    getRecentCommits g repo 300
      (MkState (world st1)
         (Utils.Warn (logger g)
            ("Could not resolve version references: current="
               +:+ Sprintf_v (errOf current) +:+ ", latest="
               +:+ Sprintf_v (errOf latest))
            (output st1))) /\
  forall commits,
    fst (getCommitLog g repo dep st) = Ok commits ->
    exists headHash iter,
      git.Head repo (world st1) = Ok headHash /\
      git.Log repo {| git.From := headHash |} (world st1) = Ok iter /\
      commits = firstn 300 (map commitInfo (object.yields iter)).
Proof.
  intros st1 current latest Hmiss.
  assert (getCommitLog g repo dep st =
          getRecentCommits g repo 300
            (MkState (world st1)
               (Utils.Warn (logger g)
                  ("Could not resolve version references: current="
                     +:+ Sprintf_v (errOf current) +:+ ", latest="
                     +:+ Sprintf_v (errOf latest))
                  (output st1)))) as Hsame.
  { subst current latest st1. revert Hmiss. rewrite !resolveVersionRef_fst.
    unfold getCommitLog, resolveVersionRef, bind, read, say.
    destruct (fetchTagsOrWarn g repo dep st) as [[] st1]. cbn [fst snd].
    destruct (firstResolved repo (versionRefs (CurrentVersion dep)) (world st1));
      destruct (firstResolved repo (versionRefs (LatestVersion dep)) (world st1));
      intros [[e He]|[e He]]; try discriminate; reflexivity. }
  split; [exact Hsame|].
  intros commits Hok. rewrite Hsame in Hok.
  apply getRecentCommits_ok in Hok; [|unfold GoFmt.maxInt; lia].
  exact Hok.
Qed.

(** C4 (amended): when both versions resolve to commits and the walk
    from the latest one ends without meeting the current one, the walk
    has not failed: [getCommitLog] returns the first 200 records of
    that walk, and the recent commits are not consulted. *)
Theorem unreachable_boundary_walks_on dep st
    currentHash latestHash fromCommit toCommit iter :
  let st1 := snd (fetchTagsOrWarn g repo dep st) in
  fst (resolveVersionRef g repo (CurrentVersion dep) st1) = Ok currentHash ->
  fst (resolveVersionRef g repo (LatestVersion dep) st1) = Ok latestHash ->
  git.CommitObject repo currentHash (world st1) = Ok fromCommit ->
  git.CommitObject repo latestHash (world st1) = Ok toCommit ->
  git.Log repo {| git.From := object.Hash toCommit |} (world st1) = Ok iter ->
  object.ending iter = None ->
  (forall c, In c (object.yields iter) -> object.Hash c <> object.Hash fromCommit) ->
  fst (getCommitLog g repo dep st) =
    Ok (firstn 200 (map commitInfo (object.yields iter))).
Proof.
  intros st1 Hcur Hlat Hfrom Hto Hlog Hend Hnone.
  rewrite getCommitLog_fst. cbv zeta. fold st1. rewrite Hcur, Hlat.
  rewrite (getCommitsBetweenHashes_unbroken g repo currentHash latestHash st1
             fromCommit toCommit iter) by done.
  by rewrite beforeBoundary_all.
Qed.

End Fallback.

(** C3, as the spec words it: the result of the fallback would carry a
    tag that tells it from an exact range.  On [InMemory.bare] the versions do
    not resolve and the recent commits are returned; on [InMemory.tagged] both
    versions resolve and the exact walk is returned; the two values are
    the same list of records, and so are the analyses built from them. *)
Lemma fallback_result_carries_no_tag :
  (exists e, fst (GitOps.resolveVersionRef (B := InMemory.backend) InMemory.g tt "1.0.0"
                    (InMemory.start InMemory.bare)) = GoError.Fail e) /\
  (exists h, fst (GitOps.resolveVersionRef (B := InMemory.backend) InMemory.g tt "1.0.0"
                    (InMemory.start InMemory.tagged)) = GoError.Ok h) /\
  (exists h, fst (GitOps.resolveVersionRef (B := InMemory.backend) InMemory.g tt "1.1.0"
                    (InMemory.start InMemory.tagged)) = GoError.Ok h) /\
  fst (GitOps.getCommitLog (B := InMemory.backend) InMemory.g tt InMemory.dep (InMemory.start InMemory.bare)) =
  fst (GitOps.getCommitLog (B := InMemory.backend) InMemory.g tt InMemory.dep (InMemory.start InMemory.tagged)) /\
  (forall commits commits',
     fst (GitOps.getCommitLog (B := InMemory.backend) InMemory.g tt InMemory.dep (InMemory.start InMemory.bare))
       = GoError.Ok commits ->
     fst (GitOps.getCommitLog (B := InMemory.backend) InMemory.g tt InMemory.dep (InMemory.start InMemory.tagged))
       = GoError.Ok commits' ->
     Analyzer.AnalyzeUpdate InMemory.dep commits = Analyzer.AnalyzeUpdate InMemory.dep commits').
Proof.
  split; [eexists; vm_compute; reflexivity|].
  split; [eexists; vm_compute; reflexivity|].
  split; [eexists; vm_compute; reflexivity|].
  assert (fst (GitOps.getCommitLog (B := InMemory.backend) InMemory.g tt InMemory.dep
                 (InMemory.start InMemory.bare)) =
          fst (GitOps.getCommitLog (B := InMemory.backend) InMemory.g tt InMemory.dep
                 (InMemory.start InMemory.tagged))) as Hsame by (vm_compute; reflexivity).
  split; [exact Hsame|].
  intros commits commits' H1 H2. rewrite Hsame, H2 in H1. by injection H1 as ->.
Qed.

Lemma resolution_miss_falls_back_witness :
  GitOps.getCommitLog (B := InMemory.backend) InMemory.g tt InMemory.dep (InMemory.start InMemory.bare) =
  GitOps.getRecentCommits (B := InMemory.backend) InMemory.g tt 300
    (GitOps.MkState (B := InMemory.backend) InMemory.bare
       [(Utils.WARN,
         "Could not resolve version references: current=could not resolve version reference for 1.0.0, latest=could not resolve version reference for 1.1.0")]).
Proof.
  apply (proj1 (resolution_miss_falls_back (B := InMemory.backend) InMemory.g tt
                  InMemory.dep (InMemory.start InMemory.bare)
                  (or_introl (ex_intro _ _ eq_refl)))).
Defined.

(** C4, as the spec words it: with the two versions on histories that
    share no commit, the exact walk would fail and the recent commits
    from the head would be returned.  On [InMemory.divergent] the walk from
    the latest version succeeds with its whole history, commits 3, 2 and
    1, and that is what [getCommitLog] returns; the recent commits from
    the head are commits 8 and 7. *)
Lemma divergent_histories_do_not_fall_back :
  let st := InMemory.start InMemory.divergent in
  fst (GitOps.resolveVersionRef (B := InMemory.backend) InMemory.g tt "1.0.0" st)
    = GoError.Ok (InMemory.name 8) /\
  fst (GitOps.resolveVersionRef (B := InMemory.backend) InMemory.g tt "1.1.0" st)
    = GoError.Ok (InMemory.name 3) /\
  fst (InMemory.walk 5 InMemory.divergent (InMemory.name 3)) =
    map InMemory.commit [InMemory.numbered 3; InMemory.numbered 2; InMemory.numbered 1] /\
  fst (InMemory.walk 5 InMemory.divergent (InMemory.name 8)) =
    map InMemory.commit [InMemory.numbered 8; InMemory.numbered 7] /\
  fst (GitOps.getCommitsBetweenHashes (B := InMemory.backend) InMemory.g tt (InMemory.name 8)
         (InMemory.name 3) st)
    = GoError.Ok (map (fun o => GitOps.commitInfo (InMemory.commit o))
                    [InMemory.numbered 3; InMemory.numbered 2; InMemory.numbered 1]) /\
  fst (GitOps.getCommitLog (B := InMemory.backend) InMemory.g tt InMemory.dep st)
    = GoError.Ok (map (fun o => GitOps.commitInfo (InMemory.commit o))
                    [InMemory.numbered 3; InMemory.numbered 2; InMemory.numbered 1]) /\
  fst (GitOps.getRecentCommits (B := InMemory.backend) InMemory.g tt 300 st)
    = GoError.Ok (map (fun o => GitOps.commitInfo (InMemory.commit o))
                    [InMemory.numbered 8; InMemory.numbered 7]) /\
  fst (GitOps.getCommitLog (B := InMemory.backend) InMemory.g tt InMemory.dep st) <>
  fst (GitOps.getRecentCommits (B := InMemory.backend) InMemory.g tt 300 st).
Proof.
  cbv zeta. repeat (split; [by vm_compute|]). vm_compute. discriminate.
Qed.

Lemma unreachable_boundary_walks_on_witness :
  fst (GitOps.getCommitLog (B := InMemory.backend) InMemory.g tt InMemory.dep (InMemory.start InMemory.divergent))
  = GoError.Ok
      (firstn 200
         (map GitOps.commitInfo
            (map InMemory.commit [InMemory.numbered 3; InMemory.numbered 2; InMemory.numbered 1]))).
Proof.
  apply (unreachable_boundary_walks_on (B := InMemory.backend) InMemory.g tt InMemory.dep
           (InMemory.start InMemory.divergent) (InMemory.name 8) (InMemory.name 3)
           (InMemory.commit (InMemory.numbered 8)) (InMemory.commit (InMemory.numbered 3))
           (object.MkCommitIter
              (map InMemory.commit [InMemory.numbered 3; InMemory.numbered 2; InMemory.numbered 1]) None)).
  - reflexivity.
  - reflexivity.
  - reflexivity.
  - reflexivity.
  - reflexivity.
  - reflexivity.
  - intros c [<-|[<-|[<-|[]]]]; vm_compute; discriminate.
Defined.

(* ===================================================================== *)
(** ** [GitOperations]: equal versions, references, repository URL *)
(* ===================================================================== *)

Section Resolution.

Import GoError Models GitOps.
Context `{B : git.Backend}.
Variable g : GitOperations.

Lemma firstResolved_Some repo w refs hash :
  firstResolved repo refs w = Some hash <->
  exists i ref,
    refs !! i = Some ref /\ git.ResolveRevision repo ref w = Ok hash /\
    forall j ref', (j < i)%nat -> refs !! j = Some ref' ->
                   exists e, git.ResolveRevision repo ref' w = Fail e.
Proof.
  induction refs as [|ref0 refs IH]; cbn [firstResolved].
  - split; [discriminate|]. by intros (i & ref & Hi & _).
  - destruct (git.ResolveRevision repo ref0 w) as [h0|e0] eqn:H0.
    + split.
      * intros [= ->]. exists 0%nat, ref0. split; [done|]. split; [done|]. lia.
      * intros (i & ref & Hi & Hres & Hbefore).
        destruct i as [|i].
        -- cbn in Hi. injection Hi as <-. congruence.
        -- destruct (Hbefore 0%nat ref0) as [e He]; [lia|done|]. congruence.
    + rewrite IH. split.
      * intros (i & ref & Hi & Hres & Hbefore).
        exists (S i), ref. split; [done|]. split; [done|].
        intros [|j] ref' Hj Hl; cbn in Hl.
        -- injection Hl as <-. eauto.
        -- apply (Hbefore j); [lia|done].
      * intros (i & ref & Hi & Hres & Hbefore).
        destruct i as [|i].
        -- cbn in Hi. injection Hi as <-. congruence.
        -- exists i, ref. split; [done|]. split; [done|].
           intros j ref' Hj Hl. apply (Hbefore (S j)); [lia|done].
Qed.

Lemma firstResolved_None repo w refs :
  firstResolved repo refs w = None <->
  forall ref, In ref refs -> exists e, git.ResolveRevision repo ref w = Fail e.
Proof.
  induction refs as [|ref0 refs IH]; cbn [firstResolved].
  - split; [by intros _ ref []|done].
  - destruct (git.ResolveRevision repo ref0 w) as [h0|e0] eqn:H0.
    + split; [discriminate|]. intros Hall.
      destruct (Hall ref0) as [e He]; [by left|congruence].
    + rewrite IH. split.
      * intros Hall ref [<-|Hin]; eauto.
      * intros Hall ref Hin. apply Hall. by right.
Qed.

(** C6: [resolveVersionRef] looks the version up under the four
    spellings [refs/tags/<v>], [refs/tags/v<v>], [<v>], [v<v>], in that
    order; it returns the hash of the first spelling that
    [ResolveRevision] resolves, and its error exactly when none of the
    four resolves.  It changes nothing. *)
Theorem resolveVersionRef_first_spelling repo versionStr st :
  let spellings :=
    [ "refs/tags/" +:+ versionStr; "refs/tags/v" +:+ versionStr;
      versionStr; "v" +:+ versionStr ] in
  let resolves ref := git.ResolveRevision repo ref (world st) in
  snd (resolveVersionRef g repo versionStr st) = st /\
  (forall hash,
     fst (resolveVersionRef g repo versionStr st) = Ok hash <->
     exists i ref,
       spellings !! i = Some ref /\ resolves ref = Ok hash /\
       forall j ref', (j < i)%nat -> spellings !! j = Some ref' ->
                      exists e, resolves ref' = Fail e) /\
  ((exists e, fst (resolveVersionRef g repo versionStr st) = Fail e) <->
   forall ref, In ref spellings -> exists e, resolves ref = Fail e) /\
  (forall e,
     fst (resolveVersionRef g repo versionStr st) = Fail e ->
     e = Errorf ("could not resolve version reference for " +:+ versionStr)).
Proof.
  cbv zeta. split; [reflexivity|].
  rewrite resolveVersionRef_fst.
  change [ "refs/tags/" +:+ versionStr; "refs/tags/v" +:+ versionStr;
           versionStr; "v" +:+ versionStr ] with (versionRefs versionStr).
  pose proof (firstResolved_Some repo (world st) (versionRefs versionStr)) as HS.
  pose proof (firstResolved_None repo (world st) (versionRefs versionStr)) as HN.
  destruct (firstResolved repo (versionRefs versionStr) (world st)) as [h|].
  - split; [|split].
    + intros hash. rewrite <- HS. split; congruence.
    + split; [by intros [e He]|].
      intros Hall. apply HN in Hall. discriminate.
    + discriminate.
  - split; [|split].
    + intros hash. rewrite <- HS. split; discriminate.
    + split; [intros _; by apply HN|eauto].
    + by intros e [= <-].
Qed.

End Resolution.

(** The version "1.0.0" of [InMemory.tagged] is found under the second
    spelling, [refs/tags/v1.0.0]. *)
Example resolveVersionRef_second_spelling :
  git.ResolveRevision (Backend := InMemory.backend) tt "refs/tags/1.0.0" InMemory.tagged
    = GoError.Fail (GoError.errorString "reference not found") /\
  fst (GitOps.resolveVersionRef (B := InMemory.backend) InMemory.g tt "1.0.0"
         (InMemory.start InMemory.tagged))
    = GoError.Ok (InMemory.name 1).
Proof. split; reflexivity. Qed.

Section ShortCircuit.

Import GoError Models GitOps.
Context `{S : Host.System}.
Variable g : GitOperations.

(** C5 (amended): when the current and the latest version are the same
    string, [GetCommitsBetweenVersions] returns no record and no error,
    and it does so before anything else: the world and the output are
    as they were, so no directory was made, nothing was cloned, fetched,
    resolved or walked.  This holds for every backend and in both
    variants of the package, the one over go-git and the one over the
    git command line.  What is returned is the bare empty list. *)
Theorem same_version_short_circuits dep st :
  CurrentVersion dep = LatestVersion dep ->
  GitOps.GetCommitsBetweenVersions g dep st = (Ok [], st) /\
  GitCli.GetCommitsBetweenVersions g dep st = (Ok [], st).
Proof.
  intros Heq.
  unfold GitOps.GetCommitsBetweenVersions, GitCli.GetCommitsBetweenVersions.
  by rewrite Heq, String.eqb_refl.
Qed.

End ShortCircuit.

Lemma same_version_short_circuits_witness :
  GitOps.GetCommitsBetweenVersions (B := Disk.backend) InMemory.g InMemory.upToDate
    (Disk.start Disk.healthy)
  = (GoError.Ok [], Disk.start Disk.healthy) /\
  GitCli.GetCommitsBetweenVersions (S := Transcript.system) InMemory.g
    InMemory.upToDate (Disk.start Disk.healthy)
  = (GoError.Ok [], Disk.start Disk.healthy).
Proof.
  apply (same_version_short_circuits (S := Transcript.system) InMemory.g
           InMemory.upToDate (Disk.start Disk.healthy)).
  reflexivity.
Defined.

(** C5, as the spec words it: the result of the short circuit would be
    an empty result marked as an exact range.  The result is the empty
    list and nothing else: the same value is returned, for two versions
    that differ, by the fallback on [NoRecords.hollow], where neither
    version resolves and the walk from the head yields no commit, and by
    the exact walk on [NoRecords.twice], where both versions are tags of
    one commit. *)
Lemma short_circuit_result_carries_no_mark :
  Models.CurrentVersion InMemory.dep <> Models.LatestVersion InMemory.dep /\
  (exists e, fst (GitOps.resolveVersionRef (B := InMemory.backend) InMemory.g tt "1.0.0"
                    (InMemory.start NoRecords.hollow)) = GoError.Fail e) /\
  (exists h, fst (GitOps.resolveVersionRef (B := InMemory.backend) InMemory.g tt "1.0.0"
                    (InMemory.start NoRecords.twice)) = GoError.Ok h /\
             fst (GitOps.resolveVersionRef (B := InMemory.backend) InMemory.g tt "1.1.0"
                    (InMemory.start NoRecords.twice)) = GoError.Ok h) /\
  fst (GitOps.GetCommitsBetweenVersions (B := InMemory.backend) InMemory.g
         InMemory.upToDate (InMemory.start InMemory.tagged)) = GoError.Ok [] /\
  fst (GitOps.GetCommitsBetweenVersions (B := InMemory.backend) InMemory.g
         InMemory.dep (InMemory.start NoRecords.hollow)) = GoError.Ok [] /\
  fst (GitOps.GetCommitsBetweenVersions (B := InMemory.backend) InMemory.g
         InMemory.dep (InMemory.start NoRecords.twice)) = GoError.Ok [].
Proof.
  split; [vm_compute; discriminate|].
  split; [eexists; vm_compute; reflexivity|].
  split; [eexists; split; vm_compute; reflexivity|].
  repeat split; vm_compute; reflexivity.
Qed.

(** C7, as the spec words it: the function would be pure.  For a module
    path on an unknown host it prints a warning, which a caller sees in
    the output. *)
Lemma best_guess_prints_a_warning :
  GitOps.determineRepositoryURL (B := InMemory.backend) InMemory.g "example.com/lib"
    (InMemory.start InMemory.bare)
  = ("https://example.com/lib.git",
     GitOps.MkState (B := InMemory.backend) InMemory.bare
       [(Utils.WARN, "Unknown repository host for example.com/lib, using best guess")]) /\
  snd (GitOps.determineRepositoryURL (B := InMemory.backend) InMemory.g "example.com/lib"
         (InMemory.start InMemory.bare))
  <> InMemory.start InMemory.bare.
Proof.
  split; [reflexivity|]. vm_compute. discriminate.
Qed.

(* ===================================================================== *)
(** ** More on the classifier *)
(* ===================================================================== *)

Section Classifier.

Import GoRegexp Models Analyzer Keyword Ascii7.
Local Open Scope Z_scope.

(** X1: With no breaking change, no fix and no optimization, records that
    add features are approved, and the reason counts them. *)
Theorem features_alone_approve (commits : list CommitInfo) :
  sliceLen commits ->
  matching breakRe commits = 0 ->
  matching fixRe commits = 0 ->
  matching perfRe commits = 0 ->
  0 < matching featureRe commits ->
  AnalyzeCommits commits =
    (true, GoFmt.Sprintf_d (matching featureRe commits) +:+ " new features", "").
Proof.
  intros Hlen Hb Hf Hp Hn.
  destruct (countCommits_tallied (map_to_list patterns) commits
              (reflexivity _) Hlen) as [Hf' Hp' Hb' Hn'].
  unfold AnalyzeCommits, AnalyzeCommitsIn, decide_, formatFeatureReason.
  rewrite Hf', Hp', Hb', Hn', Hb, Hf, Hp. cbn.
  destruct (Z.gtb_spec (matching featureRe commits) 0); [done|lia].
Qed.

Lemma features_alone_approve_witness :
  AnalyzeCommits [Sample.record "feat: add cache"; Sample.record "add a new flag"]
  = (true, "2 new features", "").
Proof.
  apply (features_alone_approve
           [Sample.record "feat: add cache"; Sample.record "add a new flag"]).
  - unfold sliceLen, GoFmt.maxInt. simpl. lia.
  - reflexivity.
  - reflexivity.
  - reflexivity.
  - reflexivity.
Defined.

(** The loop over the commits leaves in [counts[category]] the number
    of matching messages, also when each commit has its own visiting
    order. *)
Lemma get_countCommitsFrom orderOf commits category re :
  (forall i, NoDup (orderOf i).*1 /\ (category, re) ∈ orderOf i) ->
  forall i counts,
    0 <= get counts category ->
    get counts category + Z.of_nat (length commits) <= GoFmt.maxInt ->
    get (MapOrder.countCommitsFrom orderOf i commits counts) category =
    get counts category + matching re commits.
Proof.
  intros Horder.
  induction commits as [|c commits IH]; intros i counts Hpos Hfit.
  - unfold matching; simpl; lia.
  - cbn [MapOrder.countCommitsFrom]. simpl length in Hfit.
    destruct (Horder i) as [Hnd Hin].
    assert (Hstep := get_rangePatterns (orderOf i) (Message c) counts category re
                       Hnd Hin).
    pose proof (matching_bounds re commits) as Hb.
    rewrite matching_cons.
    rewrite IH; rewrite Hstep;
      destruct (MatchString re (Message c));
      rewrite ?incr_small by lia; lia.
Qed.

Lemma countCommitsFrom_tallied orderOf commits :
  (forall i, orderOf i ≡ₚ map_to_list patterns) -> sliceLen commits ->
  Tallied (MapOrder.countCommitsFrom orderOf 0 commits initialCounts) commits.
Proof.
  intros Hperm Hlen. unfold sliceLen in Hlen.
  assert (forall category re, patterns !! category = Some re ->
            forall i, NoDup (orderOf i).*1 /\ (category, re) ∈ orderOf i) as Hin.
  { intros category re Hl i. split.
    - rewrite (Hperm i). apply NoDup_fst_map_to_list.
    - rewrite (Hperm i). by apply elem_of_map_to_list. }
  split.
  - rewrite (get_countCommitsFrom orderOf commits "fix" fixRe); try done.
    by apply Hin.
  - rewrite (get_countCommitsFrom orderOf commits "perf" perfRe); try done.
    by apply Hin.
  - rewrite (get_countCommitsFrom orderOf commits "break" breakRe); try done.
    by apply Hin.
  - rewrite (get_countCommitsFrom orderOf commits "feature" featureRe); try done.
    by apply Hin.
Qed.

(** X2: Go draws the order of the range over [patterns] anew for each
    commit.  Whatever order is drawn for which commit, the loops leave
    in [counts] one tally per category, each the number of records whose
    message matches that category's pattern, none influenced by the
    others. *)
Theorem counts_tally_each_category (orderOf : nat -> list (string * Regexp))
    (commits : list CommitInfo) :
  (forall i, orderOf i ≡ₚ map_to_list patterns) ->
  sliceLen commits ->
  let counts := MapOrder.countCommitsFrom orderOf 0 commits initialCounts in
  get counts "fix" = matching fixRe commits /\
  get counts "perf" = matching perfRe commits /\
  get counts "break" = matching breakRe commits /\
  get counts "feature" = matching featureRe commits.
Proof.
  intros Hperm Hlen.
  destruct (countCommitsFrom_tallied orderOf commits Hperm Hlen) as [Hf Hp Hb Hn].
  cbv zeta. auto.
Qed.

Lemma alternating_permutes i : MapOrder.alternating i ≡ₚ map_to_list patterns.
Proof.
  change (map_to_list patterns)
    with [("feature", featureRe); ("fix", fixRe); ("break", breakRe); ("perf", perfRe)].
  unfold MapOrder.alternating. destruct (Nat.even i); solve_Permutation.
Qed.

Lemma counts_tally_each_category_witness :
  let counts :=
    MapOrder.countCommitsFrom MapOrder.alternating 0
      [Sample.record "fix: remove the slow path, add a faster one";
       Sample.record "perf: speed up the new parser"] initialCounts in
  get counts "fix" = 1 /\ get counts "perf" = 2 /\
  get counts "break" = 1 /\ get counts "feature" = 2.
Proof.
  apply (counts_tally_each_category MapOrder.alternating
           [Sample.record "fix: remove the slow path, add a faster one";
            Sample.record "perf: speed up the new parser"]).
  - exact alternating_permutes.
  - unfold sliceLen, GoFmt.maxInt. simpl. lia.
Defined.

(** X3: The verdict does not depend on the orders that Go draws for the
    ranges over [patterns], one for each commit: whatever they are, the
    loops and the decision give what [AnalyzeCommits] gives. *)
Theorem verdict_ignores_map_order (orderOf : nat -> list (string * Regexp))
    (commits : list CommitInfo) :
  (forall i, orderOf i ≡ₚ map_to_list patterns) ->
  sliceLen commits ->
  MapOrder.AnalyzeCommitsBy orderOf commits = AnalyzeCommits commits.
Proof.
  intros Hperm Hlen.
  destruct (countCommitsFrom_tallied orderOf commits Hperm Hlen) as [Hf Hp Hb Hn].
  destruct (countCommits_tallied (map_to_list patterns) commits
              (reflexivity _) Hlen) as [Hf' Hp' Hb' Hn'].
  unfold MapOrder.AnalyzeCommitsBy, AnalyzeCommits, AnalyzeCommitsIn, decide_,
    formatApprovalReason.
  by rewrite Hf, Hp, Hb, Hn, Hf', Hp', Hb', Hn'.
Qed.

Lemma verdict_ignores_map_order_witness :
  MapOrder.AnalyzeCommitsBy MapOrder.alternating Sample.fixPerfFeature
  = AnalyzeCommits Sample.fixPerfFeature.
Proof.
  apply (verdict_ignores_map_order MapOrder.alternating Sample.fixPerfFeature).
  - exact alternating_permutes.
  - unfold sliceLen, GoFmt.maxInt. simpl. lia.
Defined.

Lemma append_not_empty (s t : string) : t <> "" -> s +:+ t <> "".
Proof.
  intros Ht. destruct s as [|c s]; [done|]. discriminate.
Qed.

Lemma Join_not_empty x rest sep : x <> "" -> GoStrings.Join (x :: rest) sep <> "".
Proof.
  intros Hx. destruct rest as [|y rest]; [done|].
  cbn [GoStrings.Join]. destruct x as [|c x]; [done|]. discriminate.
Qed.

Lemma AnalyzeUpdate_texts (dep : Dependency) (commits : list CommitInfo) :
  let a := AnalyzeUpdate dep commits in
  Dependency_ a = dep /\ Commits a = commits /\
  ((ShouldUpdate a = true /\ UpdateReason a <> "" /\ RejectionReason a = "") \/
   (ShouldUpdate a = false /\ UpdateReason a = "" /\ RejectionReason a <> "")).
Proof.
  cbv zeta. unfold AnalyzeUpdate, AnalyzeCommits, AnalyzeCommitsIn.
  set (counts := countCommits (map_to_list patterns) commits initialCounts).
  unfold decide_.
  destruct (get counts "break" >? 0) eqn:Hb.
  { cbn. split; [done|]. split; [done|]. right. repeat split; try done. }
  destruct (get counts "fix" >? 0) eqn:Hf.
  { cbn. split; [done|]. split; [done|]. left. repeat split; try done.
    unfold formatApprovalReason. rewrite Hf. cbn [app].
    destruct (get counts "perf" >? 0);
      apply Join_not_empty; by apply append_not_empty. }
  destruct (get counts "perf" >? 0) eqn:Hp.
  { cbn. split; [done|]. split; [done|]. left. repeat split; try done.
    unfold formatApprovalReason. rewrite Hf, Hp. cbn [app].
    apply Join_not_empty; by apply append_not_empty. }
  destruct (get counts "feature" >? 0) eqn:Hn.
  { cbn. split; [done|]. split; [done|]. left. repeat split; try done.
    unfold formatFeatureReason. by apply append_not_empty. }
  cbn. split; [done|]. split; [done|]. right. repeat split; done.
Qed.

(** X4: The answer of [AnalyzeUpdate] carries exactly one text: an approved
    update has a reason and no rejection text, an update that is not
    approved has a rejection text and no reason.  The records and the
    dependency are passed through. *)
Theorem analysis_carries_one_text (dep : Dependency) (commits : list CommitInfo) :
  let a := AnalyzeUpdate dep commits in
  Dependency_ a = dep /\ Commits a = commits /\
  ((ShouldUpdate a = true /\ UpdateReason a <> "" /\ RejectionReason a = "") \/
   (ShouldUpdate a = false /\ UpdateReason a = "" /\ RejectionReason a <> "")).
Proof.
  exact (AnalyzeUpdate_texts dep commits).
Qed.

Lemma stripPrefix_Some p : forall s r,
  GoStrings.stripPrefix p s = Some r -> s = p +:+ r.
Proof.
  induction p as [|a p IH]; intros s r; cbn [GoStrings.stripPrefix].
  - by intros [= ->].
  - destruct s as [|b s]; [discriminate|].
    destruct (Ascii.eqb_spec a b) as [->|_]; [|discriminate].
    intros Hr. apply IH in Hr as ->. reflexivity.
Qed.

Ltac leb_cases :=
  repeat match goal with
         | |- context [Nat.leb ?a ?b] => destruct (Nat.leb_spec a b)
         end;
  cbn [andb] in *; try lia.

Lemma toLower_idempotent c : toLower (toLower c) = toLower c.
Proof.
  apply ascii_eq_by_code. rewrite !code_toLower.
  unfold isUpper. rewrite code_toLower. unfold isUpper. leb_cases.
Qed.

Lemma toLower_toUpper c : toLower (toUpper c) = toLower c.
Proof.
  apply ascii_eq_by_code. rewrite !code_toLower.
  unfold isUpper. rewrite code_toUpper. unfold isLower. leb_cases.
Qed.

(** What a pattern byte accepts from an ASCII message is a single byte
    that folds to the same letter. *)
Lemma accepted_ascii c enc s s' :
  In enc (accepted true c) -> GoStrings.stripPrefix enc s = Some s' ->
  allASCII s = true ->
  exists x, s = String x s' /\ toLower x = toLower c.
Proof.
  intros Hin Hstrip Hascii. apply stripPrefix_Some in Hstrip. subst s.
  assert (enc = single (toLower c) \/ enc = single (toUpper c) \/ enc = single c \/
          enc = kelvinSign \/ enc = longS) as Hcases.
  { unfold accepted in Hin. cbn [andb] in Hin.
    destruct (isLower c || isUpper c).
    - destruct Hin as [<-|[<-|Hin]]; [tauto|tauto|].
      destruct (Ascii.eqb (toLower c) "k"); [destruct Hin as [<-|[]]; tauto|].
      destruct (Ascii.eqb (toLower c) "s"); [destruct Hin as [<-|[]]; tauto|].
      destruct Hin.
    - destruct Hin as [<-|[]]. tauto. }
  destruct Hcases as [->|[->|[->|[->| ->]]]].
  - eexists. split; [reflexivity|]. apply toLower_idempotent.
  - eexists. split; [reflexivity|]. apply toLower_toUpper.
  - eexists. split; reflexivity.
  - discriminate Hascii.
  - discriminate Hascii.
Qed.

Lemma matchHere_ascii kw : forall s,
  allASCII s = true -> matchHere true kw s = true ->
  exists mid after, s = mid +:+ after /\ lowerString mid = lowerString kw.
Proof.
  induction kw as [|c kw IH]; intros s Hascii Hm.
  - by exists "", s.
  - cbn [matchHere] in Hm. apply existsb_exists in Hm as (enc & Hin & Hm).
    destruct (GoStrings.stripPrefix enc s) as [s'|] eqn:Hstrip; [|discriminate].
    destruct (accepted_ascii c enc s s' Hin Hstrip Hascii) as (x & -> & Hx).
    cbn [allASCII] in Hascii. apply andb_prop in Hascii as [_ Hascii].
    destruct (IH s' Hascii Hm) as (mid & after & -> & Hmid).
    exists (String x mid), after. split; [reflexivity|].
    cbn [lowerString]. by rewrite Hx, Hmid.
Qed.

Lemma matchAnywhere_ascii kw s :
  allASCII s = true -> matchAnywhere true kw s = true -> occursFoldedIn kw s.
Proof.
  induction s as [|b s IH]; intros Hascii Hm.
  - cbn [matchAnywhere] in Hm. rewrite orb_false_r in Hm.
    destruct (matchHere_ascii kw "" Hascii Hm) as (mid & after & Heq & Hmid).
    by exists "", mid, after.
  - cbn [matchAnywhere] in Hm. apply orb_prop in Hm as [Hm|Hm].
    + destruct (matchHere_ascii kw _ Hascii Hm) as (mid & after & Heq & Hmid).
      by exists "", mid, after.
    + cbn [allASCII] in Hascii. apply andb_prop in Hascii as [_ Hascii].
      destruct (IH Hascii Hm) as (before & mid & after & -> & Hmid).
      by exists (String b before), mid, after.
Qed.

Lemma MatchString_ascii_keyword re msg :
  In re [fixRe; perfRe; breakRe; featureRe] ->
  allASCII msg = true ->
  MatchString re msg = true <->
  exists kw, In kw (alternatives re) /\ occursFoldedIn kw msg.
Proof.
  intros Hre Hascii.
  assert (foldCase re = true) as Hfold.
  { cbn in Hre. destruct Hre as [<-|[<-|[<-|[<-|[]]]]]; reflexivity. }
  split.
  - unfold MatchString. intros Hm. apply existsb_exists in Hm as (kw & Hin & Hm).
    rewrite Hfold in Hm. exists kw. split; [done|]. by apply matchAnywhere_ascii.
  - intros (kw & Hin & Hocc). by apply (MatchString_folded re kw msg).
Qed.

(** X5: On a message of ASCII bytes, each of the four patterns matches
    exactly when one of its words occurs in the message up to the case
    of the letters. *)
Theorem ascii_match_iff_keyword re msg :
  In re [fixRe; perfRe; breakRe; featureRe] ->
  allASCII msg = true ->
  MatchString re msg = true <->
  exists kw, In kw (alternatives re) /\ occursFoldedIn kw msg.
Proof. apply MatchString_ascii_keyword. Qed.

Lemma ascii_match_iff_keyword_witness :
  MatchString perfRe "Speed up parsing" = true <->
  exists kw, In kw ["perf"; "optimize"; "performance"; "speed"; "faster"] /\
             occursFoldedIn kw "Speed up parsing".
Proof.
  apply (ascii_match_iff_keyword perfRe "Speed up parsing").
  - cbn. tauto.
  - reflexivity.
Defined.

(** X6: For records whose messages are ASCII, the update is rejected for
    breaking changes exactly when some message contains "breaking",
    "break", "remove" or "deprecate" up to the case of the letters. *)
Theorem ascii_rejection_iff_keyword (commits : list CommitInfo) :
  sliceLen commits ->
  (forall c, In c commits -> allASCII (Message c) = true) ->
  (exists n, 0 < n /\ AnalyzeCommits commits = (false, "", formatRejectionReason n)) <->
  (exists c kw, In c commits /\ In kw ["breaking"; "break"; "remove"; "deprecate"] /\
                occursFoldedIn kw (Message c)).
Proof.
  intros Hlen Hascii.
  destruct (countCommits_tallied (map_to_list patterns) commits
              (reflexivity _) Hlen) as [_ _ Hb _].
  split.
  - intros (n & Hn & Hres).
    assert (0 < matching breakRe commits) as Hpos.
    { destruct (Z.ltb_spec 0 (matching breakRe commits)) as [|Hle]; [done|].
      exfalso. revert Hres. unfold AnalyzeCommits, AnalyzeCommitsIn, decide_.
      rewrite Hb. destruct (Z.gtb_spec (matching breakRe commits) 0); [lia|].
      set (counts := countCommits (map_to_list patterns) commits initialCounts).
      destruct (_ || _); [discriminate|].
      destruct (get counts "feature" >? 0); discriminate. }
    apply matching_pos in Hpos as (c & Hin & Hm).
    apply (MatchString_ascii_keyword breakRe) in Hm as (kw & Hkw & Hocc);
      [|cbn; tauto|by apply Hascii].
    exists c. cbn in Hkw.
    destruct Hkw as [<-|[<-|[<-|[<-|[<-|[]]]]]];
      [exists "breaking"|exists "break"|exists "remove"|exists "deprecate"
      |exists "breaking"]; (split; [done|]); (split; [cbn; tauto|]); exact Hocc.
  - intros (c & kw & Hin & Hkw & Hocc).
    assert (MatchString breakRe (Message c) = true) as Hm.
    { apply (MatchString_folded breakRe kw); [done| |done]. cbn in *. tauto. }
    assert (0 < matching breakRe commits) as Hpos by (apply matching_pos; eauto).
    exists (matching breakRe commits). split; [done|].
    unfold AnalyzeCommits, AnalyzeCommitsIn, decide_. rewrite Hb.
    destruct (Z.gtb_spec (matching breakRe commits) 0); [done|lia].
Qed.

Lemma ascii_rejection_iff_keyword_witness :
  (exists n, 0 < n /\
             AnalyzeCommits Sample.removal = (false, "", formatRejectionReason n)) <->
  (exists c kw, In c Sample.removal /\
                In kw ["breaking"; "break"; "remove"; "deprecate"] /\
                occursFoldedIn kw (Message c)).
Proof.
  apply (ascii_rejection_iff_keyword Sample.removal).
  - unfold sliceLen, GoFmt.maxInt. simpl. lia.
  - intros c [<-|[<-|[]]]; reflexivity.
Defined.

End Classifier.

(* ===================================================================== *)
(** ** [strings.Split] on a one-byte separator *)
(* ===================================================================== *)

Section Splitting.

Import GoStrings GoText.
Local Arguments String.append !_ _ /.

Lemma append_assoc (a b c : string) : (a +:+ b) +:+ c = a +:+ b +:+ c.
Proof. induction a as [|x a IH]; [done|]. cbn. by rewrite IH. Qed.

Lemma append_empty_r (a : string) : a +:+ "" = a.
Proof. induction a as [|x a IH]; [done|]. cbn. by rewrite IH. Qed.

Lemma length_append (a b : string) :
  String.length (a +:+ b) = (String.length a + String.length b)%nat.
Proof. induction a as [|x a IH]; [done|]. cbn. by rewrite IH. Qed.

Lemma hasByte_append c a b : hasByte c (a +:+ b) = hasByte c a || hasByte c b.
Proof.
  induction a as [|x a IH]; [done|]. cbn. rewrite IH. by rewrite orb_assoc.
Qed.

Lemma HasPrefix_byte c x s : HasPrefix (String x s) (String c "") = Ascii.eqb c x.
Proof. unfold HasPrefix. cbn. by destruct (Ascii.eqb c x). Qed.

(** The scan cuts a field at the first separator byte ... *)
Lemma splitFrom_cut c a : forall rest cur,
  hasByte c a = false ->
  splitFrom (String c "") (a +:+ String c rest) cur 0 =
    (cur +:+ a) :: splitFrom (String c "") rest "" 0.
Proof.
  induction a as [|x a IH]; intros rest cur Hno.
  - change ("" +:+ String c rest) with (String c rest).
    cbn [splitFrom]. rewrite HasPrefix_byte, Ascii.eqb_refl.
    by rewrite append_empty_r.
  - cbn in Hno. apply orb_false_elim in Hno as [Hx Hno].
    change (String x a +:+ String c rest) with (String x (a +:+ String c rest)).
    cbn [splitFrom]. rewrite HasPrefix_byte, Hx.
    rewrite IH by done. by rewrite append_assoc.
Qed.

(** ... and ends with what is left. *)
Lemma splitFrom_last c a : forall cur,
  hasByte c a = false -> splitFrom (String c "") a cur 0 = [cur +:+ a].
Proof.
  induction a as [|x a IH]; intros cur Hno.
  - cbn. by rewrite append_empty_r.
  - cbn in Hno. apply orb_false_elim in Hno as [Hx Hno].
    cbn [splitFrom]. rewrite HasPrefix_byte, Hx.
    rewrite IH by done. by rewrite append_assoc.
Qed.

Lemma Split_cut c a rest :
  hasByte c a = false ->
  Split (a +:+ String c rest) (String c "") = a :: Split rest (String c "").
Proof. intros Hno. unfold Split. by rewrite splitFrom_cut. Qed.

Lemma Split_last c a :
  hasByte c a = false -> Split a (String c "") = [a].
Proof. intros Hno. unfold Split. by rewrite splitFrom_last. Qed.

(** The first field is the text before the first separator, and there
    is always one. *)
Lemma splitFrom_head c s : forall cur,
  exists tl, splitFrom (String c "") s cur 0 = (cur +:+ upTo c s) :: tl.
Proof.
  induction s as [|x s IH]; intros cur.
  - exists []. cbn. by rewrite append_empty_r.
  - cbn [splitFrom upTo]. rewrite HasPrefix_byte.
    destruct (Ascii.eqb c x).
    + eexists. by rewrite append_empty_r.
    + destruct (IH (cur +:+ String x "")) as [tl ->]. exists tl.
      by rewrite append_assoc.
Qed.

Lemma Split_head c s : exists tl, Split s (String c "") = upTo c s :: tl.
Proof. unfold Split. apply (splitFrom_head c s ""). Qed.

Lemma upTo_append c a b :
  hasByte c a = false -> upTo c (a +:+ b) = a +:+ upTo c b.
Proof.
  induction a as [|x a IH]; intros Hno; [done|].
  cbn in Hno. apply orb_false_elim in Hno as [Hx Hno].
  cbn. by rewrite Hx, IH.
Qed.

Lemma hasByte_upTo c s : hasByte c (upTo c s) = false.
Proof.
  induction s as [|x s IH]; [done|]. cbn.
  destruct (Ascii.eqb c x) eqn:Hx; [done|]. cbn. by rewrite Hx, IH.
Qed.

Lemma from_append (a b : string) : from (String.length a) (a +:+ b) = b.
Proof. induction a as [|x a IH]; [by destruct b|]. cbn. exact IH. Qed.

Lemma HasSuffix_append (a suffix : string) : HasSuffix (a +:+ suffix) suffix = true.
Proof.
  unfold HasSuffix. rewrite length_append.
  replace (String.length a + String.length suffix - String.length suffix)%nat
    with (String.length a) by lia.
  rewrite from_append, String.eqb_refl, andb_true_r.
  apply Nat.leb_le. lia.
Qed.

End Splitting.

(* ===================================================================== *)
(** ** More on [determineRepositoryURL] *)
(* ===================================================================== *)

Section RepositoryURL.

Import GoError Models GitOps GoStrings GoText.
Context `{B : git.Backend}.
Variable g : GitOperations.
Local Arguments String.append !_ _ /.

(** X7: Every URL that [determineRepositoryURL] returns starts with
    ["https://"] and ends with [".git"]. *)
Theorem repository_url_is_https_git modulePath st :
  let url := fst (determineRepositoryURL g modulePath st) in
  HasPrefix url "https://" = true /\ HasSuffix url ".git" = true.
Proof.
  cbv zeta. unfold determineRepositoryURL, bestGuess, bind, say, ret.
  repeat match goal with
         | |- context [if ?b then _ else _] => destruct b
         end; cbn [fst]; (split; [reflexivity|]);
    rewrite <- ?append_assoc; apply HasSuffix_append.
Qed.

Lemma gopkg_package_url pkg version st :
  hasByte "/" pkg = false -> hasByte "." pkg = false ->
  hasByte "/" version = false ->
  determineRepositoryURL g ("gopkg.in/" +:+ pkg +:+ "." +:+ version) st
  = ("https://github.com/go-" +:+ pkg +:+ "/" +:+ pkg +:+ ".git", st).
Proof.
  intros Hslash Hdot Hvslash.
  unfold determineRepositoryURL.
  change (HasPrefix ("gopkg.in/" +:+ pkg +:+ "." +:+ version) "github.com/") with false.
  change (HasPrefix ("gopkg.in/" +:+ pkg +:+ "." +:+ version) "gitlab.com/") with false.
  change (HasPrefix ("gopkg.in/" +:+ pkg +:+ "." +:+ version) "bitbucket.org/") with false.
  change (HasPrefix ("gopkg.in/" +:+ pkg +:+ "." +:+ version) "gopkg.in/") with true.
  cbn [orb]. cbv zeta.
  change ("gopkg.in/" +:+ pkg +:+ "." +:+ version)
    with ("gopkg.in" +:+ String "/" (pkg +:+ "." +:+ version)).
  rewrite (Split_cut "/" "gopkg.in") by reflexivity.
  rewrite (Split_last "/" (pkg +:+ "." +:+ version))
    by (rewrite !hasByte_append, Hslash, Hvslash; reflexivity).
  cbn [length Nat.leb Nat.eqb nth].
  change (pkg +:+ "." +:+ version) with (pkg +:+ String "." version).
  rewrite (Split_cut "." pkg) by done.
  destruct (Split_head "." version) as [tl ->].
  reflexivity.
Qed.

(** X8: A two-segment gopkg.in path [gopkg.in/<pkg>.<version>] is sent to
    the repository [github.com/go-<pkg>/<pkg>], without a warning. *)
Theorem gopkg_package_rule pkg version st :
  hasByte "/" pkg = false -> hasByte "." pkg = false ->
  hasByte "/" version = false ->
  determineRepositoryURL g ("gopkg.in/" +:+ pkg +:+ "." +:+ version) st
  = ("https://github.com/go-" +:+ pkg +:+ "/" +:+ pkg +:+ ".git", st).
Proof. apply gopkg_package_url. Qed.

Lemma gopkg_user_package_url user pkg rest st :
  hasByte "/" user = false ->
  hasByte "/" pkg = false -> hasByte "." pkg = false ->
  determineRepositoryURL g ("gopkg.in/" +:+ user +:+ "/" +:+ pkg +:+ "." +:+ rest) st
  = ("https://github.com/" +:+ user +:+ "/" +:+ pkg +:+ ".git", st).
Proof.
  intros Huser Hslash Hdot.
  unfold determineRepositoryURL.
  set (path := "gopkg.in/" +:+ user +:+ "/" +:+ pkg +:+ "." +:+ rest).
  change (HasPrefix path "github.com/") with false.
  change (HasPrefix path "gitlab.com/") with false.
  change (HasPrefix path "bitbucket.org/") with false.
  change (HasPrefix path "gopkg.in/") with true.
  cbn [orb]. cbv zeta. subst path.
  change ("gopkg.in/" +:+ user +:+ "/" +:+ pkg +:+ "." +:+ rest)
    with ("gopkg.in" +:+ String "/" (user +:+ String "/" (pkg +:+ "." +:+ rest))).
  rewrite (Split_cut "/" "gopkg.in") by reflexivity.
  rewrite (Split_cut "/" user) by done.
  destruct (Split_head "/" (pkg +:+ "." +:+ rest)) as [tl ->].
  cbn [length Nat.leb Nat.eqb nth].
  rewrite upTo_append by done.
  change (upTo "/" ("." +:+ rest)) with (String "." (upTo "/" rest)).
  rewrite (Split_cut "." pkg) by done.
  destruct (Split_head "." (upTo "/" rest)) as [tl' ->].
  reflexivity.
Qed.

(** X9: A gopkg.in path with a user, [gopkg.in/<user>/<pkg>.<rest>], is
    sent to the repository [github.com/<user>/<pkg>], without a warning
    and whatever follows the first dot, further path segments
    included. *)
Theorem gopkg_user_package_rule user pkg rest st :
  hasByte "/" user = false ->
  hasByte "/" pkg = false -> hasByte "." pkg = false ->
  determineRepositoryURL g ("gopkg.in/" +:+ user +:+ "/" +:+ pkg +:+ "." +:+ rest) st
  = ("https://github.com/" +:+ user +:+ "/" +:+ pkg +:+ ".git", st).
Proof. apply gopkg_user_package_url. Qed.

Lemma gopkg_without_version_url pkg st :
  hasByte "/" pkg = false -> hasByte "." pkg = false ->
  determineRepositoryURL g ("gopkg.in/" +:+ pkg) st
  = ("https://gopkg.in/" +:+ pkg +:+ ".git",
     MkState (world st)
       (Utils.Warn (logger g)
          ("Unknown repository host for gopkg.in/" +:+ pkg +:+ ", using best guess")
          (output st))).
Proof.
  intros Hslash Hdot.
  unfold determineRepositoryURL.
  change (HasPrefix ("gopkg.in/" +:+ pkg) "github.com/") with false.
  change (HasPrefix ("gopkg.in/" +:+ pkg) "gitlab.com/") with false.
  change (HasPrefix ("gopkg.in/" +:+ pkg) "bitbucket.org/") with false.
  change (HasPrefix ("gopkg.in/" +:+ pkg) "gopkg.in/") with true.
  cbn [orb]. cbv zeta.
  change ("gopkg.in/" +:+ pkg) with ("gopkg.in" +:+ String "/" pkg).
  rewrite (Split_cut "/" "gopkg.in") by reflexivity.
  rewrite (Split_last "/" pkg) by done.
  cbn [length Nat.leb Nat.eqb nth].
  rewrite (Split_last "." pkg) by done.
  reflexivity.
Qed.

(** X10: A two-segment gopkg.in path without a dot has no version to strip:
    the path itself is taken as the host, with a warning. *)
Theorem gopkg_without_version_is_guessed pkg st :
  hasByte "/" pkg = false -> hasByte "." pkg = false ->
  determineRepositoryURL g ("gopkg.in/" +:+ pkg) st
  = ("https://gopkg.in/" +:+ pkg +:+ ".git",
     MkState (world st)
       (Utils.Warn (logger g)
          ("Unknown repository host for gopkg.in/" +:+ pkg +:+ ", using best guess")
          (output st))).
Proof. apply gopkg_without_version_url. Qed.

(** A text with the byte [c] is cut at its first [c]. *)
Lemma cut_at_first c s :
  hasByte c s = true -> exists rest, s = upTo c s +:+ String c rest.
Proof.
  induction s as [|x s IH]; [discriminate|]. cbn [hasByte upTo].
  destruct (Ascii.eqb_spec c x) as [->|Hne].
  - intros _. by exists s.
  - cbn [orb]. intros Hin. destruct (IH Hin) as [rest Hrest].
    exists rest. cbn. by rewrite <- Hrest.
Qed.

Lemma upTo_prefix c s : exists rest, s = upTo c s +:+ rest.
Proof.
  induction s as [|x s IH]; [by exists ""|]. cbn [upTo].
  destruct (Ascii.eqb c x); [by exists (String x s)|].
  destruct IH as [rest Hrest]. exists rest. cbn. by rewrite <- Hrest.
Qed.

Lemma HasPrefix_Some s p : HasPrefix s p = true -> exists rest, s = p +:+ rest.
Proof.
  unfold HasPrefix. destruct (stripPrefix p s) as [rest|] eqn:Hstrip; [|discriminate].
  intros _. exists rest. by apply stripPrefix_Some.
Qed.

Lemma HasPrefix_append p rest : HasPrefix (p +:+ rest) p = true.
Proof.
  unfold HasPrefix. induction p as [|a p IH]; [reflexivity|].
  cbn. by rewrite Ascii.eqb_refl.
Qed.

(** A path on a known host is its own repository. *)
Lemma known_host_url modulePath st :
  HasPrefix modulePath "github.com/" || HasPrefix modulePath "gitlab.com/"
    || HasPrefix modulePath "bitbucket.org/" = true ->
  determineRepositoryURL g modulePath st = ("https://" +:+ modulePath +:+ ".git", st).
Proof. intros Hknown. unfold determineRepositoryURL. by rewrite Hknown. Qed.

(** A path on no known host and not under gopkg.in is guessed. *)
Lemma unknown_host_url modulePath st :
  HasPrefix modulePath "github.com/" || HasPrefix modulePath "gitlab.com/"
    || HasPrefix modulePath "bitbucket.org/" = false ->
  HasPrefix modulePath "gopkg.in/" = false ->
  determineRepositoryURL g modulePath st
  = ("https://" +:+ modulePath +:+ ".git",
     MkState (world st) (Locator.warned modulePath (output st))).
Proof.
  intros Hknown Hgopkg. unfold determineRepositoryURL. by rewrite Hknown, Hgopkg.
Qed.

(** A gopkg.in path with a user whose package segment has no dot is
    guessed. *)
Lemma gopkg_user_without_version_url user rest st :
  hasByte "/" user = false ->
  hasByte "." (upTo "/" rest) = false ->
  determineRepositoryURL g ("gopkg.in/" +:+ user +:+ "/" +:+ rest) st
  = ("https://" +:+ ("gopkg.in/" +:+ user +:+ "/" +:+ rest) +:+ ".git",
     MkState (world st)
       (Locator.warned ("gopkg.in/" +:+ user +:+ "/" +:+ rest) (output st))).
Proof.
  intros Huser Hdot.
  unfold determineRepositoryURL.
  set (path := "gopkg.in/" +:+ user +:+ "/" +:+ rest).
  change (HasPrefix path "github.com/") with false.
  change (HasPrefix path "gitlab.com/") with false.
  change (HasPrefix path "bitbucket.org/") with false.
  change (HasPrefix path "gopkg.in/") with true.
  cbn [orb]. cbv zeta.
  assert (Split path "/" = "gopkg.in" :: user :: Split rest "/") as ->.
  { subst path.
    change ("gopkg.in/" +:+ user +:+ "/" +:+ rest)
      with ("gopkg.in" +:+ String "/" (user +:+ String "/" rest)).
    rewrite (Split_cut "/" "gopkg.in") by reflexivity.
    by rewrite (Split_cut "/" user). }
  destruct (Split_head "/" rest) as [tl ->].
  cbn [length Nat.leb Nat.eqb nth].
  rewrite (Split_last "." (upTo "/" rest)) by done.
  unfold bestGuess, bind, say, ret, Utils.Warn, Locator.warned. reflexivity.
Qed.

End RepositoryURL.

Lemma gopkg_package_rule_witness :
  GitOps.determineRepositoryURL (B := InMemory.backend) InMemory.g "gopkg.in/check.v1"
    (InMemory.start InMemory.bare)
  = ("https://github.com/go-check/check.git", InMemory.start InMemory.bare).
Proof.
  apply (gopkg_package_rule (B := InMemory.backend) InMemory.g "check" "v1"
           (InMemory.start InMemory.bare)); reflexivity.
Defined.

Lemma gopkg_user_package_rule_witness :
  GitOps.determineRepositoryURL (B := InMemory.backend) InMemory.g
    "gopkg.in/natefinch/lumberjack.v2/internal" (InMemory.start InMemory.bare)
  = ("https://github.com/natefinch/lumberjack.git", InMemory.start InMemory.bare).
Proof.
  apply (gopkg_user_package_rule (B := InMemory.backend) InMemory.g
           "natefinch" "lumberjack" "v2/internal" (InMemory.start InMemory.bare));
    reflexivity.
Defined.

Lemma gopkg_without_version_is_guessed_witness :
  GitOps.determineRepositoryURL (B := InMemory.backend) InMemory.g "gopkg.in/yaml"
    (InMemory.start InMemory.bare)
  = ("https://gopkg.in/yaml.git",
     GitOps.MkState (B := InMemory.backend) InMemory.bare
       [(Utils.WARN, "Unknown repository host for gopkg.in/yaml, using best guess")]).
Proof.
  apply (gopkg_without_version_is_guessed (B := InMemory.backend) InMemory.g "yaml"
           (InMemory.start InMemory.bare)); reflexivity.
Defined.

(* ===================================================================== *)
(** ** [determineRepositoryURL] and the rules *)
(* ===================================================================== *)

Section Locating.

Import GoError Models GitOps GoStrings GoText.
Context `{B : git.Backend}.
Variable g : GitOperations.
Local Arguments String.append !_ _ /.

(** Under a rule the URL is the rule's and nothing is printed. *)
Lemma Rule_sound modulePath url st :
  Locator.Rule modulePath url -> determineRepositoryURL g modulePath st = (url, st).
Proof.
  intros [host rest Hhost|pkg version H1 H2 H3|user pkg rest H1 H2 H3].
  - apply known_host_url.
    cbn [In] in Hhost. destruct Hhost as [<-|[<-|[<-|[]]]]; reflexivity.
  - by apply gopkg_package_url.
  - by apply gopkg_user_package_url.
Qed.

Lemma warned_differs modulePath (out : list Utils.Line) :
  Locator.warned modulePath out <> out.
Proof.
  unfold Locator.warned. intros Heq. apply (f_equal length) in Heq.
  rewrite length_app in Heq. cbn [length] in Heq. lia.
Qed.

(** A path is under a rule, or it is guessed with the warning. *)
Lemma Rule_or_guess modulePath st :
  (exists url, Locator.Rule modulePath url) \/
  determineRepositoryURL g modulePath st
  = ("https://" +:+ modulePath +:+ ".git",
     MkState (world st) (Locator.warned modulePath (output st))).
Proof.
  destruct (HasPrefix modulePath "github.com/" || HasPrefix modulePath "gitlab.com/"
            || HasPrefix modulePath "bitbucket.org/") eqn:Hknown.
  { left.
    apply orb_prop in Hknown as [Hknown|Hhost];
      [apply orb_prop in Hknown as [Hhost|Hhost]|];
      apply HasPrefix_Some in Hhost as [rest ->]; eexists;
      apply Locator.KnownHost; cbn [In]; tauto. }
  destruct (HasPrefix modulePath "gopkg.in/") eqn:Hgopkg;
    [|right; by apply unknown_host_url].
  clear Hknown. apply HasPrefix_Some in Hgopkg as [r ->].
  destruct (hasByte "/" r) eqn:Hslash.
  - pose proof (hasByte_upTo "/" r) as Huser.
    destruct (cut_at_first "/" r Hslash) as [r2 Hr].
    set (user := upTo "/" r) in *. clearbody user. subst r.
    destruct (hasByte "." (upTo "/" r2)) eqn:Hdot.
    + left.
      pose proof (hasByte_upTo "." (upTo "/" r2)) as Hpkgdot.
      pose proof (hasByte_upTo "/" r2) as Hsegslash.
      destruct (cut_at_first "." _ Hdot) as [x Hx].
      destruct (upTo_prefix "/" r2) as [t Ht].
      set (pkg := upTo "." (upTo "/" r2)) in *. clearbody pkg.
      rewrite Hx in Hsegslash, Ht. rewrite hasByte_append in Hsegslash.
      apply orb_false_elim in Hsegslash as [Hpkgslash _].
      rewrite Ht, append_assoc. eexists.
      apply (Locator.GopkgUser user pkg (x +:+ t)); done.
    + right. by apply gopkg_user_without_version_url.
  - destruct (hasByte "." r) eqn:Hdot.
    + left.
      pose proof (hasByte_upTo "." r) as Hpkgdot.
      destruct (cut_at_first "." r Hdot) as [version Hr].
      set (pkg := upTo "." r) in *. clearbody pkg. subst r.
      rewrite hasByte_append in Hslash.
      apply orb_false_elim in Hslash as [Hpkgslash Hversion].
      cbn [hasByte] in Hversion. apply orb_false_elim in Hversion as [_ Hversion].
      eexists. apply (Locator.GopkgPackage pkg version); done.
    + right. by apply gopkg_without_version_url.
Qed.

(** C7 (amended): [determineRepositoryURL] returns a URL for every
    module path, the same for every logger, backend and state, and it
    leaves the world alone.  A path on a known host, a path
    [gopkg.in/<pkg>.<version>] and a path [gopkg.in/<user>/<pkg>.<rest>]
    are under a rule: for them the URL is the rule's and nothing is
    printed.  Every other path is on the best-guess path, and only
    there is something printed: one warning, the URL being
    ["https://" + modulePath + ".git"].  For ["gopkg.in/yaml.v3"] the
    URL is ["https://github.com/go-yaml/yaml.git"] and nothing is
    printed. *)
Theorem determineRepositoryURL_total modulePath st :
  (exists url,
     fst (determineRepositoryURL g modulePath st) = url /\
     forall (B' : git.Backend) (g' : GitOperations) (st' : State (B := B')),
       fst (determineRepositoryURL (B := B') g' modulePath st') = url) /\
  world (snd (determineRepositoryURL g modulePath st)) = world st /\
  (forall url, Locator.Rule modulePath url ->
               determineRepositoryURL g modulePath st = (url, st)) /\
  ((exists url, Locator.Rule modulePath url) \/
   ((forall url, ~ Locator.Rule modulePath url) /\
    determineRepositoryURL g modulePath st
    = ("https://" +:+ modulePath +:+ ".git",
       MkState (world st) (Locator.warned modulePath (output st))))) /\
  determineRepositoryURL g "gopkg.in/yaml.v3" st
    = ("https://github.com/go-yaml/yaml.git", st).
Proof.
  split; [|split; [|split; [|split]]].
  - eexists. split; [reflexivity|]. intros B' g' st'.
    unfold determineRepositoryURL, bestGuess, bind, say, ret.
    repeat match goal with
           | |- context [if ?b then _ else _] => destruct b
           end; reflexivity.
  - unfold determineRepositoryURL, bestGuess, bind, say, ret.
    repeat match goal with
           | |- context [if ?b then _ else _] => destruct b
           end; reflexivity.
  - intros url. apply Rule_sound.
  - destruct (Rule_or_guess modulePath st) as [Hrule|Hguess]; [by left|].
    right. split; [|exact Hguess].
    intros url Hrule. apply (Rule_sound _ _ st) in Hrule.
    rewrite Hguess in Hrule. apply (f_equal (fun r => output (snd r))) in Hrule.
    cbn [snd output] in Hrule. by apply warned_differs in Hrule.
  - destruct st as [w out]. reflexivity.
Qed.

End Locating.

(* ===================================================================== *)
(** ** The two walks in closed form *)
(* ===================================================================== *)

Section ClosedForms.

Import GoError Models GitOps Range.
Local Open Scope Z_scope.

(** The loop of [getRecentCommits], exactly. *)
Lemma recent_forEach_exact limit (cs : list object.Commit) ending :
  limit <= GoFmt.maxInt ->
  forall acc n, 0 <= n <= limit ->
  object.forEach (recentStep limit) cs ending (acc, n) =
    if Z.of_nat (length cs) <=? limit - n
    then (ending, (app acc (map commitInfo cs), n + Z.of_nat (length cs)))
    else (Some (limitReached limit),
          (app acc (firstn (Z.to_nat (limit - n)) (map commitInfo cs)), limit)).
Proof.
  intros Hmax. induction cs as [|c cs IH]; intros acc n Hn.
  - cbn [length object.forEach map]. destruct (Z.leb_spec (Z.of_nat 0) (limit - n)); [|lia].
    by rewrite app_nil_r, Z.add_0_r.
  - cbn [object.forEach recentStep].
    destruct (Z.geb_spec n limit) as [Hge|Hlt].
    + cbn [GoError.isErrStop limitReached Errorf].
      destruct (Z.leb_spec (Z.of_nat (length (c :: cs))) (limit - n));
        [exfalso; simpl length in *; lia|].
      replace (limit - n) with 0 by lia. cbn [Z.to_nat firstn].
      rewrite app_nil_r. replace n with limit by lia. reflexivity.
    + rewrite incr_small by lia. rewrite IH by lia.
      cbn [length map].
      destruct (Z.leb_spec (Z.of_nat (length cs)) (limit - (n + 1))),
        (Z.leb_spec (Z.of_nat (S (length cs))) (limit - n)); try lia.
      * rewrite <- app_assoc. cbn [app].
        replace (n + 1 + Z.of_nat (length cs)) with (n + Z.of_nat (S (length cs)))
          by lia.
        reflexivity.
      * rewrite firstn_succ_of_Z by lia.
        replace (limit - (n + 1)) with (limit - n - 1) by lia.
        by rewrite <- app_assoc.
Qed.

(** The loop of [getCommitsBetweenHashes], exactly: it ends at the
    boundary, at the limit or with the iterator, whichever comes first. *)
Lemma between_forEach_exact fromCommit maxCommits (cs : list object.Commit) ending :
  maxCommits <= GoFmt.maxInt ->
  forall acc n, 0 <= n <= maxCommits ->
  let before := beforeBoundary fromCommit cs in
  object.forEach (betweenStep fromCommit maxCommits) cs ending (acc, n) =
    if maxCommits - n <? Z.of_nat (length before)
    then (Some (limitReached maxCommits),
          (app acc (firstn (Z.to_nat (maxCommits - n)) (map commitInfo before)),
           maxCommits))
    else if (length before <? length cs)%nat
    then (Some (Errorf "reached boundary commit"),
          (app acc (map commitInfo before), n + Z.of_nat (length before)))
    else (ending, (app acc (map commitInfo before), n + Z.of_nat (length before))).
Proof.
  intros Hmax. cbv zeta. induction cs as [|c cs IH]; intros acc n Hn.
  - cbn [length object.forEach map beforeBoundary].
    destruct (Z.ltb_spec (maxCommits - n) (Z.of_nat 0)); [lia|].
    cbn [Nat.ltb Nat.leb]. by rewrite app_nil_r, Z.add_0_r.
  - cbn [object.forEach betweenStep beforeBoundary].
    destruct (String.eqb (object.Hash c) (object.Hash fromCommit)) eqn:Hhash.
    + cbn [GoError.isErrStop Errorf length map].
      destruct (Z.ltb_spec (maxCommits - n) (Z.of_nat 0)); [lia|].
      cbn [Nat.ltb Nat.leb]. by rewrite app_nil_r, Z.add_0_r.
    + destruct (Z.geb_spec n maxCommits) as [Hge|Hlt].
      * cbn [GoError.isErrStop limitReached Errorf length].
        destruct (Z.ltb_spec (maxCommits - n)
                    (Z.of_nat (S (length (beforeBoundary fromCommit cs))))); [|lia].
        replace (maxCommits - n) with 0 by lia. cbn [Z.to_nat firstn].
        rewrite app_nil_r. replace n with maxCommits by lia. reflexivity.
      * rewrite incr_small by lia. rewrite IH by lia.
        cbn [length map].
        destruct (Z.ltb_spec (maxCommits - (n + 1))
                    (Z.of_nat (length (beforeBoundary fromCommit cs)))),
          (Z.ltb_spec (maxCommits - n)
             (Z.of_nat (S (length (beforeBoundary fromCommit cs))))); try lia.
        -- rewrite firstn_succ_of_Z by lia.
           replace (maxCommits - (n + 1)) with (maxCommits - n - 1) by lia.
           by rewrite <- app_assoc.
        -- change (S (length (beforeBoundary fromCommit cs)) <? S (length cs))%nat
             with (length (beforeBoundary fromCommit cs) <? length cs)%nat.
           replace (n + 1 + Z.of_nat (length (beforeBoundary fromCommit cs)))
             with (n + Z.of_nat (S (length (beforeBoundary fromCommit cs)))) by lia.
           rewrite <- app_assoc. reflexivity.
Qed.

Lemma beforeBoundary_length fromCommit (cs : list object.Commit) :
  (length (beforeBoundary fromCommit cs) <= length cs)%nat.
Proof.
  induction cs as [|c cs IH]; [done|]. cbn [beforeBoundary].
  destruct (String.eqb _ _); cbn [length]; lia.
Qed.

Lemma beforeBoundary_clear fromCommit (cs : list object.Commit) c :
  In c (beforeBoundary fromCommit cs) -> object.Hash c <> object.Hash fromCommit.
Proof.
  induction cs as [|c0 cs IH]; [done|]. cbn [beforeBoundary].
  destruct (String.eqb_spec (object.Hash c0) (object.Hash fromCommit)) as [|Hne];
    [done|].
  intros [<-|Hin]; [done|by apply IH].
Qed.

End ClosedForms.

(* ===================================================================== *)
(** ** More on the extraction of [GitOperations] *)
(* ===================================================================== *)

Section ExtractionDetails.

Import GoError Models GitOps Range.
Context `{B : git.Backend}.
Variable g : GitOperations.
Variable repo : git.Repository.

Ltac run := unfold bind, read, say, ret, act, act_ in *; cbn [fst snd world output] in *.

Lemma getRecentCommits_closed_form limit st :
  (0 <= limit <= GoFmt.maxInt)%Z ->
  getRecentCommits g repo limit st =
    (match git.Head repo (world st) with
     | Fail err => Fail (Errorf_w "failed to get HEAD reference: " err)
     | Ok headHash =>
         match git.Log repo {| git.From := headHash |} (world st) with
         | Fail err => Fail (Errorf_w "failed to get commit log: " err)
         | Ok iter =>
             let records := map commitInfo (object.yields iter) in
             if (limit <? Z.of_nat (length (object.yields iter)))%Z
             then Ok (firstn (Z.to_nat limit) records)
             else match object.ending iter with
                  | None => Ok records
                  | Some e =>
                      if GoStrings.Contains (Error e) "reached maximum commit limit"
                      then Ok records
                      else Fail (Errorf_w "error iterating commits: " e)
                  end
         end
     end, st).
Proof.
  intros Hlimit. unfold getRecentCommits. run.
  destruct (git.Head repo (world st)) as [headHash|e]; [|reflexivity].
  destruct (git.Log repo _ (world st)) as [iter|e]; [|reflexivity].
  unfold object.ForEach.
  rewrite (recent_forEach_exact limit _ _ (proj2 Hlimit)) by lia.
  rewrite Z.sub_0_r. cbv zeta.
  destruct (Z.leb_spec (Z.of_nat (length (object.yields iter))) limit),
    (Z.ltb_spec limit (Z.of_nat (length (object.yields iter)))); try lia.
  - cbn [app]. destruct (object.ending iter) as [e|]; [|reflexivity].
    by destruct (GoStrings.Contains _ _).
  - cbn [app]. by rewrite limitReached_expected.
Qed.

(** X11: [getRecentCommits] in closed form: it changes nothing; it fails
    when the head or the log cannot be read; it returns the first
    [limit] records when the walk has more than that, without looking at
    how the walk ends; otherwise it returns all the records when the
    walk ends cleanly, and an error, without any record, when the walk
    ends with an error (unless that error's text contains the words of
    the limit error). *)
Theorem recent_walk_in_closed_form limit st :
  (0 <= limit <= GoFmt.maxInt)%Z ->
  getRecentCommits g repo limit st =
    (match git.Head repo (world st) with
     | Fail err => Fail (Errorf_w "failed to get HEAD reference: " err)
     | Ok headHash =>
         match git.Log repo {| git.From := headHash |} (world st) with
         | Fail err => Fail (Errorf_w "failed to get commit log: " err)
         | Ok iter =>
             let records := map commitInfo (object.yields iter) in
             if (limit <? Z.of_nat (length (object.yields iter)))%Z
             then Ok (firstn (Z.to_nat limit) records)
             else match object.ending iter with
                  | None => Ok records
                  | Some e =>
                      if GoStrings.Contains (Error e) "reached maximum commit limit"
                      then Ok records
                      else Fail (Errorf_w "error iterating commits: " e)
                  end
         end
     end, st).
Proof. apply getRecentCommits_closed_form. Qed.

(** X12: [getCommitsBetweenHashes] in closed form: it changes nothing; it
    fails when either commit or the log cannot be read; with more than
    200 records before the boundary it returns the first 200; with the
    boundary met it returns all the records before it, without looking
    at how the walk ends; with neither, it returns all the records when
    the walk ends cleanly and an error, without any record, when the
    walk ends with an error (unless that error reads like one of the
    two stop signals). *)
Theorem exact_walk_in_closed_form from to st :
  getCommitsBetweenHashes g repo from to st =
    (match git.CommitObject repo from (world st) with
     | Fail err => Fail (Errorf_w "failed to get 'from' commit: " err)
     | Ok fromCommit =>
     match git.CommitObject repo to (world st) with
     | Fail err => Fail (Errorf_w "failed to get 'to' commit: " err)
     | Ok toCommit =>
     match git.Log repo {| git.From := object.Hash toCommit |} (world st) with
     | Fail err => Fail (Errorf_w "failed to get commit log: " err)
     | Ok iter =>
         let before := beforeBoundary fromCommit (object.yields iter) in
         let records := map commitInfo before in
         if (200 <? Z.of_nat (length before))%Z then Ok (firstn 200 records)
         else if (length before <? length (object.yields iter))%nat then Ok records
         else match object.ending iter with
              | None => Ok records
              | Some e =>
                  if negb (String.eqb (Error e) "reached boundary commit")
                     && negb (GoStrings.Contains (Error e)
                                "reached maximum commit limit")
                  then Fail (Errorf_w "error iterating commits: " e)
                  else Ok records
              end
     end end end, st).
Proof.
  unfold getCommitsBetweenHashes. run.
  destruct (git.CommitObject repo from (world st)) as [fromCommit|e]; [|reflexivity].
  destruct (git.CommitObject repo to (world st)) as [toCommit|e]; [|reflexivity].
  destruct (git.Log repo _ (world st)) as [iter|e]; [|reflexivity].
  unfold object.ForEach. cbv zeta.
  rewrite (between_forEach_exact fromCommit 200 _ _
             ltac:(unfold GoFmt.maxInt; lia)) by lia.
  cbv zeta. change (200 - 0)%Z with 200%Z. change (Z.to_nat 200) with 200%nat.
  destruct (200 <? Z.of_nat (length (beforeBoundary fromCommit (object.yields iter))))%Z.
  { cbn [app]. reflexivity. }
  destruct (length (beforeBoundary fromCommit (object.yields iter))
              <? length (object.yields iter))%nat.
  { cbn [app]. reflexivity. }
  cbn [app]. destruct (object.ending iter) as [e|]; [|reflexivity].
  by destruct (_ && _).
Qed.

(** The hexadecimal rendering of a hash tells hashes apart. *)
Lemma hexDigit_inj a b :
  (a < 16)%N -> (b < 16)%N -> plumbing.hexDigit a = plumbing.hexDigit b -> a = b.
Proof.
  intros Ha Hb Heq. apply (f_equal N_of_ascii) in Heq. unfold plumbing.hexDigit in Heq.
  rewrite (N_ascii_embedding (if (a <? 10)%N then _ else _)) in Heq
    by (destruct (N.ltb_spec a 10); lia).
  rewrite (N_ascii_embedding (if (b <? 10)%N then _ else _)) in Heq
    by (destruct (N.ltb_spec b 10); lia).
  destruct (N.ltb_spec a 10), (N.ltb_spec b 10); lia.
Qed.

Lemma String__inj h : forall h', plumbing.String_ h = plumbing.String_ h' -> h = h'.
Proof.
  induction h as [|b h IH]; intros [|b' h'] Heq; try done.
  cbn [plumbing.String_] in Heq. injection Heq as Hhi Hlo Hrest.
  apply hexDigit_inj in Hhi;
    [|apply N.Div0.div_lt_upper_bound; pose proof (N_ascii_bounded b); lia
     |apply N.Div0.div_lt_upper_bound; pose proof (N_ascii_bounded b'); lia].
  apply hexDigit_inj in Hlo; [|by apply N.mod_lt|by apply N.mod_lt].
  f_equal; [|by apply IH].
  rewrite <- (ascii_N_embedding b), <- (ascii_N_embedding b'). f_equal.
  rewrite (N.div_mod (N_of_ascii b) 16), (N.div_mod (N_of_ascii b') 16) by done.
  by rewrite Hhi, Hlo.
Qed.

(** X13: The exact walk is exclusive at its boundary: no record that
    [getCommitsBetweenHashes] returns is the commit of [from]. *)
Theorem exact_walk_excludes_boundary from to st commits fromCommit :
  fst (getCommitsBetweenHashes g repo from to st) = Ok commits ->
  git.CommitObject repo from (world st) = Ok fromCommit ->
  forall info, In info commits ->
               Hash info <> plumbing.String_ (object.Hash fromCommit).
Proof.
  intros Hok Hfrom info Hin.
  apply getCommitsBetweenHashes_ok in Hok
    as (fromCommit' & toCommit & iter & Hfrom' & _ & _ & ->).
  rewrite Hfrom in Hfrom'. injection Hfrom' as <-.
  apply list_elem_of_In, (subseteq_take 200), list_elem_of_In in Hin.
  apply in_map_iff in Hin as (c & <- & Hc).
  apply beforeBoundary_clear in Hc. cbn [commitInfo Hash].
  intros Heq. apply Hc. by apply String__inj.
Qed.

Lemma fetchTagsOrWarn_world dep st :
  world (snd (fetchTagsOrWarn g repo dep st)) =
  snd (git.Fetch repo {| git.RefSpecs := ["refs/tags/*:refs/tags/*"];
                         git.Force := true |} (world st)).
Proof.
  unfold fetchTagsOrWarn, fetchTags. run.
  destruct (git.Fetch repo _ (world st)) as [[e|] w]; [|reflexivity].
  by destruct (negb _).
Qed.

Lemma getCommitLog_snd_world dep st :
  world (snd (getCommitLog g repo dep st)) =
  world (snd (fetchTagsOrWarn g repo dep st)).
Proof.
  unfold getCommitLog, resolveVersionRef. run.
  destruct (fetchTagsOrWarn g repo dep st) as [[] st1]. cbn [snd].
  destruct (firstResolved repo (versionRefs (CurrentVersion dep)) (world st1))
    as [currentHash|];
    destruct (firstResolved repo (versionRefs (LatestVersion dep)) (world st1))
      as [latestHash|];
    try (by rewrite getRecentCommits_state).
  pose proof (getCommitsBetweenHashes_state g repo currentHash latestHash st1) as Hst.
  destruct (getCommitsBetweenHashes g repo currentHash latestHash st1) as [r st2].
  cbn [fst snd] in *. subst st2.
  destruct r as [commits|e].
  - by destruct (length commits =? 0)%nat.
  - by rewrite getRecentCommits_state.
Qed.

(** X14: The only thing [getCommitLog] does to the world is the fetch of
    the tags. *)
Theorem getCommitLog_only_fetches dep st :
  world (snd (getCommitLog g repo dep st)) =
  snd (git.Fetch repo {| git.RefSpecs := ["refs/tags/*:refs/tags/*"];
                         git.Force := true |} (world st)).
Proof. by rewrite getCommitLog_snd_world, fetchTagsOrWarn_world. Qed.

(** X15: [getCommitLog] fails only as the walk of recent commits fails: on
    the head, on the log from the head, or on an error that ends that
    walk.  A failed fetch of the tags, a version that does not resolve
    and a failure of the exact walk never reach the caller. *)
Theorem getCommitLog_fails_only_as_recent_walk dep st e :
  fst (getCommitLog g repo dep st) = Fail e ->
  let w := world (snd (fetchTagsOrWarn g repo dep st)) in
  (exists err, git.Head repo w = Fail err /\
               e = Errorf_w "failed to get HEAD reference: " err) \/
  (exists headHash err,
      git.Head repo w = Ok headHash /\
      git.Log repo {| git.From := headHash |} w = Fail err /\
      e = Errorf_w "failed to get commit log: " err) \/
  (exists headHash iter err,
      git.Head repo w = Ok headHash /\
      git.Log repo {| git.From := headHash |} w = Ok iter /\
      object.ending iter = Some err /\
      e = Errorf_w "error iterating commits: " err).
Proof.
  rewrite getCommitLog_fst. cbv zeta.
  set (st1 := snd (fetchTagsOrWarn g repo dep st)).
  assert (fst (getRecentCommits g repo 300 st1) = Fail e ->
          (exists err, git.Head repo (world st1) = Fail err /\
                       e = Errorf_w "failed to get HEAD reference: " err) \/
          (exists headHash err,
              git.Head repo (world st1) = Ok headHash /\
              git.Log repo {| git.From := headHash |} (world st1) = Fail err /\
              e = Errorf_w "failed to get commit log: " err) \/
          (exists headHash iter err,
              git.Head repo (world st1) = Ok headHash /\
              git.Log repo {| git.From := headHash |} (world st1) = Ok iter /\
              object.ending iter = Some err /\
              e = Errorf_w "error iterating commits: " err)) as Hrecent.
  { rewrite getRecentCommits_closed_form by (unfold GoFmt.maxInt; lia). cbn [fst].
    destruct (git.Head repo (world st1)) as [headHash|err] eqn:Hhead;
      [|intros [= <-]; left; exists err; split; reflexivity].
    destruct (git.Log repo _ (world st1)) as [iter|err] eqn:Hlog;
      [|intros [= <-]; right; left; exists headHash, err;
        repeat split; try reflexivity; exact Hlog].
    cbv zeta. destruct (_ <? _)%Z; [discriminate|].
    destruct (object.ending iter) as [err|] eqn:Hend; [|discriminate].
    destruct (GoStrings.Contains _ _); [discriminate|].
    intros [= <-]. right. right. exists headHash, iter, err.
    repeat split; try reflexivity; assumption. }
  destruct (fst (resolveVersionRef g repo (CurrentVersion dep) st1)); [|done].
  destruct (fst (resolveVersionRef g repo (LatestVersion dep) st1)); [|done].
  destruct (fst (getCommitsBetweenHashes g repo _ _ st1)); [discriminate|done].
Qed.

Lemma run_then_remove {A} (m : M A) tempDir st :
  world (snd (bind m (fun res => bind (act_ (git.RemoveAll tempDir))
                                   (fun _ => ret res)) st))
  = git.RemoveAll tempDir (world (snd (m st))).
Proof. unfold bind, act_, ret. by destruct (m st) as [a st']. Qed.

(** X16: Once [os.MkdirTemp] has made the temporary directory,
    [GetCommitsBetweenVersions] ends by removing it, whether the clone
    and the extraction succeed or fail. *)
Theorem temp_dir_is_removed_last dep st tempDir w1 :
  CurrentVersion dep <> LatestVersion dep ->
  git.MkdirTemp "" "dependency-*" (world st) = (Ok tempDir, w1) ->
  exists w2, world (snd (GetCommitsBetweenVersions g dep st)) = git.RemoveAll tempDir w2.
Proof.
  intros Hne Hmk. unfold GetCommitsBetweenVersions.
  apply String.eqb_neq in Hne. rewrite Hne.
  unfold bind at 1. unfold act at 1. rewrite Hmk.
  eexists. apply run_then_remove.
Qed.

(** X17: When the clone fails, [GetCommitsBetweenVersions] returns that
    failure with the URL it tried, and removes the temporary directory:
    no tag is fetched and no history is read. *)
Theorem clone_failure_is_reported dep st tempDir w1 err w2 :
  CurrentVersion dep <> LatestVersion dep ->
  git.MkdirTemp "" "dependency-*" (world st) = (Ok tempDir, w1) ->
  let located := determineRepositoryURL g (Name dep) (MkState w1 (output st)) in
  git.PlainClone tempDir false
    {| git.URL := fst located; git.Depth := 1; git.SingleBranch := true;
       git.NoCheckout := false; git.RecurseSubmodules := git.NoRecurseSubmodules |}
    (world (snd located)) = (Fail err, w2) ->
  GetCommitsBetweenVersions g dep st =
    (Fail (Errorf_w ("failed to clone repository " +:+ fst located +:+ ": ") err),
     MkState (git.RemoveAll tempDir w2) (output (snd located))).
Proof.
  intros Hne Hmk located Hclone. unfold GetCommitsBetweenVersions.
  apply String.eqb_neq in Hne. rewrite Hne.
  unfold bind at 1. unfold act at 1. rewrite Hmk.
  unfold bind at 1. unfold bind at 1. fold located.
  destruct located as [repoURL st2] eqn:Hloc. cbn [fst snd] in Hclone.
  unfold bind at 1. unfold cloneRepository, bind, act, act_, ret.
  rewrite Hclone. reflexivity.
Qed.

End ExtractionDetails.

Lemma recent_walk_in_closed_form_witness :
  fst (GitOps.getRecentCommits (B := InMemory.backend) InMemory.g tt 2
         (InMemory.start InMemory.divergent))
  = GoError.Ok (map (fun o => GitOps.commitInfo (InMemory.commit o))
          [InMemory.numbered 8; InMemory.numbered 7]).
Proof.
  rewrite (recent_walk_in_closed_form (B := InMemory.backend) InMemory.g tt 2
             (InMemory.start InMemory.divergent)).
  - reflexivity.
  - unfold GoFmt.maxInt. lia.
Defined.

Lemma exact_walk_excludes_boundary_witness :
  Forall (fun info => Models.Hash info <> plumbing.String_ (InMemory.name 1))
    (map (fun o => GitOps.commitInfo (InMemory.commit o))
       [InMemory.numbered 4; InMemory.numbered 3; InMemory.numbered 2]).
Proof.
  apply List.Forall_forall.
  apply (exact_walk_excludes_boundary (B := InMemory.backend) InMemory.g tt
           (InMemory.name 1) (InMemory.name 4) (InMemory.start InMemory.tagged)
           _ (InMemory.commit (InMemory.numbered 1))); reflexivity.
Defined.

Lemma getCommitLog_fails_only_as_recent_walk_witness :
  fst (GitOps.getCommitLog (B := InMemory.backend) InMemory.g tt InMemory.dep
         (InMemory.start Disk.headless))
  = GoError.Fail (GoError.errorString
                    "failed to get HEAD reference: reference not found") /\
  exists err,
    git.Head (Backend := InMemory.backend) tt Disk.headless = GoError.Fail err /\
    GoError.errorString "failed to get HEAD reference: reference not found"
    = GoError.Errorf_w "failed to get HEAD reference: " err.
Proof.
  split; [reflexivity|].
  destruct (getCommitLog_fails_only_as_recent_walk (B := InMemory.backend) InMemory.g tt
              InMemory.dep (InMemory.start Disk.headless) _ eq_refl)
    as [H|[(h & err & H & _)|(h & iter & err & H & _)]];
    [exact H|discriminate H|discriminate H].
Defined.

Lemma temp_dir_is_removed_last_witness :
  ~ In "/tmp/dependency-1"
      (Disk.dirs (GitOps.world
                    (snd (GitOps.GetCommitsBetweenVersions (B := Disk.backend)
                            InMemory.g InMemory.dep (Disk.start Disk.healthy))))).
Proof.
  destruct (temp_dir_is_removed_last (B := Disk.backend) InMemory.g InMemory.dep
              (Disk.start Disk.healthy) "/tmp/dependency-1"
              (Disk.MkWorld InMemory.tagged ["/tmp/dependency-1"] false false 0%Z))
    as [w2 Hw2]; [discriminate|reflexivity|].
  rewrite Hw2. cbn [git.RemoveAll Disk.backend Disk.dirs].
  intros Hin. apply filter_In in Hin as [_ Hin].
  rewrite String.eqb_refl in Hin. discriminate.
Defined.

Lemma clone_failure_is_reported_witness :
  GitOps.GetCommitsBetweenVersions (B := Disk.backend) InMemory.g InMemory.dep
    (Disk.start Disk.offline)
  = (GoError.Fail
       (GoError.errorString
          "failed to clone repository https://example.com/lib.git: repository not found"),
     GitOps.MkState (B := Disk.backend) Disk.offline
       [(Utils.WARN, "Unknown repository host for example.com/lib, using best guess")]).
Proof.
  apply (clone_failure_is_reported (B := Disk.backend) InMemory.g InMemory.dep
           (Disk.start Disk.offline) "/tmp/dependency-1"
           (Disk.MkWorld InMemory.tagged ["/tmp/dependency-1"] false true 0%Z)
           (GoError.errorString "repository not found")
           (Disk.MkWorld InMemory.tagged ["/tmp/dependency-1"] false true 0%Z)).
  - discriminate.
  - reflexivity.
  - reflexivity.
Defined.

Lemma GetCommitsBetweenVersions_bounded_witness :
  exists commits,
    fst (GitOps.GetCommitsBetweenVersions (B := InMemory.backend) InMemory.g InMemory.dep
           (InMemory.start InMemory.untagged)) = GoError.Ok commits /\
    (length commits <= 300)%nat.
Proof.
  eexists. split; [vm_compute; reflexivity|].
  match goal with |- (length ?cs <= _)%nat =>
    apply (GetCommitsBetweenVersions_bounded (B := InMemory.backend) InMemory.g
             InMemory.dep (InMemory.start InMemory.untagged) cs eq_refl)
  end.
Defined.

(* ===================================================================== *)
(** ** The command-line variant: parsing the log *)
(* ===================================================================== *)

Section CommandLine.

Import GoError Models GitOps GoStrings GoText LogLine.
Context `{S : Host.System}.
Variable g : GitOperations.
Local Arguments String.append !_ _ /.
Local Open Scope Z_scope.

Ltac run := unfold bind, read, say, ret, act, act_ in *; cbn [fst snd world output] in *.

(** The loop of [parseCommitLog] adds at most what is left of the
    limit. *)
Lemma parseLines_length lines : forall commits n st,
  0 <= n <= 200 ->
  (length (fst (GitCli.parseLines g lines commits n st))
   <= length commits + Z.to_nat (200 - n))%nat.
Proof.
  induction lines as [|line lines IH]; intros commits n st Hn.
  - cbn. lia.
  - cbn [GitCli.parseLines].
    destruct (String.eqb line ""); [by apply IH|].
    destruct (Z.geb_spec n 200) as [Hge|Hlt].
    { run. lia. }
    rewrite incr_small by (unfold GoFmt.maxInt; lia).
    destruct (length (SplitN line "|" 5) <? 4)%nat.
    { specialize (IH commits (n + 1) st). lia. }
    destruct (GitCli.parseCommitDate g _) as [date|e]; run;
      [|destruct (Host.Now (world st)) as [now w']];
      match goal with
      | |- context [GitCli.parseLines g lines ?cs (n + 1) ?st'] =>
          specialize (IH cs (n + 1) st')
      end;
      rewrite length_app in IH; cbn [length] in IH; lia.
Qed.

Lemma parseCommitLog_length output st :
  (length (fst (GitCli.parseCommitLog g output st)) <= 200)%nat.
Proof.
  unfold GitCli.parseCommitLog.
  pose proof (parseLines_length (Split output (String "010" "")) [] 0 st) as H.
  cbn [length] in H. change (Z.to_nat (200 - 0)) with 200%nat in H. lia.
Qed.

Lemma firstRange_length repoDir dep formats : forall st commits,
  fst (GitCli.firstRange g repoDir dep formats st) = Some commits ->
  (length commits <= 200)%nat.
Proof.
  induction formats as [|[current latest] formats IH]; intros st commits.
  - discriminate.
  - cbn [GitCli.firstRange]. unfold bind at 1.
    destruct (GitCli.runGitLog g repoDir current latest st) as [[output|e] st1];
      [|apply IH].
    destruct (0 <? String.length output)%nat; [|apply IH].
    unfold bind at 1. unfold say at 1. unfold bind at 1.
    match goal with
    | |- context [GitCli.parseCommitLog g output ?st2] =>
        pose proof (parseCommitLog_length output st2) as Hlen;
        destruct (GitCli.parseCommitLog g output st2) as [cs st3]
    end.
    cbn [fst] in *. unfold ret. cbn [fst]. by intros [= <-].
Qed.

Lemma cli_getCommitLog_length repoDir dep st commits :
  fst (GitCli.getCommitLog g repoDir dep st) = Ok commits ->
  (length commits <= 200)%nat.
Proof.
  unfold GitCli.getCommitLog. cbv zeta. unfold bind at 1.
  match goal with
  | |- context [GitCli.firstRange g repoDir dep ?fs st] =>
      pose proof (firstRange_length repoDir dep fs st) as Hfirst;
      destruct (GitCli.firstRange g repoDir dep fs st) as [[cs|] st1]
  end.
  - unfold ret. cbn [fst]. intros [= <-]. by apply Hfirst.
  - unfold bind at 1.
    destruct (GitCli.getAllCommits g repoDir st1) as [[output|e] st2]; [|discriminate].
    destruct (String.length output =? 0)%nat.
    + run. intros [= <-]. cbn. lia.
    + unfold bind at 1.
      pose proof (parseCommitLog_length output st2) as Hlen.
      destruct (GitCli.parseCommitLog g output st2) as [cs st3].
      unfold ret. cbn [fst] in *. by intros [= <-].
Qed.

(** X19: In the variant that drives the git command line, every extraction
    that succeeds returns at most 200 records, the fallback to the 300
    most recent commits included: the parser stops at 200. *)
Theorem cli_extraction_has_at_most_200_records dep st commits :
  fst (GitCli.GetCommitsBetweenVersions g dep st) = Ok commits ->
  (length commits <= 200)%nat.
Proof.
  unfold GitCli.GetCommitsBetweenVersions.
  destruct (String.eqb (CurrentVersion dep) (LatestVersion dep)).
  { intros [= <-]. cbn. lia. }
  unfold bind at 1.
  destruct (act (git.MkdirTemp "" "dependency-*") st) as [[tempDir|e] st1];
    [|discriminate].
  unfold bind at 1. unfold bind at 1.
  destruct (determineRepositoryURL g (Name dep) st1) as [repoURL st2].
  unfold bind at 1.
  destruct (GitCli.cloneRepository g repoURL tempDir st2) as [[e|] st3];
    [discriminate|].
  unfold bind at 1.
  destruct (GitCli.fetchTags g tempDir dep st3) as [[] st4].
  unfold bind at 1.
  destruct (GitCli.getCommitLog g tempDir dep st4) as [[cs|e] st5] eqn:Hlog;
    [|discriminate].
  unfold bind, say, ret, act_. cbn [fst snd]. intros [= <-].
  apply (cli_getCommitLog_length tempDir dep st4). by rewrite Hlog.
Qed.

Lemma splitNFrom_cut c a : forall rest cur n,
  hasByte c a = false -> (1 < n)%nat ->
  splitNFrom (String c "") (a +:+ String c rest) cur 0 n =
    (cur +:+ a) :: splitNFrom (String c "") rest "" 0 (n - 1).
Proof.
  induction a as [|x a IH]; intros rest cur n Hno Hn.
  - change ("" +:+ String c rest) with (String c rest).
    cbn [splitNFrom]. rewrite HasPrefix_byte, Ascii.eqb_refl.
    destruct (Nat.ltb_spec 1 n); [|lia]. cbn [andb String.length Nat.sub].
    by rewrite append_empty_r.
  - cbn in Hno. apply orb_false_elim in Hno as [Hx Hno].
    change (String x a +:+ String c rest) with (String x (a +:+ String c rest)).
    cbn [splitNFrom]. rewrite HasPrefix_byte, Hx, andb_false_r.
    rewrite IH by done. by rewrite append_assoc.
Qed.

Lemma splitNFrom_rest sep s : forall cur,
  splitNFrom sep s cur 0 1 = [cur +:+ s].
Proof.
  induction s as [|x s IH]; intros cur.
  - cbn. by rewrite append_empty_r.
  - cbn [splitNFrom]. cbn [Nat.ltb Nat.leb andb]. rewrite IH.
    by rewrite append_assoc.
Qed.

Lemma SplitN_render e :
  wellFormed e = true ->
  SplitN (render e) "|" 5 = [hash e; subject e; date e; author e; body e].
Proof.
  unfold wellFormed, plain. intros Hwf.
  repeat match goal with
         | H : _ && _ = true |- _ => apply andb_prop in H as [? ?]
         | H : negb _ = true |- _ => apply negb_true_iff in H
         end.
  unfold SplitN, render.
  repeat match goal with
         | |- context [?a +:+ "|" +:+ ?x] =>
             change (a +:+ "|" +:+ x) with (a +:+ String "|" x)
         end.
  rewrite (splitNFrom_cut "|" (hash e)) by (done || lia).
  rewrite (splitNFrom_cut "|" (subject e)) by (done || cbn; lia).
  rewrite (splitNFrom_cut "|" (date e)) by (done || cbn; lia).
  rewrite (splitNFrom_cut "|" (author e)) by (done || cbn; lia).
  cbn [Nat.sub]. by rewrite splitNFrom_rest.
Qed.

Lemma hasByte_render_newline e :
  wellFormed e = true -> hasByte "010" (render e) = false.
Proof.
  unfold wellFormed, plain. intros Hwf.
  repeat match goal with
         | H : _ && _ = true |- _ => apply andb_prop in H as [? ?]
         | H : negb _ = true |- _ => apply negb_true_iff in H
         end.
  unfold render. rewrite !hasByte_append.
  repeat match goal with H : hasByte "010" _ = false |- _ => rewrite H; clear H end.
  reflexivity.
Qed.

Lemma render_not_empty e : String.eqb (render e) "" = false.
Proof.
  apply String.eqb_neq. unfold render. intros Heq.
  apply (f_equal String.length) in Heq. rewrite length_append in Heq.
  cbn in Heq. lia.
Qed.

(** Splitting the joined lines gives the lines back. *)
Lemma Split_Join_lines (l : string) (ls : list string) :
  Forall (fun x => hasByte "010" x = false) (l :: ls) ->
  Split (Join (l :: ls) (String "010" "")) (String "010" "") = l :: ls.
Proof.
  revert l. induction ls as [|l' ls IH]; intros l Hall.
  - cbn [Join]. apply Split_last. by inversion Hall.
  - change (Join (l :: l' :: ls) (String "010" ""))
      with (l +:+ String "010" (Join (l' :: ls) (String "010" ""))).
    inversion Hall as [|? ? Hl Hrest]; subst.
    rewrite Split_cut by done. by rewrite IH.
Qed.

Lemma parseLines_rendered es : forall commits n st,
  Forall (fun e => wellFormed e = true) es ->
  0 <= n -> n + Z.of_nat (length es) <= 200 ->
  GitCli.parseLines g (map render es) commits n st =
    (app commits (fst (records g es (world st))),
     MkState (snd (records g es (world st))) (output st)).
Proof.
  induction es as [|e es IH]; intros commits n st Hwf Hn Hfit.
  - cbn. rewrite app_nil_r. by destruct st.
  - inversion Hwf as [|? ? He Hes]; subst.
    cbn [map GitCli.parseLines]. rewrite render_not_empty.
    cbn [length] in Hfit.
    destruct (Z.geb_spec n 200) as [Hge|Hlt]; [lia|].
    rewrite incr_small by (unfold GoFmt.maxInt; lia).
    rewrite SplitN_render by done.
    cbn [length Nat.ltb Nat.leb nth andb records].
    assert ((if negb (String.eqb (body e) "")
             then subject e +:+ String "010" (String "010" (body e))
             else subject e) = message e) as ->.
    { unfold message. by destruct (String.eqb (body e) ""). }
    unfold bind at 1.
    destruct (GitCli.parseCommitDate g (date e)) as [t|err].
    + unfold ret at 1. rewrite IH by (done || lia).
      destruct (records g es (world st)) as [rs w2]. cbn [fst snd].
      by rewrite <- app_assoc.
    + unfold act at 1. destruct (Host.Now (world st)) as [t w1].
      rewrite IH by (done || lia). cbn [world output].
      destruct (records g es w1) as [rs w2]. cbn [fst snd].
      by rewrite <- app_assoc.
Qed.

(** X20: What [git log] prints in the format of [runGitLog] is read back by
    [parseCommitLog]: for at most 200 commits, one per line, whose hash,
    subject, date and author hold no bar and no line feed and whose body
    holds no line feed, the records are the commits, in order, each with
    its hash, its subject (and body) as the message and its date.  A
    date that does not parse is replaced by a reading of the clock, one
    reading for each such commit, in order; nothing else happens to the
    world and nothing is logged. *)
Theorem parseCommitLog_reads_back_the_log es st :
  Forall (fun e => wellFormed e = true) es ->
  (length es <= 200)%nat ->
  GitCli.parseCommitLog g (Join (map render es) (String "010" "")) st =
    (fst (records g es (world st)),
     MkState (snd (records g es (world st))) (output st)).
Proof.
  intros Hwf Hlen. unfold GitCli.parseCommitLog.
  destruct es as [|e es]; [by destruct st|].
  cbn [map]. rewrite Split_Join_lines.
  - change (render e :: map render es) with (map render (e :: es)).
    rewrite parseLines_rendered by (done || lia). reflexivity.
  - change (render e :: map render es) with (map render (e :: es)).
    apply Forall_map. eapply Forall_impl; [exact Hwf|].
    intros x Hx. by apply hasByte_render_newline.
Qed.

(** X21: The command-line variant too ends by removing the temporary
    directory once [os.MkdirTemp] has made it, whatever the git commands
    answer. *)
Theorem cli_temp_dir_is_removed_last dep st tempDir w1 :
  CurrentVersion dep <> LatestVersion dep ->
  git.MkdirTemp "" "dependency-*" (world st) = (Ok tempDir, w1) ->
  exists w2,
    world (snd (GitCli.GetCommitsBetweenVersions g dep st)) = git.RemoveAll tempDir w2.
Proof.
  intros Hne Hmk. unfold GitCli.GetCommitsBetweenVersions.
  apply String.eqb_neq in Hne. rewrite Hne.
  unfold bind at 1. unfold act at 1. rewrite Hmk.
  eexists. apply run_then_remove.
Qed.

End CommandLine.

Lemma cli_temp_dir_is_removed_last_witness :
  ~ In "/tmp/dependency-1"
      (Disk.dirs (GitOps.world
         (snd (GitCli.GetCommitsBetweenVersions (S := Transcript.system) InMemory.g
                 InMemory.dep (Disk.start Disk.healthy))))).
Proof.
  destruct (cli_temp_dir_is_removed_last (S := Transcript.system) InMemory.g
              InMemory.dep (Disk.start Disk.healthy) "/tmp/dependency-1"
              {| Disk.repo := InMemory.tagged; Disk.dirs := ["/tmp/dependency-1"];
                 Disk.diskFull := false; Disk.remoteDown := false;
                 Disk.clock := 0%Z |})
    as [w2 Hw2]; [discriminate|reflexivity|].
  rewrite Hw2. cbn. intros Hin. apply filter_In in Hin as [_ Hin].
  by rewrite String.eqb_refl in Hin.
Defined.

Lemma cli_extraction_has_at_most_200_records_witness :
  exists commits,
    fst (GitCli.GetCommitsBetweenVersions (S := Transcript.system) InMemory.g
           InMemory.dep (Disk.start Disk.healthy)) = GoError.Ok commits /\
    (length commits <= 200)%nat.
Proof.
  eexists. split; [vm_compute; reflexivity|].
  match goal with |- (length ?cs <= _)%nat =>
    apply (cli_extraction_has_at_most_200_records (S := Transcript.system) InMemory.g
             InMemory.dep (Disk.start Disk.healthy) cs eq_refl)
  end.
Defined.

Lemma parseCommitLog_reads_back_the_log_witness :
  GitCli.parseCommitLog (S := Transcript.system) InMemory.g
      (GoStrings.Join (map LogLine.render Transcript.entries) (String "010" ""))
      (Disk.start Disk.healthy) =
    ([ {| Models.Hash := "a1b2c3"; Models.Message := "fix: close the file";
          Models.Date := 8%Z |};
       {| Models.Hash := "d4e5f6";
          Models.Message :=
            "feat: add retry" +:+ String "010" (String "010" "Retries three times.");
          Models.Date := 0%Z |};
       {| Models.Hash := "0a1b2c"; Models.Message := "docs: say more";
          Models.Date := 1%Z |} ],
     Disk.start
       {| Disk.repo := InMemory.tagged; Disk.dirs := []; Disk.diskFull := false;
          Disk.remoteDown := false; Disk.clock := 2%Z |}).
Proof.
  assert (Hwf : Forall (fun e => LogLine.wellFormed e = true) Transcript.entries)
    by (repeat constructor).
  assert (Hlen : (length Transcript.entries <= 200)%nat) by (cbn; lia).
  rewrite (parseCommitLog_reads_back_the_log (S := Transcript.system) InMemory.g
             Transcript.entries (Disk.start Disk.healthy) Hwf Hlen).
  reflexivity.
Defined.

(* ===================================================================== *)
(** ** [go.mod]: which modules are recorded as direct *)
(* ===================================================================== *)

Section GoMod.

Import GoStrings GoText Fetcher Token.
Local Arguments String.append !_ _ /.

Lemma spaceWidth_graphic c s : graphic c = true -> spaceWidth (String c s) = 0%nat.
Proof.
  destruct c as [[] [] [] [] [] [] [] []]; intros H; cbv in H;
    try discriminate H; reflexivity.
Qed.

Lemma spaceWidth_blank s : spaceWidth (String " " s) = 1%nat.
Proof. reflexivity. Qed.

Lemma fieldsFrom_word w : forall rest cur,
  allGraphic w = true ->
  fieldsFrom (w +:+ rest) cur 0 = fieldsFrom rest (cur +:+ w) 0.
Proof.
  induction w as [|c w IH]; intros rest cur Hw.
  - cbn. by rewrite append_empty_r.
  - cbn in Hw. apply andb_prop in Hw as [Hc Hw].
    change (String c w +:+ rest) with (String c (w +:+ rest)).
    cbn [fieldsFrom]. rewrite spaceWidth_graphic by done.
    rewrite IH by done. by rewrite append_assoc.
Qed.

Lemma fieldsFrom_blank rest cur :
  cur <> "" ->
  fieldsFrom (String " " rest) cur 0 = cur :: fieldsFrom rest "" 0.
Proof.
  intros Hcur. cbn [fieldsFrom]. rewrite spaceWidth_blank.
  by destruct (String.eqb_spec cur "").
Qed.

Lemma word_parts s : word s = true -> s <> "" /\ allGraphic s = true.
Proof.
  unfold word. intros H. apply andb_prop in H as [Hne Hall].
  split; [|done]. apply negb_true_iff in Hne. by apply String.eqb_neq.
Qed.

Lemma Fields_two a b :
  word a = true -> word b = true ->
  Fields (a +:+ String " " b) = [a; b].
Proof.
  intros [Ha Hga]%word_parts [Hb Hgb]%word_parts. unfold Fields.
  rewrite fieldsFrom_word by done. change ("" +:+ a) with a.
  rewrite fieldsFrom_blank by done.
  rewrite <- (append_empty_r b) at 1.
  rewrite fieldsFrom_word by done. cbn.
  by destruct (String.eqb_spec b "").
Qed.

Lemma Fields_three a b c :
  word a = true -> word b = true -> word c = true ->
  Fields (a +:+ String " " (b +:+ String " " c)) = [a; b; c].
Proof.
  intros [Ha Hga]%word_parts [Hb Hgb]%word_parts [Hc Hgc]%word_parts. unfold Fields.
  rewrite fieldsFrom_word by done. change ("" +:+ a) with a.
  rewrite fieldsFrom_blank by done.
  rewrite fieldsFrom_word by done. change ("" +:+ b) with b.
  rewrite fieldsFrom_blank by done.
  rewrite <- (append_empty_r c) at 1.
  rewrite fieldsFrom_word by done. cbn.
  by destruct (String.eqb_spec c "").
Qed.

Lemma stripPrefix_append p : forall q s,
  stripPrefix (p +:+ q) s =
    match stripPrefix p s with
    | Some r => stripPrefix q r
    | None => None
    end.
Proof.
  induction p as [|a p IH]; intros q s; [reflexivity|].
  change (String a p +:+ q) with (String a (p +:+ q)).
  cbn [stripPrefix]. destruct s as [|b s]; [reflexivity|].
  destruct (Ascii.eqb a b); [apply IH|reflexivity].
Qed.

(** A text that does not start with [p] does not start with [p]
    followed by more. *)
Lemma HasPrefix_longer s p q : HasPrefix s p = false -> HasPrefix s (p +:+ q) = false.
Proof.
  unfold HasPrefix. rewrite stripPrefix_append.
  by destruct (stripPrefix p s).
Qed.

Lemma HasPrefix_common p : forall s q, HasPrefix (p +:+ s) (p +:+ q) = HasPrefix s q.
Proof.
  induction p as [|a p IH]; intros s q; [reflexivity|].
  change (String a p +:+ ?x) with (String a (p +:+ x)).
  unfold HasPrefix in *. cbn [stripPrefix]. rewrite Ascii.eqb_refl. apply IH.
Qed.

Lemma length_two_words a b :
  a <> "" -> b <> "" -> (3 <= String.length (a +:+ String " " b))%nat.
Proof.
  intros Ha Hb. rewrite length_append. cbn [String.length].
  destruct a; [done|]. destruct b; [done|]. cbn [String.length]. lia.
Qed.

(** X22: Inside a [require ( ... )] block a line [module version] records
    the module as a direct dependency: [processGoModLine] puts the first
    field of the line in the map and stays in the block, when the line
    is no comment, does not start with [require ] and does not hold
    [// indirect]. *)
Theorem block_line_records_its_module (name version : string)
    (directDeps : gmap string bool) :
  word name = true -> word version = true ->
  HasPrefix (name +:+ String " " version) "//" = false ->
  HasPrefix (name +:+ String " " version) "require " = false ->
  Contains (name +:+ String " " version) "// indirect" = false ->
  processGoModLine (name +:+ String " " version) directDeps true =
    (<[name := true]> directDeps, true).
Proof.
  intros Hname Hversion Hcomment Hrequire Hindirect.
  destruct (word_parts _ Hname) as [Hn _], (word_parts _ Hversion) as [Hv _].
  pose proof (length_two_words name version Hn Hv) as Hlen.
  unfold processGoModLine.
  destruct (String.eqb_spec (name +:+ String " " version) "") as [He|_].
  { rewrite He in Hlen. cbn in Hlen. lia. }
  rewrite Hcomment. cbn [orb].
  change "require (" with ("require " +:+ "(").
  rewrite (HasPrefix_longer _ "require " "(") by done.
  destruct (String.eqb_spec (name +:+ String " " version) ")") as [He|_].
  { rewrite He in Hlen. cbn in Hlen. lia. }
  rewrite Hrequire. cbn [andb].
  unfold parseDependencyLine. rewrite Fields_two by done.
  rewrite Hrequire, Hindirect. reflexivity.
Qed.

(** X23: A line [require module version] records the module, in a block or
    not: [processGoModLine] puts the second field of the line in the map
    and leaves the block state alone, when the module does not start
    with a parenthesis and the line neither ends with one nor holds
    [// indirect]. *)
Theorem require_line_records_its_module (name version : string)
    (directDeps : gmap string bool) (inRequireBlock : bool) :
  word name = true -> word version = true ->
  HasPrefix name "(" = false ->
  HasSuffix ("require " +:+ name +:+ String " " version) "(" = false ->
  Contains ("require " +:+ name +:+ String " " version) "// indirect" = false ->
  processGoModLine ("require " +:+ name +:+ String " " version) directDeps
      inRequireBlock =
    (<[name := true]> directDeps, inRequireBlock).
Proof.
  intros Hname Hversion Hparen Hsuffix Hindirect.
  destruct (word_parts _ Hname) as [Hn _].
  set (rest := name +:+ String " " version) in *.
  assert (HasPrefix rest "(" = false) as Hopen.
  { subst rest. destruct name as [|c name]; [done|].
    change (String c name +:+ String " " version)
      with (String c (name +:+ String " " version)).
    by rewrite HasPrefix_byte in *. }
  assert (Fields ("require " +:+ rest) = ["require"; name; version]) as Hfields.
  { change ("require " +:+ rest) with ("require" +:+ String " " rest).
    subst rest. by apply Fields_three. }
  assert (HasPrefix ("require " +:+ rest) "require (" = false) as Hblock.
  { change "require (" with ("require " +:+ "(").
    by rewrite HasPrefix_common. }
  assert (HasPrefix ("require " +:+ rest) "require " = true) as Hrequire.
  { rewrite <- (append_empty_r "require ") at 2.
    by rewrite HasPrefix_common. }
  unfold processGoModLine, parseDependencyLine.
  rewrite Hsuffix, Hindirect, Hblock, Hrequire, Hfields.
  assert (String.eqb ("require " +:+ rest) "" = false) as -> by reflexivity.
  assert (HasPrefix ("require " +:+ rest) "//" = false) as -> by reflexivity.
  assert (String.eqb ("require " +:+ rest) ")" = false) as -> by reflexivity.
  cbn. by rewrite andb_false_r.
Qed.

(** A line that holds [// indirect] never changes the map. *)
Lemma indirect_line_keeps_map line directDeps inRequireBlock :
  Contains line "// indirect" = true ->
  fst (processGoModLine line directDeps inRequireBlock) = directDeps.
Proof.
  intros Hind.
  assert (parseDependencyLine line directDeps = directDeps) as Hp.
  { unfold parseDependencyLine. rewrite Hind. cbn [negb].
    by destruct (2 <=? length (Fields line))%nat. }
  unfold processGoModLine.
  repeat match goal with
         | |- context [if ?b then _ else _] => destruct b
         end; cbn [fst]; done.
Qed.

(** What one line can add: a field of the line, marked [true], and only
    if the line does not hold [// indirect]. *)
Lemma processGoModLine_adds line directDeps inRequireBlock k v :
  fst (processGoModLine line directDeps inRequireBlock) !! k = Some v ->
  directDeps !! k = Some v \/
  (v = true /\ In k (Fields line) /\ Contains line "// indirect" = false).
Proof.
  assert (parseDependencyLine line directDeps !! k = Some v ->
          directDeps !! k = Some v \/
          (v = true /\ In k (Fields line) /\ Contains line "// indirect" = false))
    as Hp.
  { unfold parseDependencyLine.
    destruct (Nat.leb_spec 2 (length (Fields line))) as [Hlen|_]; [|by left].
    destruct (Contains line "// indirect") eqn:Hind; cbn [negb]; [by left|].
    set (depName := if HasPrefix line "require " then _ else _).
    assert (In depName (Fields line)) as Hin.
    { subst depName. destruct (HasPrefix line "require "); apply nth_In; lia. }
    destruct (decide (depName = k)) as [<-|Hne].
    - rewrite lookup_insert_eq. intros [= <-]. by right.
    - rewrite lookup_insert_ne by done. by left. }
  unfold processGoModLine.
  repeat match goal with
         | |- context [if ?b then _ else _] => destruct b
         end; cbn [fst]; auto.
Qed.

Lemma scanLines_adds all : forall lines acc k v,
  (forall line, In line lines -> In line all) ->
  fst (fold_left
         (fun '(directDeps, inRequireBlock) text =>
            processGoModLine (TrimSpace text) directDeps inRequireBlock)
         lines acc) !! k = Some v ->
  fst acc !! k = Some v \/
  (v = true /\
   exists text, In text all /\ In k (Fields (TrimSpace text)) /\
     Contains (TrimSpace text) "// indirect" = false).
Proof.
  induction lines as [|text lines IH]; intros [m b] k v Hsub Hk; [by left|].
  cbn [fold_left] in Hk. apply IH in Hk.
  - destruct Hk as [Hk|Hk]; [|by right].
    apply processGoModLine_adds in Hk as [Hk|(-> & Hin & Hind)]; [by left|].
    right. split; [done|]. exists text. repeat split; try done.
    apply Hsub. by left.
  - intros line Hin. apply Hsub. by right.
Qed.

(** X24: Every module that the scan of [go.mod] records is marked [true] and
    is a field of a line of the file that does not hold [// indirect]. *)
Theorem recorded_modules_come_from_direct_lines (lines : list string) (k : string)
    (v : bool) :
  fst (scanLines lines) !! k = Some v ->
  v = true /\
  exists text, In text lines /\ In k (Fields (TrimSpace text)) /\
    Contains (TrimSpace text) "// indirect" = false.
Proof.
  unfold scanLines. intros Hk.
  apply (scanLines_adds lines) in Hk; [|done].
  destruct Hk as [Hk|Hk]; [|done].
  cbn in Hk. by rewrite lookup_empty in Hk.
Qed.

(** X25: Empty lines and comment lines of [go.mod] do not count: the scan
    gives the same map and the same block state with or without one. *)
Theorem blank_and_comment_lines_are_skipped (before after : list string)
    (text : string) :
  TrimSpace text = "" \/ HasPrefix (TrimSpace text) "//" = true ->
  scanLines (app before (text :: after)) = scanLines (app before after).
Proof.
  intros Hskip. unfold scanLines. rewrite !fold_left_app. cbn [fold_left].
  destruct (fold_left _ before _) as [m b].
  assert (processGoModLine (TrimSpace text) m b = (m, b)) as Hline.
  { unfold processGoModLine. destruct Hskip as [Hskip|Hskip]; rewrite Hskip;
      [reflexivity|]. by rewrite orb_true_r. }
  by rewrite Hline.
Qed.

Lemma fieldsFrom_nonempty s : forall cur skip,
  Forall (fun field => field <> "") (fieldsFrom s cur skip).
Proof.
  induction s as [|c s IH]; intros cur skip; cbn [fieldsFrom].
  - destruct (String.eqb_spec cur ""); repeat constructor; done.
  - destruct skip as [|k]; [|apply IH].
    destruct (spaceWidth (String c s)) as [|w]; [apply IH|].
    destruct (String.eqb_spec cur ""); [apply IH|].
    constructor; [done|apply IH].
Qed.

End GoMod.

Lemma block_line_records_its_module_witness :
  Fetcher.processGoModLine "example.com/lib v1.0.0" ∅ true =
    (<["example.com/lib" := true]> ∅, true).
Proof.
  exact (block_line_records_its_module "example.com/lib" "v1.0.0" ∅
           eq_refl eq_refl eq_refl eq_refl eq_refl).
Defined.

Lemma require_line_records_its_module_witness :
  Fetcher.processGoModLine "require example.com/lib v1.0.0" ∅ false =
    (<["example.com/lib" := true]> ∅, false).
Proof.
  exact (require_line_records_its_module "example.com/lib" "v1.0.0" ∅ false
           eq_refl eq_refl eq_refl eq_refl eq_refl).
Defined.

Lemma recorded_modules_come_from_direct_lines_witness :
  fst (Fetcher.scanLines Transcript.goMod) !! "example.com/lib" = Some true /\
  exists text, In text Transcript.goMod /\
    In "example.com/lib" (GoText.Fields (GoText.TrimSpace text)) /\
    GoStrings.Contains (GoText.TrimSpace text) "// indirect" = false.
Proof.
  assert (H : fst (Fetcher.scanLines Transcript.goMod) !! "example.com/lib" = Some true)
    by (vm_compute; reflexivity).
  split; [exact H|].
  exact (proj2 (recorded_modules_come_from_direct_lines Transcript.goMod
                  "example.com/lib" true H)).
Defined.

Lemma blank_and_comment_lines_are_skipped_witness :
  Fetcher.scanLines (app ["require ("] ("  // pinned" :: ["example.com/lib v1.0.0"])) =
  Fetcher.scanLines (app ["require ("] ["example.com/lib v1.0.0"]).
Proof.
  exact (blank_and_comment_lines_are_skipped ["require ("] ["example.com/lib v1.0.0"]
           "  // pinned" (or_intror eq_refl)).
Defined.

(* ===================================================================== *)
(** ** The latest version and the analysis of one dependency *)
(* ===================================================================== *)

Section Updates.

Import GoError Models GitOps GoStrings GoText Analyzer.
Context `{S : Host.System}.
Variable GetCommitsBetweenVersions :
  GitOperations -> Dependency -> M (result (list CommitInfo)).

Lemma In_skipn_1 (x : string) (l : list string) : In x (skipn 1 l) -> In x l.
Proof. destruct l as [|y l]; cbn; auto. Qed.

(** The two ways [GetLatestVersion] ends: an error and the dependency
    as it was, or no error and the last field of the output as the
    latest version. *)
Lemma GetLatestVersion_cases df dep st :
  (exists e, fst (Fetcher.GetLatestVersion df dep st) = (dep, Some e)) \/
  (exists latest, latest <> "" /\
     fst (Fetcher.GetLatestVersion df dep st) =
       ({| Name := Name dep;
           CurrentVersion := CurrentVersion dep;
           LatestVersion := latest;
           UpdateNeeded := negb (String.eqb (CurrentVersion dep) latest) |}, None)).
Proof.
  unfold Fetcher.GetLatestVersion, bind, act, ret.
  destruct (Host.Output _ _ _) as [[output|err] w']; cbn [fst snd];
    [|left; eexists; reflexivity].
  set (parts := Fields (TrimSpace output)).
  destruct (Nat.ltb_spec (length parts) 2) as [Hshort|Hlong];
    [left; eexists; reflexivity|].
  assert (length (skipn 1 parts) = length parts - 1)%nat as Hlen
    by apply length_skipn.
  destruct (Nat.ltb_spec 0 (length (skipn 1 parts))) as [_|Hnone]; [|lia].
  right. eexists. split; [|reflexivity].
  assert (In (nth (length (skipn 1 parts) - 1) (skipn 1 parts) "") parts) as Hin.
  { apply In_skipn_1, nth_In. lia. }
  pose proof (fieldsFrom_nonempty (TrimSpace output) "" 0) as Hall.
  rewrite List.Forall_forall in Hall. by apply Hall.
Qed.

(** X26: When [GetLatestVersion] returns an error the dependency is as it
    was.  When it returns none, the name and the current version are as
    they were, the latest version is not empty, and an update is needed
    exactly when the current version differs from the latest one. *)
Theorem latest_version_decides_the_update df dep st dep' err :
  fst (Fetcher.GetLatestVersion df dep st) = (dep', err) ->
  match err with
  | Some _ => dep' = dep
  | None =>
      Name dep' = Name dep /\ CurrentVersion dep' = CurrentVersion dep /\
      LatestVersion dep' <> "" /\
      (UpdateNeeded dep' = true <-> CurrentVersion dep' <> LatestVersion dep')
  end.
Proof.
  intros Hrun.
  destruct (GetLatestVersion_cases df dep st) as [[e He]|(latest & Hlatest & He)];
    rewrite He in Hrun; injection Hrun as <- <-; [reflexivity|].
  cbn. repeat split; try done.
  - intros Hneed Heq. by rewrite Heq, String.eqb_refl in Hneed.
  - intros Hdiff. by destruct (String.eqb_spec (CurrentVersion dep) latest).
Qed.

(** [GetLatestVersion] logs nothing. *)
Lemma GetLatestVersion_output df dep st :
  output (snd (Fetcher.GetLatestVersion df dep st)) = output st.
Proof.
  unfold Fetcher.GetLatestVersion, bind, act, ret.
  destruct (Host.Output _ _ _) as [[out|err] w']; cbn [fst snd]; [|reflexivity].
  repeat match goal with
         | |- context [if ?b then _ else _] => destruct b
         end; reflexivity.
Qed.

(** What [AnalyzeDependency] answers when it returns no error. *)
Lemma AnalyzeDependency_answer du dep st dep' a :
  fst (Updater.AnalyzeDependency GetCommitsBetweenVersions du dep st) = (dep', Ok a) ->
  Dependency_ a = dep' /\
  Name dep' = Name dep /\ CurrentVersion dep' = CurrentVersion dep /\
  (UpdateNeeded dep' = false ->
     Commits a = [] /\ ShouldUpdate a = false /\
     UpdateReason a = "" /\ RejectionReason a = "") /\
  (UpdateNeeded dep' = true ->
     (ShouldUpdate a = true /\ UpdateReason a <> "" /\ RejectionReason a = "") \/
     (ShouldUpdate a = false /\ UpdateReason a = "" /\ RejectionReason a <> "")).
Proof.
  unfold Updater.AnalyzeDependency. unfold bind at 1.
  pose proof (GetLatestVersion_cases (Updater.fetcher du) dep st) as Hcases.
  destruct (Fetcher.GetLatestVersion (Updater.fetcher du) dep st) as [[d err] st'].
  cbn [fst] in Hcases.
  destruct Hcases as [[e [= -> ->]]|(latest & Hlatest & [= -> ->])];
    [discriminate|].
  cbn [UpdateNeeded Name CurrentVersion LatestVersion].
  destruct (String.eqb (CurrentVersion dep) latest); cbn [negb].
  - unfold bind, say, ret. cbn [fst]. intros [= <- <-]. cbn. by repeat split.
  - unfold bind, ret.
    destruct (GetCommitsBetweenVersions _ _ _) as [[commits|e] st''];
      cbn [fst]; [|discriminate].
    intros [= <- <-]. cbn [UpdateNeeded Name CurrentVersion].
    destruct (AnalyzeUpdate_texts
                {| Name := Name dep; CurrentVersion := CurrentVersion dep;
                   LatestVersion := latest; UpdateNeeded := true |} commits)
      as (Hdep & _ & Htexts).
    repeat split; try done.
Qed.

(** X27: The analysis that [AnalyzeDependency] returns is about the
    dependency it returns, which has the name and the current version of
    the one passed in.  When no update is needed the analysis holds no
    commit, no approval and no text; when one is needed it holds exactly
    one text, the reason of an approval or the reason of a rejection. *)
Theorem analysis_is_about_the_dependency du dep st dep' a :
  fst (Updater.AnalyzeDependency GetCommitsBetweenVersions du dep st) = (dep', Ok a) ->
  Dependency_ a = dep' /\
  Name dep' = Name dep /\ CurrentVersion dep' = CurrentVersion dep /\
  (UpdateNeeded dep' = false ->
     Commits a = [] /\ ShouldUpdate a = false /\
     UpdateReason a = "" /\ RejectionReason a = "") /\
  (UpdateNeeded dep' = true ->
     (ShouldUpdate a = true /\ UpdateReason a <> "" /\ RejectionReason a = "") \/
     (ShouldUpdate a = false /\ UpdateReason a = "" /\ RejectionReason a <> "")).
Proof. apply AnalyzeDependency_answer. Qed.

(** X28: A dependency whose latest version cannot be found, or is the
    current one, is not fetched: [AnalyzeDependency] answers the same,
    and leaves the same state, whatever [GetCommitsBetweenVersions]
    would do. *)
Theorem up_to_date_dependency_is_not_fetched
    (other : GitOperations -> Dependency -> M (result (list CommitInfo)))
    du dep st dep' err :
  fst (Fetcher.GetLatestVersion (Updater.fetcher du) dep st) = (dep', err) ->
  err <> None \/ UpdateNeeded dep' = false ->
  Updater.AnalyzeDependency GetCommitsBetweenVersions du dep st =
  Updater.AnalyzeDependency other du dep st.
Proof.
  intros Hrun Hquiet. unfold Updater.AnalyzeDependency, bind.
  destruct (Fetcher.GetLatestVersion (Updater.fetcher du) dep st) as [[d e] st'].
  cbn [fst] in Hrun. injection Hrun as -> ->.
  destruct err as [e|]; [reflexivity|].
  destruct Hquiet as [Herr|Hneed]; [done|]. by rewrite Hneed.
Qed.

End Updates.

Lemma latest_version_decides_the_update_witness :
  exists dep',
    fst (Fetcher.GetLatestVersion (S := Transcript.system)
           (Updater.fetcher Scripted.updater) Transcript.lib
           (Disk.start Disk.healthy)) = (dep', None) /\
    Models.Name dep' = "example.com/lib" /\
    Models.CurrentVersion dep' = "v1.0.0" /\
    Models.LatestVersion dep' <> "" /\
    (Models.UpdateNeeded dep' = true <->
     Models.CurrentVersion dep' <> Models.LatestVersion dep').
Proof.
  match goal with
  | |- exists dep', ?run = _ /\ _ =>
      let v := eval vm_compute in run in
      match v with
      | (?d, None) =>
          assert (Hrun : run = (d, None)) by (vm_compute; reflexivity);
          exists d; split; [exact Hrun|]
      end
  end.
  exact (latest_version_decides_the_update (S := Transcript.system)
           (Updater.fetcher Scripted.updater) Transcript.lib
           (Disk.start Disk.healthy) _ None Hrun).
Defined.

Lemma analysis_is_about_the_dependency_witness :
  exists dep' a,
    fst (Updater.AnalyzeDependency (S := Transcript.system)
           (GitCli.GetCommitsBetweenVersions (S := Transcript.system)) Scripted.updater Transcript.lib
           (Disk.start Disk.healthy)) = (dep', GoError.Ok a) /\
    Models.UpdateNeeded dep' = true /\
    Models.Dependency_ a = dep' /\
    ((Models.ShouldUpdate a = true /\ Models.UpdateReason a <> "" /\
      Models.RejectionReason a = "") \/
     (Models.ShouldUpdate a = false /\ Models.UpdateReason a = "" /\
      Models.RejectionReason a <> "")).
Proof.
  match goal with
  | |- exists dep' a, ?run = _ /\ _ =>
      let v := eval vm_compute in run in
      match v with
      | (?d, GoError.Ok ?x) =>
          assert (Hrun : run = (d, GoError.Ok x)) by (vm_compute; reflexivity);
          exists d, x; split; [exact Hrun|]
      end
  end.
  split; [reflexivity|].
  pose proof (analysis_is_about_the_dependency (S := Transcript.system)
                (GitCli.GetCommitsBetweenVersions (S := Transcript.system))
                Scripted.updater Transcript.lib
                (Disk.start Disk.healthy) _ _ Hrun) as (Habout & _ & _ & _ & Htext).
  split; [exact Habout|]. exact (Htext eq_refl).
Defined.

Lemma up_to_date_dependency_is_not_fetched_witness :
  Updater.AnalyzeDependency (S := Transcript.system)
    (GitCli.GetCommitsBetweenVersions (S := Transcript.system))
    Scripted.updater Scripted.same (Disk.start Disk.healthy) =
  Updater.AnalyzeDependency (S := Transcript.system)
    (GitOps.GetCommitsBetweenVersions (B := Disk.backend))
    Scripted.updater Scripted.same (Disk.start Disk.healthy).
Proof.
  assert (Hrun : fst (Fetcher.GetLatestVersion (S := Transcript.system)
                        (Updater.fetcher Scripted.updater) Scripted.same
                        (Disk.start Disk.healthy))
                 = ({| Models.Name := "example.com/same";
                       Models.CurrentVersion := "v1.1.0";
                       Models.LatestVersion := "v1.1.0";
                       Models.UpdateNeeded := false |}, None))
    by (vm_compute; reflexivity).
  exact (up_to_date_dependency_is_not_fetched (S := Transcript.system)
           (GitCli.GetCommitsBetweenVersions (S := Transcript.system))
           (GitOps.GetCommitsBetweenVersions (B := Disk.backend))
           Scripted.updater Scripted.same (Disk.start Disk.healthy)
           {| Models.Name := "example.com/same";
              Models.CurrentVersion := "v1.1.0";
              Models.LatestVersion := "v1.1.0";
              Models.UpdateNeeded := false |} None Hrun (or_intror eq_refl)).
Defined.

(* ===================================================================== *)
(** ** The report of [analyzeDependencies] *)
(* ===================================================================== *)

Section Report.

Import GoError Models Analyzer.
Context `{S : Host.System}.
Variable GetCommitsBetweenVersions :
  GitOps.GitOperations -> Dependency -> GitOps.M (result (list CommitInfo)).
Variable updater : Updater.DependencyUpdater.
Variable logger : Utils.Logger.

(** The loop keeps what holds of the two slices, when an approved
    analysis of a dependency that needs an update satisfies [P] and one
    that is not approved satisfies [Q]; each dependency adds at most one
    analysis. *)
Lemma analyzeEach_keeps (P Q : UpdateAnalysis -> Prop) (all : list Dependency) :
  (forall dep st dep' a,
     In dep all ->
     fst (Updater.AnalyzeDependency GetCommitsBetweenVersions updater dep st)
       = (dep', Ok a) ->
     UpdateNeeded dep' = true ->
     if ShouldUpdate a then P a else Q a) ->
  forall deps approved rejected s,
    (forall dep, In dep deps -> In dep all) ->
    Forall P approved -> Forall Q rejected ->
    let lists :=
      fst (MainPkg.analyzeEach GetCommitsBetweenVersions updater logger deps
             approved rejected s) in
    Forall P (fst lists) /\ Forall Q (snd lists) /\
    (length (fst lists) + length (snd lists)
       <= length approved + length rejected + length deps)%nat.
Proof.
  intros Hone. induction deps as [|dep deps IH]; intros approved rejected s Hsub HP HQ.
  - cbn. repeat split; try done. lia.
  - cbv zeta. cbn [MainPkg.analyzeEach].
    unfold MainPkg.bind, MainPkg.Print, MainPkg.call, GitOps.say.
    cbn [MainPkg.world MainPkg.shown].
    destruct (Updater.AnalyzeDependency _ _ _ _) as [[dep' outcome] st] eqn:Hrun.
    assert (forall d, In d deps -> In d all) as Hrest
      by (intros d Hd; apply Hsub; by right).
    destruct outcome as [a|err].
    + destruct (UpdateNeeded dep') eqn:Hneed; cbn [negb].
      * specialize (Hone dep _ dep' a (Hsub dep (or_introl eq_refl))
                      (f_equal fst Hrun) Hneed).
        destruct (ShouldUpdate a).
        -- match goal with
           | |- context [MainPkg.analyzeEach _ _ _ deps ?ap ?rj ?s'] =>
               specialize (IH ap rj s' Hrest)
           end.
           destruct IH as (H1 & H2 & H3);
             [apply Forall_app; split; [done|by constructor]|done|].
           rewrite length_app in H3. cbn [length] in *.
           repeat split; try done. lia.
        -- match goal with
           | |- context [MainPkg.analyzeEach _ _ _ deps ?ap ?rj ?s'] =>
               specialize (IH ap rj s' Hrest)
           end.
           destruct IH as (H1 & H2 & H3);
             [done|apply Forall_app; split; [done|by constructor]|].
           rewrite length_app in H3. cbn [length] in *.
           repeat split; try done. lia.
      * match goal with
        | |- context [MainPkg.analyzeEach _ _ _ deps ?ap ?rj ?s'] =>
            specialize (IH ap rj s' Hrest HP HQ)
        end.
        destruct IH as (H1 & H2 & H3). cbn [length].
        repeat split; try done. lia.
    + match goal with
      | |- context [MainPkg.analyzeEach _ _ _ deps ?ap ?rj ?s'] =>
          specialize (IH ap rj s' Hrest HP HQ)
      end.
      destruct IH as (H1 & H2 & H3). cbn [length].
      repeat split; try done. lia.
Qed.

(** X29: [analyzeDependencies] never returns an error.  Every analysis in
    its first list is approved and carries a reason, every analysis in
    its second list is not approved and carries a rejection text; both
    are about a dependency that needs an update and bears the name of
    one of the dependencies passed in; and the two lists together hold
    at most one analysis for each dependency. *)
Theorem analyzeDependencies_sorts_the_updates (deps : list Dependency)
    (s : MainPkg.Session) :
  let r := fst (MainPkg.analyzeDependencies GetCommitsBetweenVersions updater
                  logger deps s) in
  snd r = None /\
  Forall (fun a =>
            ShouldUpdate a = true /\ UpdateReason a <> "" /\
            UpdateNeeded (Dependency_ a) = true /\
            In (Name (Dependency_ a)) (map Name deps)) (fst (fst r)) /\
  Forall (fun a =>
            ShouldUpdate a = false /\ RejectionReason a <> "" /\
            UpdateNeeded (Dependency_ a) = true /\
            In (Name (Dependency_ a)) (map Name deps)) (snd (fst r)) /\
  (length (fst (fst r)) + length (snd (fst r)) <= length deps)%nat.
Proof.
  cbv zeta. unfold MainPkg.analyzeDependencies.
  unfold MainPkg.bind, MainPkg.Print, MainPkg.ret.
  match goal with
  | |- _ /\ Forall ?p _ /\ Forall ?q _ /\ _ => set (P := p); set (Q := q)
  end.
  assert (forall dep st dep' a,
            In dep deps ->
            fst (Updater.AnalyzeDependency GetCommitsBetweenVersions updater dep st)
              = (dep', Ok a) ->
            UpdateNeeded dep' = true ->
            if ShouldUpdate a then P a else Q a) as Hone.
  { intros dep st dep' a Hin Hrun Hneed.
    apply AnalyzeDependency_answer in Hrun as (Habout & Hname & _ & _ & Htext).
    assert (In (Name (Dependency_ a)) (map Name deps)) as Hnamed.
    { rewrite Habout, Hname. by apply in_map. }
    subst P Q.
    destruct (Htext Hneed) as [(Hs & Hr & _)|(Hs & _ & Hr)]; rewrite Hs;
      rewrite Habout in Hnamed |- *; by repeat split. }
  match goal with
  | |- context [MainPkg.analyzeEach _ _ _ deps [] [] ?s'] =>
      pose proof (analyzeEach_keeps P Q deps Hone deps [] [] s' (fun d Hd => Hd)
                    (List.Forall_nil _) (List.Forall_nil _)) as (H1 & H2 & H3)
  end.
  destruct (MainPkg.analyzeEach _ _ _ _ _ _ _) as [[approved rejected] s'].
  cbn [fst snd length] in *. repeat split; done || lia.
Qed.

End Report.
